(** * Hex terrain generator: a shallow embedding of the JavaScript sources

    The development follows the repository's classes one module each:
    [PerlinNoise] (utils/noise.js), [PerturbationUtils]
    (utils/PerturbationUtils.js), [HexUtils] (utils/HexUtils.js), the two
    classes called [HexGenerator] (hex/hexGenerator.js, and the later one that
    also builds meshes) and [HexRenderer].

    JavaScript numbers are IEEE 754 binary64 values: they are modelled by the
    kernel's primitive floats, so that [+], [-], [*], [/] and the comparisons
    are the operations the program runs.  Grid coordinates are JavaScript
    numbers that only ever hold small integers; they are modelled by [Z] and
    converted with [of_Z] where the program multiplies them with a length. *)

From Stdlib Require Import Floats ZArith List String Ascii Bool Lia.
From Stdlib Require Uint63.
From Stdlib Require Import DecimalString.
Import ListNotations.

Set Warnings "-inexact-float".

(* ================================================================== *)
(** ** Outcomes and the state monad of a JavaScript object *)

(** A method either returns or throws.  The only exception the modelled code
    can raise is the [TypeError] of reading a property of [undefined]. *)
Inductive jsError : Type := TypeError.

Inductive outcome (A : Type) : Type :=
| Returned (a : A)
| Thrown (e : jsError).
Arguments Returned {A} a.
Arguments Thrown {A} e.


(** A method of an object of class [S]: it reads and updates [this]. *)
Definition M (S A : Type) : Type := S -> outcome (A * S).

Definition ret {S A} (a : A) : M S A := fun s => Returned (a, s).

Definition bind {S A B} (m : M S A) (k : A -> M S B) : M S B :=
  fun s => match m s with
           | Returned (a, s') => k a s'
           | Thrown e => Thrown e
           end.

Definition throw {S A} (e : jsError) : M S A := fun _ => Thrown e.

Definition getThis {S} : M S S := fun s => Returned (s, s).
Definition putThis {S} (s : S) : M S unit := fun _ => Returned (tt, s).

(** [this.f] for a field that is only read. *)
Definition asks {S A} (f : S -> A) : M S A := fun s => Returned (f s, s).

(** A call [this.field.method(...)]: the method runs on the field, which is
    written back. *)
Definition zoom {S T A} (proj : S -> T) (upd : S -> T -> S) (m : M T A) : M S A :=
  fun s => match m (proj s) with
           | Returned (a, t') => Returned (a, upd s t')
           | Thrown e => Thrown e
           end.

Declare Scope js_scope.
Delimit Scope js_scope with js.
Notation "x <- m ;; k" := (bind m (fun x => k))
  (at level 61, m at next level, right associativity) : js_scope.
Notation "' pat <- m ;; k" := (bind m (fun x => match x with pat => k end))
  (at level 61, pat pattern, m at next level, right associativity) : js_scope.
Open Scope js_scope.

Fixpoint mapM {S A B} (f : A -> M S B) (l : list A) : M S (list B) :=
  match l with
  | [] => ret []
  | a :: l' => b <- f a ;; bs <- mapM f l' ;; ret (b :: bs)
  end.

(** The value a method returns, when it returns. *)
Definition value {A S} (o : outcome (A * S)) : option A :=
  match o with Returned (a, _) => Some a | Thrown _ => None end.

(** [vertices[i]] followed by a property read: out of range the array yields
    [undefined] and the read throws. *)
Definition index {S A} (l : list A) (i : nat) : M S A :=
  match nth_error l i with
  | Some a => ret a
  | None => throw TypeError
  end.

(** [obj[name]] on an object literal, kept as the list of its properties. *)
Fixpoint prop {V} (name : string) (obj : list (string * V)) : option V :=
  match obj with
  | [] => None
  | (k, v) :: rest => if String.eqb name k then Some v else prop name rest
  end.

(** Destructuring [const [a, b] = obj[name]]: [undefined] is not iterable. *)
Definition propM {S V} (name : string) (obj : list (string * V)) : M S V :=
  match prop name obj with
  | Some v => ret v
  | None => throw TypeError
  end.

(* ================================================================== *)
(** ** The [Math] object *)

Module JSMath.
Open Scope float_scope.

(** [Math.PI]. *)
Definition PI : float := 3.141592653589793.

Definition two52 : float := 4503599627370496.

(** [Math.floor]: below 2^52 in magnitude, adding and subtracting 2^52 rounds
    to an integer, which is then corrected downwards; larger numbers, the
    infinities and NaN are returned unchanged, and so are both zeros. *)
Definition floor (x : float) : float :=
  if abs x <? two52 then
    if x =? 0 then x else
    let t := (abs x + two52) - two52 in
    let r := if x <? 0 then - t else t in
    if x <? r then r - 1 else r
  else x.

(** [Math.round]: the nearest integer, ties towards +infinity; a zero result
    keeps the sign of the argument. *)
Definition round (x : float) : float :=
  if abs x <? two52 then
    let r := floor x in
    let res := if (x - r) <? 0.5 then r else r + 1 in
    if res =? 0 then (if get_sign x then -0 else 0) else res
  else x.

(** A grid coordinate as a number. *)
Definition of_Z (z : Z) : float :=
  match z with
  | Z0 => 0
  | Zpos _ => of_uint63 (Uint63.of_Z z)
  | Zneg p => - of_uint63 (Uint63.of_Z (Zpos p))
  end.

(** [a % b] on integers, as a number: the remainder has the sign of the
    dividend, and a zero remainder of a negative dividend is [-0]. *)
Definition rem (a b : Z) : float :=
  if (Z.rem a b =? 0)%Z && (a <? 0)%Z then -0 else of_Z (Z.rem a b).

(** Truthiness of a number: everything but [0], [-0] and [NaN]. *)
Definition truthy (v : float) : bool := negb (v =? 0) && negb (is_nan v).

(** The functions whose results ECMAScript leaves to the implementation
    ([Math.sin], [Math.cos], [Math.pow]) are a parameter of the model.  Of
    what the standard fixes, this is recorded: the sine of a zero is that
    zero, the sine of infinity is NaN, and the cosine of NaN is NaN. *)
Record lib : Type := mkLib {
  sin : float -> float;
  cos : float -> float;
  pow : float -> float -> float;
  sin_pos_zero : sin 0 = 0;
  sin_neg_zero : sin (-0) = -0;
  sin_infinity : sin infinity = nan;
  cos_nan : cos nan = nan;
}.

End JSMath.

(* ================================================================== *)
(** ** Keys of the memo tables *)

(** The caches of [PerlinNoise] are objects indexed by the string
    [x + "," + y].  Number-to-string conversion is injective on binary64
    values except that it prints [-0] as ["0"]; a number's string has no
    comma.  A key is therefore modelled by the pair of the two numbers with
    the sign of a zero dropped. *)
Module Key.
Open Scope float_scope.

Definition t : Type := (float * float)%type.

Definition canon (x : float) : float := if x =? 0 then 0 else x.

Definition make (x y : float) : t := (canon x, canon y).

Definition eqb (a b : t) : bool :=
  Leibniz.eqb (fst a) (fst b) && Leibniz.eqb (snd a) (snd b).

(** [table[key]]; [None] is [undefined]. *)
Fixpoint lookup {V} (k : t) (table : list (t * V)) : option V :=
  match table with
  | [] => None
  | (k', v) :: rest => if eqb k k' then Some v else lookup k rest
  end.

End Key.

(* ================================================================== *)
(** ** utils/noise.js: class PerlinNoise *)

Module PerlinNoise.
Open Scope float_scope.
Import JSMath.

Record gradient : Type := mkGradient { gx : float; gy : float }.

Record t : Type := mk {
  seed : float;
  gradients : list (Key.t * gradient);
  memory : list (Key.t * float);
}.

(** [new PerlinNoise(seed)]. *)
Definition new (seed : float) : t := mk seed [] [].

Definition set_gradients (n : t) (g : list (Key.t * gradient)) : t :=
  mk n.(seed) g n.(memory).
Definition set_memory (n : t) (m : list (Key.t * float)) : t :=
  mk n.(seed) n.(gradients) m.

Definition smootherstep (t : float) : float :=
  t * t * t * (t * (t * 6 - 15) + 10).

Definition lerp (a b t : float) : float := a + t * (b - a).

Definition _fract (n : float) : float := n - floor n.

Section WithMath.
Variable Math : JSMath.lib.

Definition _random (seed x y : float) : float :=
  let dot := x * 12.9898 + y * 78.233 + seed in
  _fract (Math.(sin) dot * 43758.5453123).

Definition getRandomGradient (ix iy : float) : M t gradient :=
  let key := Key.make ix iy in
  this <- getThis ;;
  match Key.lookup key this.(gradients) with
  | Some g => ret g
  | None =>
      let angle := 2 * PI * _random this.(seed) ix iy in
      let g := mkGradient (Math.(cos) angle) (Math.(sin) angle) in
      _ <- putThis (set_gradients this ((key, g) :: this.(gradients))) ;;
      ret g
  end.

Definition dotGridGradient (ix iy x y : float) : M t float :=
  gradient <- getRandomGradient ix iy ;;
  let dx := x - ix in
  let dy := y - iy in
  ret (dx * gradient.(gx) + dy * gradient.(gy)).

(** The body of [get] past the cache test. *)
Definition get_miss (key : Key.t) (x y : float) : M t float :=
  let x0 := floor x in
  let y0 := floor y in
  let x1 := x0 + 1 in
  let y1 := y0 + 1 in
  let sx := smootherstep (x - x0) in
  let sy := smootherstep (y - y0) in
  n0 <- dotGridGradient x0 y0 x y ;;
  n1 <- dotGridGradient x1 y0 x y ;;
  let ix0 := lerp n0 n1 sx in
  n2 <- dotGridGradient x0 y1 x y ;;
  n3 <- dotGridGradient x1 y1 x y ;;
  let ix1 := lerp n2 n3 sx in
  let result := lerp ix0 ix1 sy * 0.5 + 0.5 in
  this <- getThis ;;
  _ <- putThis (set_memory this ((key, result) :: this.(memory))) ;;
  ret result.

(** [get(x, y)]: the cached value is used when it is truthy, so a stored [0]
    (or [NaN]) is computed again. *)
Definition get (x y : float) : M t float :=
  let key := Key.make x y in
  this <- getThis ;;
  match Key.lookup key this.(memory) with
  | Some v => if truthy v then ret v else get_miss key x y
  | None => get_miss key x y
  end.

(** *** The computation of [get] with both caches removed *)

Definition gradient_pure (seed ix iy : float) : gradient :=
  let angle := 2 * PI * _random seed ix iy in
  mkGradient (Math.(cos) angle) (Math.(sin) angle).

Definition dotGridGradient_pure (seed ix iy x y : float) : float :=
  let gradient := gradient_pure seed ix iy in
  let dx := x - ix in
  let dy := y - iy in
  dx * gradient.(gx) + dy * gradient.(gy).

Definition get_pure (seed x y : float) : float :=
  let x0 := floor x in
  let y0 := floor y in
  let x1 := x0 + 1 in
  let y1 := y0 + 1 in
  let sx := smootherstep (x - x0) in
  let sy := smootherstep (y - y0) in
  let n0 := dotGridGradient_pure seed x0 y0 x y in
  let n1 := dotGridGradient_pure seed x1 y0 x y in
  let ix0 := lerp n0 n1 sx in
  let n2 := dotGridGradient_pure seed x0 y1 x y in
  let n3 := dotGridGradient_pure seed x1 y1 x y in
  let ix1 := lerp n2 n3 sx in
  lerp ix0 ix1 sy * 0.5 + 0.5.

End WithMath.
End PerlinNoise.

(* ================================================================== *)
(** ** utils/PerturbationUtils.js: class PerturbationUtils *)

Module PerturbationUtils.
Open Scope float_scope.
Import JSMath.

Record t : Type := mk {
  noise : PerlinNoise.t;
  secondaryNoise : PerlinNoise.t;
  perturbationScale : float;
  noiseScale : float;
  elevationNoiseScale : float;
  elevationScale : float;
  elevationPerturbationScale : float;
  baseHeightCm : float;
  ridgeInfluence : float;
  valleyDepth : float;
}.

(** The constructor.  [seed] is [None] for [null]; [rnd1] and [rnd2] are the
    two numbers [Math.random()] would return. *)
Definition new (seed : option float) (rnd1 rnd2 : float)
    (perturbationScale noiseScale elevationNoiseScale elevationScale
       elevationPerturbationScale : float) : t :=
  mk (PerlinNoise.new (match seed with Some s => s | None => rnd1 * 10000 end))
     (PerlinNoise.new (match seed with Some s => s + 5432 | None => rnd2 * 10000 end))
     perturbationScale noiseScale elevationNoiseScale elevationScale
     elevationPerturbationScale
     5 0.4 0.6.

(** [new PerturbationUtils()], every argument at its default. *)
Definition new_default (rnd1 rnd2 : float) : t :=
  new None rnd1 rnd2 0.5 0.1 0.025 12 3.0.

Definition set_noise (p : t) (n : PerlinNoise.t) : t :=
  mk n p.(secondaryNoise) p.(perturbationScale) p.(noiseScale)
     p.(elevationNoiseScale) p.(elevationScale) p.(elevationPerturbationScale)
     p.(baseHeightCm) p.(ridgeInfluence) p.(valleyDepth).

Definition set_secondaryNoise (p : t) (n : PerlinNoise.t) : t :=
  mk p.(noise) n p.(perturbationScale) p.(noiseScale)
     p.(elevationNoiseScale) p.(elevationScale) p.(elevationPerturbationScale)
     p.(baseHeightCm) p.(ridgeInfluence) p.(valleyDepth).

Definition getBiomeIndex (elevation biomeCount : float) : float :=
  floor (elevation * biomeCount).

Section WithMath.
Variable Math : JSMath.lib.

(** [this.noise.get(x, y)] and [this.secondaryNoise.get(x, y)]. *)
Definition noise_get (x y : float) : M t float :=
  zoom noise set_noise (PerlinNoise.get Math x y).
Definition secondaryNoise_get (x y : float) : M t float :=
  zoom secondaryNoise set_secondaryNoise (PerlinNoise.get Math x y).

Definition perturbXZ (x z : float) : M t (float * float) :=
  this <- getThis ;;
  primaryNoiseX <- noise_get (x * this.(noiseScale)) (z * this.(noiseScale)) ;;
  primaryNoiseZ <- noise_get (x * this.(noiseScale) + 200) (z * this.(noiseScale) + 200) ;;
  secondaryNoiseX <- secondaryNoise_get (x * this.(noiseScale) * 1.7 + 300) (z * this.(noiseScale) * 1.7) ;;
  secondaryNoiseZ <- secondaryNoise_get (x * this.(noiseScale) * 1.7) (z * this.(noiseScale) * 1.7 + 300) ;;
  d1 <- noise_get (x * this.(noiseScale) * 4 + 700) (z * this.(noiseScale) * 4) ;;
  let detailNoiseX := d1 * 0.2 in
  d2 <- noise_get (x * this.(noiseScale) * 4) (z * this.(noiseScale) * 4 + 700) ;;
  let detailNoiseZ := d2 * 0.2 in
  let combinedNoiseX := primaryNoiseX * 0.6 + secondaryNoiseX * 0.3 + detailNoiseX in
  let combinedNoiseZ := primaryNoiseZ * 0.6 + secondaryNoiseZ * 0.3 + detailNoiseZ in
  let flowX := primaryNoiseZ * 0.15 in
  let flowZ := primaryNoiseX * 0.15 in
  let finalNoiseX := combinedNoiseX * 0.85 + flowX in
  let finalNoiseZ := combinedNoiseZ * 0.85 + flowZ in
  let perturbX := (finalNoiseX * 2 - 1) * this.(perturbationScale) * (1 + secondaryNoiseX * 0.5) in
  let perturbZ := (finalNoiseZ * 2 - 1) * this.(perturbationScale) * (1 + secondaryNoiseZ * 0.5) in
  ret (x + perturbX, z + perturbZ).

Definition perturbY (x y z : float) : M t float :=
  this <- getThis ;;
  primaryNoise <- noise_get (x * this.(elevationNoiseScale) + 300) (z * this.(elevationNoiseScale) + 300) ;;
  secondaryNoise <- secondaryNoise_get (x * this.(elevationNoiseScale) * 1.7 + 500) (z * this.(elevationNoiseScale) * 1.7 + 500) ;;
  let ridgeNoise := abs (primaryNoise * 2 - 1) * this.(ridgeInfluence) in
  let valleyNoise := (1 - abs (secondaryNoise * 2 - 1)) * this.(valleyDepth) in
  let combinedNoise := primaryNoise * 0.6 + ridgeNoise * 0.3 - valleyNoise * 0.3 + secondaryNoise * 0.4 in
  detail <- noise_get (x * this.(elevationNoiseScale) * 5 + 700) (z * this.(elevationNoiseScale) * 5 + 700) ;;
  let combinedNoise := combinedNoise + detail * 0.2 in
  let perturbation := (combinedNoise * 2 - 1) * this.(elevationPerturbationScale) in
  let py := round ((y + perturbation) * 100) / 100 in
  ret py.

Definition getElevation (x z : float) : M t float :=
  this <- getThis ;;
  primaryNoise <- noise_get (x * this.(elevationNoiseScale)) (z * this.(elevationNoiseScale)) ;;
  secondaryNoise <- secondaryNoise_get (x * this.(elevationNoiseScale) * 1.3) (z * this.(elevationNoiseScale) * 1.3) ;;
  let elevation := primaryNoise in
  o2 <- noise_get (x * this.(elevationNoiseScale) * 2) (z * this.(elevationNoiseScale) * 2) ;;
  let elevation := elevation + 0.5 * o2 in
  o4 <- noise_get (x * this.(elevationNoiseScale) * 4) (z * this.(elevationNoiseScale) * 4) ;;
  let elevation := elevation + 0.25 * o4 in
  o8 <- noise_get (x * this.(elevationNoiseScale) * 8) (z * this.(elevationNoiseScale) * 8) ;;
  let elevation := elevation + 0.125 * o8 in
  let secondaryElevation := secondaryNoise in
  s2 <- secondaryNoise_get (x * this.(elevationNoiseScale) * 2.5) (z * this.(elevationNoiseScale) * 2.5) ;;
  let secondaryElevation := secondaryElevation + 0.4 * s2 in
  s5 <- secondaryNoise_get (x * this.(elevationNoiseScale) * 5) (z * this.(elevationNoiseScale) * 5) ;;
  let secondaryElevation := secondaryElevation + 0.2 * s5 in
  let ridgeNoise := Math.(pow) (abs (primaryNoise * 2 - 1)) 1.5 * this.(ridgeInfluence) in
  let valleyNoise := Math.(pow) (1 - abs (secondaryNoise * 2 - 1)) 2 * this.(valleyDepth) in
  let elevation := (elevation / 1.875) * 0.65 in
  let secondaryElevation := (secondaryElevation / 1.6) * 0.35 in
  let finalElevation := elevation + secondaryElevation + ridgeNoise - valleyNoise in
  let finalElevation := finalElevation * this.(elevationScale) in
  let finalElevation := finalElevation + this.(baseHeightCm) / 25 in
  ret (round (finalElevation * 100) / 100).

End WithMath.
End PerturbationUtils.

(* ================================================================== *)
(** ** The direction tables shared by the mesh builders *)

Module Directions.

Definition directions : list string :=
  ["N"; "NE"; "SE"; "S"; "SW"; "NW"]%string.

Definition edgeVertexMap : list (string * (nat * nat)) :=
  [("N", (4, 5)); ("NE", (5, 0)); ("SE", (0, 1));
   ("S", (1, 2)); ("SW", (2, 3)); ("NW", (3, 4))]%string.

Definition oppositeDirection : list (string * string) :=
  [("N", "S"); ("NE", "SW"); ("SE", "NW");
   ("S", "N"); ("SW", "NE"); ("NW", "SE")]%string.

Definition clockwiseDirection : list (string * string) :=
  [("N", "NE"); ("NE", "SE"); ("SE", "S");
   ("S", "SW"); ("SW", "NW"); ("NW", "N")]%string.

Definition skirtDirections : list string := ["SE"; "S"; "SW"]%string.

(** The [switch] of both [getNeighborCoords] methods: the table result for a
    direction, [None] in the [default] case. *)
Definition step (coords : Z * Z) (direction : string) : option (Z * Z) :=
  let '(col, row) := coords in
  let isOddColumn := (Z.rem col 2 =? 1)%Z in
  if String.eqb direction "N" then Some (col, row - 1)%Z
  else if String.eqb direction "NE" then
    Some (col + 1, if isOddColumn then row else row - 1)%Z
  else if String.eqb direction "SE" then
    Some (col + 1, if isOddColumn then row + 1 else row)%Z
  else if String.eqb direction "S" then Some (col, row + 1)%Z
  else if String.eqb direction "SW" then
    Some (col - 1, if isOddColumn then row + 1 else row)%Z
  else if String.eqb direction "NW" then
    Some (col - 1, if isOddColumn then row else row - 1)%Z
  else None.

End Directions.

(* ================================================================== *)
(** ** utils/HexUtils.js: class HexUtils *)

Definition vec3 : Type := (float * float * float)%type.

Module HexUtils.
Open Scope float_scope.
Import JSMath Directions.

Record t : Type := mk {
  perturbUtils : PerturbationUtils.t;
  gridSize : Z;
  hexSize : float;
  hexGap : float;
  effectiveSize : float;
  width : float;
  height : float;
  horizDistance : float;
  vertDistance : float;
}.

(** The objects [getNeighbor] returns, and the ones the grid pass of the mesh
    generator builds. *)
Record hex : Type := mkHex {
  gridCoords : Z * Z;
  center : vec3;
  vertices : list vec3;
  elevation : float;
  biomeIndex : float;
  featureIndex : float;
}.

(** The constructor; [rnd1] and [rnd2] are the random numbers drawn by
    [new PerturbationUtils()]. *)
Definition new (gridSize : Z) (hexSize hexGap : float) (rnd1 rnd2 : float) : t :=
  let effectiveSize := hexSize - hexGap in
  let width := effectiveSize * 2 in
  let height := PrimFloat.sqrt 3 * effectiveSize in
  mk (PerturbationUtils.new_default rnd1 rnd2) gridSize hexSize hexGap
     effectiveSize width height (width * 3 / 4) height.

Definition set_perturbUtils (u : t) (p : PerturbationUtils.t) : t :=
  mk p u.(gridSize) u.(hexSize) u.(hexGap) u.(effectiveSize) u.(width)
     u.(height) u.(horizDistance) u.(vertDistance).

(** [getNeighborCoords]: the table result, whatever the grid size. *)
Definition getNeighborCoords (coords : Z * Z) (direction : string) : option (Z * Z) :=
  step coords direction.

Definition angles : list float := [0; 60; 120; 180; 240; 300].

Section WithMath.
Variable Math : JSMath.lib.

Definition getHexVertex (centerX centerZ : float) (i : nat) : M t vec3 :=
  this <- getThis ;;
  let angle := (PI / 180) * nth i angles nan in
  let x := centerX + this.(effectiveSize) * Math.(cos) angle in
  let z := centerZ + this.(effectiveSize) * Math.(sin) angle in
  '(px, pz) <- zoom perturbUtils set_perturbUtils (PerturbationUtils.perturbXZ Math x z) ;;
  py <- zoom perturbUtils set_perturbUtils (PerturbationUtils.getElevation Math centerX centerZ) ;;
  perturbedElevation <-
    zoom perturbUtils set_perturbUtils (PerturbationUtils.perturbY Math centerX py centerZ) ;;
  ret (px, perturbedElevation, pz).

Definition generateHexVertices (centerX centerZ : float) : M t (list vec3) :=
  mapM (getHexVertex centerX centerZ) (seq 0 6).

Definition getNeighbor (h : hex) (direction : string) : M t hex :=
  match getNeighborCoords h.(gridCoords) direction with
  | None => throw TypeError
  | Some (neighborCol, neighborRow) =>
      this <- getThis ;;
      let colSpacing := this.(width) * 3 / 4 + this.(hexGap) in
      let rowSpacing := this.(height) + this.(hexGap) in
      let neighborCenterX := of_Z neighborCol * colSpacing in
      let neighborCenterZ :=
        of_Z neighborRow * rowSpacing + (rem neighborCol 2 * (rowSpacing / 2)) in
      elevation <-
        zoom perturbUtils set_perturbUtils
          (PerturbationUtils.getElevation Math neighborCenterX neighborCenterZ) ;;
      perturbedElevation <-
        zoom perturbUtils set_perturbUtils
          (PerturbationUtils.perturbY Math neighborCenterX elevation neighborCenterZ) ;;
      vertices <- generateHexVertices neighborCenterX neighborCenterZ ;;
      ret (mkHex (neighborCol, neighborRow)
                 (neighborCenterX, perturbedElevation, neighborCenterZ)
                 vertices perturbedElevation (floor (elevation * 4)) 0)
  end.

End WithMath.
End HexUtils.

(* ================================================================== *)
(** ** Geometry buffers and meshes *)

(** The four arrays a geometry is built from: [positions] and [normals] hold
    three numbers a vertex, [uvs] two, [indices] three a triangle. *)
Record buffers : Type := mkBuffers {
  positions : list float;
  indices : list nat;
  normals : list float;
  uvs : list float;
}.

(** What is kept of a [THREE.Mesh]: the four arrays [createHexGeometry]
    returned, as [createHexMesh] hands them to the attributes of the geometry,
    the index of its material's colour in [biomeColors], and its [userData].
    The attributes of positions, normals and uvs are [Float32BufferAttribute]s,
    which keep every number of their array converted to single precision
    ([ShapeSpec.stored] below); the indices and the [userData] are kept as
    they are. *)
Record mesh : Type := mkMesh {
  geometry : buffers;
  colorIndex : float;
  userCoords : Z * Z;
  userElevation : float;
  userBiomeIndex : float;
  userFeatureIndex : float;
}.

Definition push3 (l : list float) (v : vec3) : list float :=
  let '(x, y, z) := v in l ++ [x; y; z].

(** The vertex with index [j] of a position array. *)
Definition vertexAt (ps : list float) (j : nat) : option vec3 :=
  match nth_error ps (3 * j), nth_error ps (3 * j + 1), nth_error ps (3 * j + 2) with
  | Some x, Some y, Some z => Some (x, y, z)
  | _, _, _ => None
  end.

(** The triangle with index [j] of an index array. *)
Definition triangleAt (ixs : list nat) (j : nat) : option (nat * nat * nat) :=
  match nth_error ixs (3 * j), nth_error ixs (3 * j + 1), nth_error ixs (3 * j + 2) with
  | Some a, Some b, Some c => Some (a, b, c)
  | _, _, _ => None
  end.

Definition triangleCount (b : buffers) : nat := Nat.div (List.length b.(indices)) 3.

Definition top_normal : list float := [0; 1; 0]%float.
Definition side_normal : list float := [0; 0; -1]%float.
Definition center_uv : list float := [0.5; 0.5]%float.

(** Three vertices pushed at the end of a geometry, indexed in the given
    order relative to the first of them, all with one normal and the centre
    UV. *)
Definition pushTriangle (b : buffers) (p q r : vec3) (order : list nat)
    (normal : list float) : buffers :=
  let base := Nat.div (List.length b.(positions)) 3 in
  mkBuffers (push3 (push3 (push3 b.(positions) p) q) r)
            (b.(indices) ++ map (fun k => base + k) order)
            (b.(normals) ++ normal ++ normal ++ normal)
            (b.(uvs) ++ center_uv ++ center_uv ++ center_uv).

(** [0, 1, ..., n-1] as grid coordinates: the values a [for] loop from [0]
    while below [n] goes through. *)
Definition range (n : Z) : list Z := map Z.of_nat (seq 0 (Z.to_nat n)).

(** The cells of a grid in the order the nested loops visit them, rows
    outside. *)
Definition cells (gridSize : Z) : list (Z * Z) :=
  flat_map (fun row => map (fun col => (col, row)) (range gridSize)) (range gridSize).

Fixpoint foldM {S A B} (f : B -> A -> M S B) (l : list A) (b : B) : M S B :=
  match l with
  | [] => ret b
  | a :: l' => b' <- f b a ;; foldM f l' b'
  end.

(* ================================================================== *)
(** ** The mesh-building class HexGenerator

    The repository holds two classes named [HexGenerator].  This one is the
    later: it owns a [HexUtils] and a [PerturbationUtils] and builds one mesh a
    cell in [renderGrid]; the application constructs it and calls
    [renderGrid].  The earlier one, of hex/hexGenerator.js, is the module
    [HexGenerator] below. *)

Module HexMeshGenerator.
Open Scope float_scope.
Import JSMath Directions.

Record t : Type := mk {
  hexUtils : HexUtils.t;
  perturbUtils : PerturbationUtils.t;
  gridSize : Z;
  hexSize : float;
  hexGap : float;
  effectiveSize : float;
  width : float;
  height : float;
}.

(** The constructor.  [rnd1], [rnd2] are the random numbers drawn for the
    noise fields of [hexUtils], [rnd3], [rnd4] those drawn for the fields of
    the generator's own [perturbUtils]. *)
Definition new (gridSize : Z) (hexSize hexGap : float) (rnd1 rnd2 rnd3 rnd4 : float) : t :=
  let hexUtils := HexUtils.new gridSize hexSize hexGap rnd1 rnd2 in
  mk hexUtils (PerturbationUtils.new_default rnd3 rnd4) gridSize hexSize hexGap
     hexUtils.(HexUtils.effectiveSize) hexUtils.(HexUtils.width)
     hexUtils.(HexUtils.height).

Definition set_hexUtils (g : t) (u : HexUtils.t) : t :=
  mk u g.(perturbUtils) g.(gridSize) g.(hexSize) g.(hexGap) g.(effectiveSize)
     g.(width) g.(height).

Definition set_perturbUtils (g : t) (p : PerturbationUtils.t) : t :=
  mk g.(hexUtils) p g.(gridSize) g.(hexSize) g.(hexGap) g.(effectiveSize)
     g.(width) g.(height).

Definition biomeColors : list Z :=
  [0x8BC34A; 0x4CAF50; 0x795548; 0xFFEB3B]%Z.

Section WithMath.
Variable Math : JSMath.lib.

(** One round of the loop over [vertices]: the rim vertex [i] and the
    triangle of the fan that starts at it. *)
Definition capStep (n : nat) (b : buffers) (iv : nat * vec3) : buffers :=
  let '(i, vertex) := iv in
  let angle := (PI / 3) * of_Z (Z.of_nat i) in
  let u := 0.5 + 0.5 * Math.(cos) angle in
  let v := 0.5 + 0.5 * Math.(sin) angle in
  mkBuffers (push3 b.(positions) vertex)
            (b.(indices) ++
               (if Nat.ltb i (n - 1) then [0; i + 2; i + 1] else [0; 1; i + 1])%nat)
            (b.(normals) ++ top_normal)
            (b.(uvs) ++ [u; v]).

(** The centre vertex and the fan. *)
Definition cap (centerX centerY centerZ : float) (vertices : list vec3) : buffers :=
  fold_left (capStep (List.length vertices))
            (combine (seq 0 (List.length vertices)) vertices)
            (mkBuffers [centerX; centerY; centerZ] [] top_normal center_uv).

(** One round of the loop over [skirtDirections]. *)
Definition skirtStep (h : HexUtils.hex) (b : buffers) (direction : string) : M t buffers :=
  let vertices := h.(HexUtils.vertices) in
  neighborHex <- zoom hexUtils set_hexUtils (HexUtils.getNeighbor Math h direction) ;;
  let neighborVertices := neighborHex.(HexUtils.vertices) in
  neighborDirection <- propM direction oppositeDirection ;;
  '(v1Index, v2Index) <- propM direction edgeVertexMap ;;
  v1 <- index vertices v1Index ;;
  v2 <- index vertices v2Index ;;
  '(nv1Index, nv2Index) <- propM neighborDirection edgeVertexMap ;;
  nv1 <- index neighborVertices nv1Index ;;
  nv2 <- index neighborVertices nv2Index ;;
  let b := pushTriangle b v1 v2 nv1 [0; 1; 2]%nat side_normal in
  let b := pushTriangle b v1 nv1 nv2 [0; 1; 2]%nat side_normal in
  cwDirection <- propM direction clockwiseDirection ;;
  cwNeighborHex <- zoom hexUtils set_hexUtils (HexUtils.getNeighbor Math h cwDirection) ;;
  let cwNeighborVertices := cwNeighborHex.(HexUtils.vertices) in
  cwNeighborDirection <- propM cwDirection oppositeDirection ;;
  '(cwv1Index, cwv2Index) <- propM cwNeighborDirection edgeVertexMap ;;
  cwv2 <- index cwNeighborVertices cwv2Index ;;
  ret (pushTriangle b v2 nv1 cwv2 [0; 2; 1]%nat top_normal).

Definition createHexGeometry (h : HexUtils.hex) : M t buffers :=
  let vertices := h.(HexUtils.vertices) in
  let '(centerX, centerY, centerZ) := h.(HexUtils.center) in
  v0 <- index vertices 0 ;;
  let b := cap centerX (snd (fst v0)) centerZ vertices in
  foldM (skirtStep h) skirtDirections b.

Definition createHexMesh (h : HexUtils.hex) : M t mesh :=
  b <- createHexGeometry h ;;
  let colorIndex :=
    if h.(HexUtils.biomeIndex) <? of_Z (Z.of_nat (List.length biomeColors))
    then h.(HexUtils.biomeIndex) else 0 in
  ret (mkMesh b colorIndex h.(HexUtils.gridCoords) h.(HexUtils.elevation)
              h.(HexUtils.biomeIndex) h.(HexUtils.featureIndex)).

(** The body of the two nested loops of [renderGrid]. *)
Definition renderCell (cell : Z * Z) : M t mesh :=
  let '(col, row) := cell in
  this <- getThis ;;
  let hexWidth := 2 * this.(effectiveSize) in
  let hexHeight := PrimFloat.sqrt 3 * this.(effectiveSize) in
  let colSpacing := hexWidth * 3 / 4 + this.(hexGap) in
  let rowSpacing := hexHeight + this.(hexGap) in
  let centerX := of_Z col * colSpacing in
  let centerZ := of_Z row * rowSpacing + (rem col 2 * (rowSpacing / 2)) in
  elevation <-
    zoom perturbUtils set_perturbUtils (PerturbationUtils.getElevation Math centerX centerZ) ;;
  perturbedElevation <-
    zoom perturbUtils set_perturbUtils
      (PerturbationUtils.perturbY Math centerX elevation centerZ) ;;
  vertices <-
    zoom hexUtils set_hexUtils (HexUtils.generateHexVertices Math centerX centerZ) ;;
  let biomeIndex :=
    PerturbationUtils.getBiomeIndex perturbedElevation
      (of_Z (Z.of_nat (List.length biomeColors))) in
  let featureIndex := 0 in
  let h := HexUtils.mkHex (col, row) (centerX, perturbedElevation, centerZ)
                          vertices perturbedElevation biomeIndex featureIndex in
  createHexMesh h.

(** [renderGrid]: the meshes added to the group, in the order of the loops. *)
Definition renderGrid : M t (list mesh) :=
  this <- getThis ;;
  mapM renderCell (cells this.(gridSize)).

End WithMath.
End HexMeshGenerator.

(* ================================================================== *)
(** ** hex/hexGenerator.js: class HexGenerator *)

Module HexGenerator.
Open Scope float_scope.
Import JSMath Directions.

Record t : Type := mk {
  gridSize : Z;
  hexSize : float;
  hexGap : float;
  effectiveSize : float;
  width : float;
  height : float;
  horizDistance : float;
  vertDistance : float;
  noise : PerlinNoise.t;
  perturbationScale : float;
  noiseScale : float;
}.

(** The hex data objects of [generateGrid]. *)
Record hex : Type := mkHex {
  position : vec3;
  vertices : list vec3;
  elevation : float;
  gridCoords : Z * Z;
  biomeIndex : float;
  featureIndex : float;
}.

(** An entry of the elevation data. *)
Record entry : Type := mkEntry {
  heightOffset : float;
  entryBiomeIndex : float;
  entryFeatureIndex : float;
}.

(** The constructor; [rnd] is the number [Math.random()] returns. *)
Definition new (gridSize : Z) (hexSize hexGap : float) (rnd : float) : t :=
  let effectiveSize := hexSize - hexGap in
  let width := effectiveSize * 2 in
  let height := PrimFloat.sqrt 3 * effectiveSize in
  mk gridSize hexSize hexGap effectiveSize width height (width * 3 / 4) height
     (PerlinNoise.new (rnd * 10000)) 0.25 0.2.

(** [new HexGenerator()]. *)
Definition new_default (rnd : float) : t := new 16 1 0.1 rnd.

Definition set_noise (g : t) (n : PerlinNoise.t) : t :=
  mk g.(gridSize) g.(hexSize) g.(hexGap) g.(effectiveSize) g.(width) g.(height)
     g.(horizDistance) g.(vertDistance) n g.(perturbationScale) g.(noiseScale).

(** [getNeighborCoords]: the table result, or [null] when it is out of
    bounds. *)
Definition getNeighborCoords (this : t) (coords : Z * Z) (direction : string)
    : option (Z * Z) :=
  match step coords direction with
  | None => None
  | Some (newCol, newRow) =>
      if ((newCol <? 0) || (newCol >=? this.(gridSize))
          || (newRow <? 0) || (newRow >=? this.(gridSize)))%Z
      then None
      else Some (newCol, newRow)
  end.

(** [getNeighbor]: [None] stands for both [null] and [undefined]. *)
Definition getNeighbor (this : t) (h : hex) (direction : string) (hexGrid : list hex)
    : option hex :=
  match getNeighborCoords this h.(gridCoords) direction with
  | None => None
  | Some (c, r) =>
      find (fun h' => (fst h'.(gridCoords) =? c)%Z && (snd h'.(gridCoords) =? r)%Z)
           hexGrid
  end.

(** [getAllNeighbors]: the object with one property a direction, in the order
    the properties are set. *)
Definition getAllNeighbors (this : t) (h : hex) (hexGrid : list hex)
    : list (string * option hex) :=
  map (fun dir => (dir, getNeighbor this h dir hexGrid)) directions.

(** [parseElevationData]: [jsonData] is [None] for a falsy argument, and
    [Some None] for an object whose [hexes] is falsy. *)
Definition parseElevationData (jsonData : option (option (list entry))) : list entry :=
  match jsonData with
  | Some (Some hexes) => hexes
  | _ => []
  end.

Definition angles : list float := [0; 60; 120; 180; 240; 300].

Section WithMath.
Variable Math : JSMath.lib.

Definition noise_get (x y : float) : M t float :=
  zoom noise set_noise (PerlinNoise.get Math x y).

Definition getPerturbation (x z : float) : M t vec3 :=
  this <- getThis ;;
  noiseX <- noise_get (x * this.(noiseScale)) (z * this.(noiseScale)) ;;
  noiseY <- noise_get (x * this.(noiseScale) + 100) (z * this.(noiseScale) + 100) ;;
  noiseZ <- noise_get (x * this.(noiseScale) + 200) (z * this.(noiseScale) + 200) ;;
  let maxOffset := this.(effectiveSize) * this.(perturbationScale) in
  ret ((noiseX * 2 - 1) * maxOffset,
       (noiseY * 2 - 1) * maxOffset * 0.3,
       (noiseZ * 2 - 1) * maxOffset).

Definition generateHexVertices (centerX centerY elevation : float) : M t (list vec3) :=
  this <- getThis ;;
  '(cnx, _, cnz) <- getPerturbation centerX centerY ;;
  let perturbedCenterX := centerX + cnx in
  let perturbedCenterY := centerY + cnz in
  offset <- noise_get (centerX * this.(noiseScale) * 0.5) (centerY * this.(noiseScale) * 0.5) ;;
  let centerElevationOffset := offset * 0.2 in
  let perturbedElevation := elevation + centerElevationOffset in
  mapM (fun a =>
          let angle := (PI / 180) * a in
          let baseX := perturbedCenterX + this.(effectiveSize) * Math.(cos) angle in
          let baseZ := perturbedCenterY + this.(effectiveSize) * Math.(sin) angle in
          '(px, py, pz) <- getPerturbation baseX baseZ ;;
          ret (baseX + px, perturbedElevation + py, baseZ + pz))
       angles.

(** The body of the two nested loops of [generateGrid]. *)
Definition generateCell (elevationData : list entry) (cell : Z * Z) : M t hex :=
  let '(col, row) := cell in
  this <- getThis ;;
  let hexWidth := 2 * this.(effectiveSize) in
  let hexHeight := PrimFloat.sqrt 3 * this.(effectiveSize) in
  let colSpacing := hexWidth * 3 / 4 + this.(hexGap) in
  let rowSpacing := hexHeight + this.(hexGap) in
  let index := Z.to_nat (row * this.(gridSize) + col) in
  let data := nth_error elevationData index in
  let elevation := match data with Some e => e.(heightOffset) | None => 0 end in
  let centerX := of_Z col * colSpacing in
  let centerY := of_Z row * rowSpacing + (rem col 2 * (rowSpacing / 2)) in
  vertices <- generateHexVertices centerX centerY elevation ;;
  let biomeIndex := match data with Some e => e.(entryBiomeIndex) | None => 0 end in
  let featureIndex := match data with Some e => e.(entryFeatureIndex) | None => 0 end in
  ret (mkHex (centerX, elevation, centerY) vertices elevation (col, row)
             biomeIndex featureIndex).

(** [generateGrid]; an absent [elevationData] is the empty list. *)
Definition generateGrid (elevationData : list entry) : M t (list hex) :=
  this <- getThis ;;
  mapM (generateCell elevationData) (cells this.(gridSize)).

End WithMath.
End HexGenerator.

(* ================================================================== *)
(** ** class HexRenderer

    The renderer builds the geometry of a hex from a materialised grid of
    [HexGenerator.hex] objects.  Neighbours are looked up in the grid through
    a [HexGenerator] it constructs without arguments. *)

Module HexRenderer.
Open Scope float_scope.
Import JSMath Directions.

Record t : Type := mk {
  meshes : list mesh;
}.

Definition biomeColors : list Z :=
  [0x8BC34A; 0x4CAF50; 0x795548; 0xFFEB3B]%Z.

(** The text of a grid coordinate in a template string. *)
Definition show (z : Z) : string := NilZero.string_of_int (Z.to_int z).

(** [`${c[0]},${c[1]}`]. *)
Definition hexId (c : Z * Z) : string :=
  (show (fst c) ++ "," ++ show (snd c))%string.

(** [Array.prototype.sort] without a comparator, on strings: ascending in
    the order of their code units. *)
Fixpoint insert (s : string) (l : list string) : list string :=
  match l with
  | [] => [s]
  | s' :: l' => if String.leb s s' then s :: l else s' :: insert s l'
  end.

Definition sort (l : list string) : list string := fold_right insert [] l.

Definition cornerTriangleId (a b c : Z * Z) : string :=
  match sort [hexId a; hexId b; hexId c] with
  | [i0; i1; i2] => (i0 ++ "-" ++ i1 ++ "-" ++ i2)%string
  | _ => ""%string
  end.

(** [set.has(id)] on the set of processed connections. *)
Definition has (set : list string) (id : string) : bool :=
  existsb (String.eqb id) set.

Section WithMath.
Variable Math : JSMath.lib.

Definition capStep (n : nat) (b : buffers) (iv : nat * vec3) : buffers :=
  let '(i, vertex) := iv in
  let angle := (PI / 3) * of_Z (Z.of_nat i) in
  let u := 0.5 + 0.5 * Math.(cos) angle in
  let v := 0.5 + 0.5 * Math.(sin) angle in
  mkBuffers (push3 b.(positions) vertex)
            (b.(indices) ++
               (if Nat.ltb i (n - 1) then [0; i + 1; i + 2] else [0; i + 1; 1])%nat)
            (b.(normals) ++ top_normal)
            (b.(uvs) ++ [u; v]).

Definition cap (centerX centerY centerZ : float) (vertices : list vec3) : buffers :=
  fold_left (capStep (List.length vertices))
            (combine (seq 0 (List.length vertices)) vertices)
            (mkBuffers [centerX; centerY; centerZ] [] top_normal center_uv).

(** One round of the loop over [skirtDirections]; the state of the loop is
    the geometry and the set of processed connections.  [hexGenerator] is the
    generator constructed at the head of [createHexGeometry]. *)
Definition skirtStep {S} (hexGenerator : HexGenerator.t) (h : HexGenerator.hex)
    (hexGrid : list HexGenerator.hex) (st : buffers * list string) (direction : string)
    : M S (buffers * list string) :=
  let '(b, processedConnections) := st in
  let vertices := h.(HexGenerator.vertices) in
  let gridCoords := h.(HexGenerator.gridCoords) in
  match find (fun h' => (fst h'.(HexGenerator.gridCoords) =? fst gridCoords)%Z
                        && (snd h'.(HexGenerator.gridCoords) =? snd gridCoords)%Z)
             hexGrid with
  | None => throw TypeError
  | Some thisHex =>
      match HexGenerator.getNeighbor hexGenerator thisHex direction hexGrid with
      | None => ret st
      | Some neighbor =>
          let neighborVertices := neighbor.(HexGenerator.vertices) in
          neighborDirection <- propM direction oppositeDirection ;;
          '(v1Index, v2Index) <- propM direction edgeVertexMap ;;
          v1 <- index vertices v1Index ;;
          v2 <- index vertices v2Index ;;
          '(nv1Index, nv2Index) <- propM neighborDirection edgeVertexMap ;;
          nv1 <- index neighborVertices nv1Index ;;
          nv2 <- index neighborVertices nv2Index ;;
          let b := pushTriangle b v1 v2 nv1 [0; 1; 2]%nat side_normal in
          let b := pushTriangle b v1 nv1 nv2 [0; 1; 2]%nat side_normal in
          cwDirection <- propM direction clockwiseDirection ;;
          match HexGenerator.getNeighbor hexGenerator thisHex cwDirection hexGrid with
          | None => ret (b, processedConnections)
          | Some cwNeighbor =>
              let id := cornerTriangleId gridCoords neighbor.(HexGenerator.gridCoords)
                                         cwNeighbor.(HexGenerator.gridCoords) in
              if has processedConnections id then ret (b, processedConnections)
              else
                let processedConnections := id :: processedConnections in
                cwNeighborDirection <- propM cwDirection oppositeDirection ;;
                '(cwv1Index, cwv2Index) <- propM cwNeighborDirection edgeVertexMap ;;
                cwv2 <- index cwNeighbor.(HexGenerator.vertices) cwv2Index ;;
                ret (pushTriangle b v2 nv1 cwv2 [0; 1; 2]%nat top_normal,
                     processedConnections)
          end
      end
  end.

(** [createHexGeometry(hex, hexGrid)]; [rnd] is the random number drawn by
    the [new HexGenerator()] in its body.  The set of processed connections
    is created here, once a call. *)
Definition createHexGeometry {S} (rnd : float) (h : HexGenerator.hex)
    (hexGrid : list HexGenerator.hex) : M S buffers :=
  let vertices := h.(HexGenerator.vertices) in
  let hexGenerator := HexGenerator.new_default rnd in
  let n := of_Z (Z.of_nat (List.length vertices)) in
  let centerX := fold_left (fun sum v => sum + fst (fst v)) vertices 0 / n in
  v0 <- index vertices 0 ;;
  let centerY := snd (fst v0) in
  let centerZ := fold_left (fun sum v => sum + snd v) vertices 0 / n in
  let b := cap centerX centerY centerZ vertices in
  let processedConnections := [] in
  '(b, _) <- foldM (skirtStep hexGenerator h hexGrid) skirtDirections
                   (b, processedConnections) ;;
  ret b.

Definition createHexMesh {S} (rnd : float) (h : HexGenerator.hex)
    (hexGrid : list HexGenerator.hex) (material : float) : M S mesh :=
  b <- createHexGeometry rnd h hexGrid ;;
  ret (mkMesh b material h.(HexGenerator.gridCoords) h.(HexGenerator.elevation)
              h.(HexGenerator.biomeIndex) h.(HexGenerator.featureIndex)).

(** [createBiomeMaterial] with [useDebugColors] off, as the constructor
    leaves it: the index of the material's colour. *)
Definition createBiomeMaterial (biomeIndex : float) : float :=
  if biomeIndex <? of_Z (Z.of_nat (List.length biomeColors)) then biomeIndex else 0.

(** [renderGrid(hexGrid)]: one mesh a hex, each pushed on [this.meshes]; the
    result is the group's children.  [rnd] is the random number drawn in
    [createHexGeometry]; the geometry does not depend on it. *)
Definition renderGrid (rnd : float) (hexGrid : list HexGenerator.hex) : M t (list mesh) :=
  mapM (fun h =>
          let material := createBiomeMaterial h.(HexGenerator.biomeIndex) in
          m <- createHexMesh rnd h hexGrid material ;;
          this <- getThis ;;
          _ <- putThis (mk (this.(meshes) ++ [m])) ;;
          ret m)
       hexGrid.

End WithMath.

(** [clear]: the list of meshes is emptied. *)
Definition clear : M t unit := putThis (mk []).

End HexRenderer.

(* ================================================================== *)
(** ** hex/TextureManager.js: class TextureManager

    The methods that compute: which texture a biome gets, and at which place
    of the texture atlas it is put.  Loading the images is left out. *)

Module TextureManager.
Open Scope float_scope.

(** An element of [biomeIndices]: a number, or the string ['default']. *)
Inductive biome : Type :=
| Index (n : float)
| Default.

(** Two elements that name the same property of an object: a number is
    turned into its text, and no number prints as [default]. *)
Definition sameKey (a b : biome) : bool :=
  match a, b with
  | Index x, Index y => Leibniz.eqb (Key.canon x) (Key.canon y)
  | Default, Default => true
  | _, _ => false
  end.

(** [obj[key]]; the property set last is the first of the list. *)
Fixpoint lookup {V} (key : biome) (obj : list (biome * V)) : option V :=
  match obj with
  | [] => None
  | (k, v) :: rest => if sameKey key k then Some v else lookup key rest
  end.

Definition biomeTextureMap : list (biome * string) :=
  [(Index 0, "/assets/textures/grass.png");
   (Index 1, "/assets/textures/rock.png");
   (Index 2, "/assets/textures/mud.png");
   (Index 3, "/assets/textures/snow.png");
   (Index 4, "/assets/textures/sand.png");
   (Default, "/assets/textures/blue.png")]%string.

(** [this.defaultTextureIndex] is [undefined] until
    [createBiomeToAtlasMap] sets it. *)
Record t : Type := mk {
  defaultTextureIndex : option nat;
}.

Definition new : t := mk None.

(** [getTexturePaths]; every path of the map is a non-empty string, so [||]
    takes its right operand exactly when the index is no key of the map. *)
Definition getTexturePaths (biomeIndices : list biome) : list (option string) :=
  map (fun index =>
         match lookup index biomeTextureMap with
         | Some path => Some path
         | None => lookup (Index 0) biomeTextureMap
         end)
      biomeIndices.

(** [biomeIndices.includes('default')]. *)
Definition includesDefault (biomeIndices : list biome) : bool :=
  existsb (fun b => match b with Default => true | Index _ => false end) biomeIndices.

(** [createBiomeToAtlasMap]: the argument array is extended in place, so the
    array is returned beside the map. *)
Definition createBiomeToAtlasMap (biomeIndices : list biome)
    : M t (list biome * list (biome * nat)) :=
  let biomeIndices :=
    if includesDefault biomeIndices then biomeIndices else biomeIndices ++ [Default] in
  let map :=
    fold_left (fun map bi => (fst bi, snd bi) :: map)
              (combine biomeIndices (seq 0 (List.length biomeIndices))) [] in
  _ <- putThis (mk (lookup Default map)) ;;
  ret (biomeIndices, map).

Definition getDefaultTextureIndex : M t nat :=
  this <- getThis ;;
  ret (match this.(defaultTextureIndex) with Some i => i | None => 0%nat end).

End TextureManager.

(* ================================================================== *)
(** ** A reference [Math]

    ECMAScript leaves the precision of [Math.sin], [Math.cos] and [Math.pow]
    to the implementation.  The theorems below hold for every [JSMath.lib];
    this one is used where a closed computation is wanted.  [sin] and [cos]
    reduce the argument by a multiple of 2 pi and sum the Taylor series to the
    29th power; [pow] covers the exponents the program uses. *)

Module RefMath.
Open Scope float_scope.
Import JSMath.

Definition reduce (x : float) : float := x - round (x / (2 * PI)) * (2 * PI).

Definition series (r2 : float) (denominators : list float) : float :=
  fold_right (fun d acc => 1 - r2 / d * acc) 1 denominators.

Definition sin (x : float) : float :=
  if is_nan x || is_infinity x then nan
  else if x =? 0 then x
  else
    let r := reduce x in
    r * series (r * r) [6; 20; 42; 72; 110; 156; 210; 272; 342; 420; 506; 600; 702; 812].

Definition cos (x : float) : float :=
  if is_nan x || is_infinity x then nan
  else
    let r := reduce x in
    series (r * r) [2; 12; 30; 56; 90; 132; 182; 240; 306; 380; 462; 552; 650; 756].

Definition pow (x y : float) : float :=
  if y =? 2 then x * x
  else if y =? 1.5 then x * PrimFloat.sqrt x
  else if y =? 1 then x
  else if y =? 0 then 1
  else nan.

Definition math : JSMath.lib := mkLib sin cos pow eq_refl eq_refl eq_refl eq_refl.

End RefMath.

(* ================================================================== *)
(** * Specifications *)

(** ** Methods that return a value independent of the caches *)

(** From the state [s], the method returns [a] and leaves a state in [I]. *)
Definition runs {S A} (I : S -> Prop) (m : M S A) (s : S) (a : A) : Prop :=
  exists s', m s = Returned (a, s') /\ I s'.

(** From every state in [I], the method returns [a] and stays in [I]. *)
Definition computes {S A} (I : S -> Prop) (m : M S A) (a : A) : Prop :=
  forall s, I s -> runs I m s a.

(** ** PerlinNoise *)

Module NoiseSpec.
Open Scope float_scope.
Import JSMath.

(** Two numbers that print to the same text. *)
Definition same_text (a b : float) : Prop := Key.canon a = Key.canon b.

Definition zeroish (a : float) : Prop := a = 0 \/ a = -0.

(** The caches of a noise field with seed [sd] hold nothing but what the
    cache-free computation gives at some point printing to the same key. *)
Definition inv (Math : JSMath.lib) (sd : float) (n : PerlinNoise.t) : Prop :=
  n.(PerlinNoise.seed) = sd
  /\ (forall ix iy g,
        Key.lookup (Key.make ix iy) n.(PerlinNoise.gradients) = Some g ->
        g = PerlinNoise.gradient_pure Math sd ix iy)
  /\ (forall x y v,
        Key.lookup (Key.make x y) n.(PerlinNoise.memory) = Some v ->
        v = PerlinNoise.get_pure Math sd x y).

(** A call of one of the methods that touch the caches. *)
Inductive call : Type :=
| Get (x y : float)
| GetRandomGradient (ix iy : float)
| DotGridGradient (ix iy x y : float).

Definition state_after {A} (o : outcome (A * PerlinNoise.t)) (n : PerlinNoise.t)
    : PerlinNoise.t :=
  match o with Returned (_, n') => n' | Thrown _ => n end.

Definition run_call (Math : JSMath.lib) (n : PerlinNoise.t) (c : call) : PerlinNoise.t :=
  match c with
  | Get x y => state_after (PerlinNoise.get Math x y n) n
  | GetRandomGradient ix iy => state_after (PerlinNoise.getRandomGradient Math ix iy n) n
  | DotGridGradient ix iy x y => state_after (PerlinNoise.dotGridGradient Math ix iy x y n) n
  end.

(** The noise field with seed [sd] after a history of calls. *)
Definition after (Math : JSMath.lib) (sd : float) (history : list call) : PerlinNoise.t :=
  fold_left (run_call Math) history (PerlinNoise.new sd).

(** [0 <= v <= 1]; false of [NaN]. *)
Definition in_unit_interval (v : float) : bool := (0 <=? v) && (v <=? 1).

(** [get] with the terms that depend on the point made arguments: the four
    offsets from the lattice and the four gradients. *)
Definition get_core (dx0 dx1 dy0 dy1 : float) (g00 g10 g01 g11 : PerlinNoise.gradient)
    : float :=
  let sx := PerlinNoise.smootherstep dx0 in
  let sy := PerlinNoise.smootherstep dy0 in
  let n0 := dx0 * g00.(PerlinNoise.gx) + dy0 * g00.(PerlinNoise.gy) in
  let n1 := dx1 * g10.(PerlinNoise.gx) + dy0 * g10.(PerlinNoise.gy) in
  let ix0 := PerlinNoise.lerp n0 n1 sx in
  let n2 := dx0 * g01.(PerlinNoise.gx) + dy1 * g01.(PerlinNoise.gy) in
  let n3 := dx1 * g11.(PerlinNoise.gx) + dy1 * g11.(PerlinNoise.gy) in
  let ix1 := PerlinNoise.lerp n2 n3 sx in
  PerlinNoise.lerp ix0 ix1 sy * 0.5 + 0.5.

End NoiseSpec.

(** ** PerturbationUtils *)

Module PerturbSpec.
Open Scope float_scope.
Import JSMath.

Section WithMath.
Variable Math : JSMath.lib.

(** The state [p] of a [PerturbationUtils] constructed as [p0]: the settings
    are those of [p0], and both noise fields are in a state their seed
    allows. *)
Definition inv (p0 p : PerturbationUtils.t) : Prop :=
  NoiseSpec.inv Math p0.(PerturbationUtils.noise).(PerlinNoise.seed) p.(PerturbationUtils.noise)
  /\ NoiseSpec.inv Math p0.(PerturbationUtils.secondaryNoise).(PerlinNoise.seed)
       p.(PerturbationUtils.secondaryNoise)
  /\ p.(PerturbationUtils.perturbationScale) = p0.(PerturbationUtils.perturbationScale)
  /\ p.(PerturbationUtils.noiseScale) = p0.(PerturbationUtils.noiseScale)
  /\ p.(PerturbationUtils.elevationNoiseScale) = p0.(PerturbationUtils.elevationNoiseScale)
  /\ p.(PerturbationUtils.elevationScale) = p0.(PerturbationUtils.elevationScale)
  /\ p.(PerturbationUtils.elevationPerturbationScale)
     = p0.(PerturbationUtils.elevationPerturbationScale)
  /\ p.(PerturbationUtils.baseHeightCm) = p0.(PerturbationUtils.baseHeightCm)
  /\ p.(PerturbationUtils.ridgeInfluence) = p0.(PerturbationUtils.ridgeInfluence)
  /\ p.(PerturbationUtils.valleyDepth) = p0.(PerturbationUtils.valleyDepth).

Variable this : PerturbationUtils.t.

(** The two noise fields as functions of the point. *)
Definition primary (x y : float) : float :=
  PerlinNoise.get_pure Math this.(PerturbationUtils.noise).(PerlinNoise.seed) x y.
Definition secondary (x y : float) : float :=
  PerlinNoise.get_pure Math this.(PerturbationUtils.secondaryNoise).(PerlinNoise.seed) x y.

Definition perturbXZ_pure (x z : float) : float * float :=
  let noiseScale := this.(PerturbationUtils.noiseScale) in
  let primaryNoiseX := primary (x * noiseScale) (z * noiseScale) in
  let primaryNoiseZ := primary (x * noiseScale + 200) (z * noiseScale + 200) in
  let secondaryNoiseX := secondary (x * noiseScale * 1.7 + 300) (z * noiseScale * 1.7) in
  let secondaryNoiseZ := secondary (x * noiseScale * 1.7) (z * noiseScale * 1.7 + 300) in
  let detailNoiseX := primary (x * noiseScale * 4 + 700) (z * noiseScale * 4) * 0.2 in
  let detailNoiseZ := primary (x * noiseScale * 4) (z * noiseScale * 4 + 700) * 0.2 in
  let combinedNoiseX := primaryNoiseX * 0.6 + secondaryNoiseX * 0.3 + detailNoiseX in
  let combinedNoiseZ := primaryNoiseZ * 0.6 + secondaryNoiseZ * 0.3 + detailNoiseZ in
  let flowX := primaryNoiseZ * 0.15 in
  let flowZ := primaryNoiseX * 0.15 in
  let finalNoiseX := combinedNoiseX * 0.85 + flowX in
  let finalNoiseZ := combinedNoiseZ * 0.85 + flowZ in
  let perturbX := (finalNoiseX * 2 - 1) * this.(PerturbationUtils.perturbationScale)
                  * (1 + secondaryNoiseX * 0.5) in
  let perturbZ := (finalNoiseZ * 2 - 1) * this.(PerturbationUtils.perturbationScale)
                  * (1 + secondaryNoiseZ * 0.5) in
  (x + perturbX, z + perturbZ).

Definition perturbY_pure (x y z : float) : float :=
  let scale := this.(PerturbationUtils.elevationNoiseScale) in
  let primaryNoise := primary (x * scale + 300) (z * scale + 300) in
  let secondaryNoise := secondary (x * scale * 1.7 + 500) (z * scale * 1.7 + 500) in
  let ridgeNoise := abs (primaryNoise * 2 - 1) * this.(PerturbationUtils.ridgeInfluence) in
  let valleyNoise :=
    (1 - abs (secondaryNoise * 2 - 1)) * this.(PerturbationUtils.valleyDepth) in
  let combinedNoise :=
    primaryNoise * 0.6 + ridgeNoise * 0.3 - valleyNoise * 0.3 + secondaryNoise * 0.4 in
  let combinedNoise :=
    combinedNoise + primary (x * scale * 5 + 700) (z * scale * 5 + 700) * 0.2 in
  let perturbation :=
    (combinedNoise * 2 - 1) * this.(PerturbationUtils.elevationPerturbationScale) in
  round ((y + perturbation) * 100) / 100.

Definition getElevation_pure (x z : float) : float :=
  let scale := this.(PerturbationUtils.elevationNoiseScale) in
  let primaryNoise := primary (x * scale) (z * scale) in
  let secondaryNoise := secondary (x * scale * 1.3) (z * scale * 1.3) in
  let elevation := primaryNoise in
  let elevation := elevation + 0.5 * primary (x * scale * 2) (z * scale * 2) in
  let elevation := elevation + 0.25 * primary (x * scale * 4) (z * scale * 4) in
  let elevation := elevation + 0.125 * primary (x * scale * 8) (z * scale * 8) in
  let secondaryElevation := secondaryNoise in
  let secondaryElevation :=
    secondaryElevation + 0.4 * secondary (x * scale * 2.5) (z * scale * 2.5) in
  let secondaryElevation :=
    secondaryElevation + 0.2 * secondary (x * scale * 5) (z * scale * 5) in
  let ridgeNoise :=
    Math.(pow) (abs (primaryNoise * 2 - 1)) 1.5 * this.(PerturbationUtils.ridgeInfluence) in
  let valleyNoise :=
    Math.(pow) (1 - abs (secondaryNoise * 2 - 1)) 2 * this.(PerturbationUtils.valleyDepth) in
  let elevation := (elevation / 1.875) * 0.65 in
  let secondaryElevation := (secondaryElevation / 1.6) * 0.35 in
  let finalElevation := elevation + secondaryElevation + ridgeNoise - valleyNoise in
  let finalElevation := finalElevation * this.(PerturbationUtils.elevationScale) in
  let finalElevation := finalElevation + this.(PerturbationUtils.baseHeightCm) / 25 in
  round (finalElevation * 100) / 100.

End WithMath.
End PerturbSpec.

(** ** HexUtils *)

Module HexUtilsSpec.
Open Scope float_scope.
Import JSMath Directions.

Section WithMath.
Variable Math : JSMath.lib.

(** The state [u] of a [HexUtils] constructed as [u0]. *)
Definition inv (u0 u : HexUtils.t) : Prop :=
  PerturbSpec.inv Math u0.(HexUtils.perturbUtils) u.(HexUtils.perturbUtils)
  /\ u.(HexUtils.hexGap) = u0.(HexUtils.hexGap)
  /\ u.(HexUtils.effectiveSize) = u0.(HexUtils.effectiveSize)
  /\ u.(HexUtils.width) = u0.(HexUtils.width)
  /\ u.(HexUtils.height) = u0.(HexUtils.height).

Variable this : HexUtils.t.

(** The height every rim vertex of the cell centred at [(centerX, centerZ)]
    gets: the perturbed elevation of the centre. *)
Definition rimHeight (centerX centerZ : float) : float :=
  PerturbSpec.perturbY_pure Math this.(HexUtils.perturbUtils) centerX
    (PerturbSpec.getElevation_pure Math this.(HexUtils.perturbUtils) centerX centerZ)
    centerZ.

Definition getHexVertex_pure (centerX centerZ : float) (i : nat) : vec3 :=
  let angle := (PI / 180) * nth i HexUtils.angles nan in
  let x := centerX + this.(HexUtils.effectiveSize) * Math.(cos) angle in
  let z := centerZ + this.(HexUtils.effectiveSize) * Math.(sin) angle in
  let '(px, pz) := PerturbSpec.perturbXZ_pure Math this.(HexUtils.perturbUtils) x z in
  (px, rimHeight centerX centerZ, pz).

Definition generateHexVertices_pure (centerX centerZ : float) : list vec3 :=
  map (getHexVertex_pure centerX centerZ) (seq 0 6).

(** The centre [getNeighbor] computes for grid coordinates. *)
Definition centerOf (coords : Z * Z) : float * float :=
  let colSpacing := this.(HexUtils.width) * 3 / 4 + this.(HexUtils.hexGap) in
  let rowSpacing := this.(HexUtils.height) + this.(HexUtils.hexGap) in
  (of_Z (fst coords) * colSpacing,
   of_Z (snd coords) * rowSpacing + (rem (fst coords) 2 * (rowSpacing / 2))).

(** The hex [getNeighbor] returns for a neighbour at [coords]. *)
Definition hexAt (coords : Z * Z) : HexUtils.hex :=
  let '(centerX, centerZ) := centerOf coords in
  let elevation :=
    PerturbSpec.getElevation_pure Math this.(HexUtils.perturbUtils) centerX centerZ in
  let perturbedElevation :=
    PerturbSpec.perturbY_pure Math this.(HexUtils.perturbUtils) centerX elevation centerZ in
  HexUtils.mkHex (fst coords, snd coords) (centerX, perturbedElevation, centerZ)
                 (generateHexVertices_pure centerX centerZ)
                 perturbedElevation (floor (elevation * 4)) 0.

End WithMath.
End HexUtilsSpec.

(** ** The mesh-building HexGenerator *)

Module MeshSpec.
Open Scope float_scope.
Import JSMath Directions.

Definition origin : vec3 := (0, 0, 0).

(** A table entry that is known to be there. *)
Definition entryOf {V} (name : string) (obj : list (string * V)) (dflt : V) : V :=
  match prop name obj with Some v => v | None => dflt end.

(** One round of the skirt loop, from the rim of the cell and the rims of
    its neighbours by direction. *)
Definition skirtStep_pure (vertices : list vec3) (neighborVertices : string -> list vec3)
    (b : buffers) (direction : string) : buffers :=
  let neighborDirection := entryOf direction oppositeDirection ""%string in
  let '(v1Index, v2Index) := entryOf direction edgeVertexMap (0, 0)%nat in
  let v1 := nth v1Index vertices origin in
  let v2 := nth v2Index vertices origin in
  let '(nv1Index, nv2Index) := entryOf neighborDirection edgeVertexMap (0, 0)%nat in
  let nv1 := nth nv1Index (neighborVertices direction) origin in
  let nv2 := nth nv2Index (neighborVertices direction) origin in
  let b := pushTriangle b v1 v2 nv1 [0; 1; 2]%nat side_normal in
  let b := pushTriangle b v1 nv1 nv2 [0; 1; 2]%nat side_normal in
  let cwDirection := entryOf direction clockwiseDirection ""%string in
  let cwNeighborDirection := entryOf cwDirection oppositeDirection ""%string in
  let '(cwv1Index, cwv2Index) := entryOf cwNeighborDirection edgeVertexMap (0, 0)%nat in
  let cwv2 := nth cwv2Index (neighborVertices cwDirection) origin in
  pushTriangle b v2 nv1 cwv2 [0; 2; 1]%nat top_normal.

Section WithMath.
Variable Math : JSMath.lib.

Definition geometry_pure (center : vec3) (vertices : list vec3)
    (neighborVertices : string -> list vec3) : buffers :=
  let '(centerX, _, centerZ) := center in
  fold_left (skirtStep_pure vertices neighborVertices) skirtDirections
            (HexMeshGenerator.cap Math centerX (snd (fst (nth 0 vertices origin)))
                                  centerZ vertices).

(** The state [g] of a generator constructed as [g0]. *)
Definition inv (g0 g : HexMeshGenerator.t) : Prop :=
  HexUtilsSpec.inv Math g0.(HexMeshGenerator.hexUtils) g.(HexMeshGenerator.hexUtils)
  /\ PerturbSpec.inv Math g0.(HexMeshGenerator.perturbUtils)
       g.(HexMeshGenerator.perturbUtils)
  /\ g.(HexMeshGenerator.gridSize) = g0.(HexMeshGenerator.gridSize)
  /\ g.(HexMeshGenerator.hexGap) = g0.(HexMeshGenerator.hexGap)
  /\ g.(HexMeshGenerator.effectiveSize) = g0.(HexMeshGenerator.effectiveSize).

Variable this : HexMeshGenerator.t.

(** The rim [getNeighbor] computes for the neighbour in a direction. *)
Definition neighborVerticesOf (coords : Z * Z) (direction : string) : list vec3 :=
  match HexUtils.getNeighborCoords coords direction with
  | Some c =>
      (HexUtilsSpec.hexAt Math this.(HexMeshGenerator.hexUtils) c).(HexUtils.vertices)
  | None => []
  end.

(** The centre the grid pass computes for a cell. *)
Definition cellCenter (cell : Z * Z) : float * float :=
  let hexWidth := 2 * this.(HexMeshGenerator.effectiveSize) in
  let hexHeight := PrimFloat.sqrt 3 * this.(HexMeshGenerator.effectiveSize) in
  let colSpacing := hexWidth * 3 / 4 + this.(HexMeshGenerator.hexGap) in
  let rowSpacing := hexHeight + this.(HexMeshGenerator.hexGap) in
  (of_Z (fst cell) * colSpacing,
   of_Z (snd cell) * rowSpacing + (rem (fst cell) 2 * (rowSpacing / 2))).

(** The hex object the grid pass builds for a cell. *)
Definition cell_pure (cell : Z * Z) : HexUtils.hex :=
  let '(centerX, centerZ) := cellCenter cell in
  let elevation :=
    PerturbSpec.getElevation_pure Math this.(HexMeshGenerator.perturbUtils)
      centerX centerZ in
  let perturbedElevation :=
    PerturbSpec.perturbY_pure Math this.(HexMeshGenerator.perturbUtils)
      centerX elevation centerZ in
  HexUtils.mkHex (fst cell, snd cell) (centerX, perturbedElevation, centerZ)
    (HexUtilsSpec.generateHexVertices_pure Math this.(HexMeshGenerator.hexUtils)
       centerX centerZ)
    perturbedElevation
    (PerturbationUtils.getBiomeIndex perturbedElevation
       (of_Z (Z.of_nat (List.length HexMeshGenerator.biomeColors))))
    0.

Definition mesh_of (h : HexUtils.hex) : mesh :=
  mkMesh (geometry_pure h.(HexUtils.center) h.(HexUtils.vertices)
            (neighborVerticesOf h.(HexUtils.gridCoords)))
         (if h.(HexUtils.biomeIndex)
             <? of_Z (Z.of_nat (List.length HexMeshGenerator.biomeColors))
          then h.(HexUtils.biomeIndex) else 0)
         h.(HexUtils.gridCoords) h.(HexUtils.elevation)
         h.(HexUtils.biomeIndex) h.(HexUtils.featureIndex).

(** The mesh the grid pass adds for a cell. *)
Definition mesh_pure (cell : Z * Z) : mesh := mesh_of (cell_pure cell).

End WithMath.

(** The rim [HexUtils] computes for the cell at grid coordinates [c]. *)
Definition rimOf (Math : JSMath.lib) (u : HexUtils.t) (c : Z * Z) : list vec3 :=
  HexUtilsSpec.generateHexVertices_pure Math u
    (fst (HexUtilsSpec.centerOf u c)) (snd (HexUtilsSpec.centerOf u c)).

(** The rim vertex [i] of a mesh: the centre is vertex 0 of its geometry. *)
Definition rimVertex (m : mesh) (i : nat) : option vec3 :=
  vertexAt m.(geometry).(positions) (1 + i).

(** Vertex [j] of the skirt (two triangles and the corner triangle, nine
    vertices) built in round [k] of the loop over [skirtDirections]. *)
Definition skirtVertex (m : mesh) (k j : nat) : option vec3 :=
  vertexAt m.(geometry).(positions) (7 + 9 * k + j).

(** [coords] lies in the square grid of side [gridSize]. *)
Definition inGrid (gridSize : Z) (coords : Z * Z) : bool :=
  ((0 <=? fst coords) && (fst coords <? gridSize)
   && (0 <=? snd coords) && (snd coords <? gridSize))%Z.

(** The skirt of round [k], for direction [direction], of the mesh [m] of a
    cell, against the mesh [mn] of the neighbouring cell: the two triangles
    are [(v1, v2, nv1)] and [(v1, nv1, nv2)], where [v1], [v2] are rim
    vertices of [m] and [nv1], [nv2] rim vertices of [mn], taken at the
    places the edge table gives. *)
Definition seam_closed (m mn : mesh) (k : nat) (direction : string) : Prop :=
  exists e1 e2 od o1 o2 v1 v2 nv1 nv2,
    prop direction edgeVertexMap = Some (e1, e2)
    /\ prop direction oppositeDirection = Some od
    /\ prop od edgeVertexMap = Some (o1, o2)
    /\ rimVertex m e1 = Some v1 /\ rimVertex m e2 = Some v2
    /\ rimVertex mn o1 = Some nv1 /\ rimVertex mn o2 = Some nv2
    /\ skirtVertex m k 0 = Some v1 /\ skirtVertex m k 1 = Some v2
    /\ skirtVertex m k 2 = Some nv1
    /\ skirtVertex m k 3 = Some v1 /\ skirtVertex m k 4 = Some nv1
    /\ skirtVertex m k 5 = Some nv2
    /\ triangleAt m.(geometry).(indices) (6 + 3 * k)
        = Some (7 + 9 * k, 7 + 9 * k + 1, 7 + 9 * k + 2)%nat
    /\ triangleAt m.(geometry).(indices) (6 + 3 * k + 1)
        = Some (7 + 9 * k + 3, 7 + 9 * k + 4, 7 + 9 * k + 5)%nat.

End MeshSpec.

(** ** Heights of a rim *)

Module RimSpec.
Open Scope float_scope.

Definition height (v : vec3) : float := snd (fst v).

(** No two numbers of the list are equal ([===]). *)
Fixpoint pairwise_distinct (l : list float) : bool :=
  match l with
  | [] => true
  | a :: l' => forallb (fun b => negb (a =? b)) l' && pairwise_distinct l'
  end.

(** Every number of the list is [c], bit for bit. *)
Definition all_equal_to (c : float) (l : list float) : bool :=
  forallb (Leibniz.eqb c) l.

(** A hex object of which only the grid coordinates matter. *)
Definition hexWithCoords (coords : Z * Z) : HexUtils.hex :=
  HexUtils.mkHex coords (0, 0, 0) [] 0 0 0.

End RimSpec.

(** ** Construction *)

Module Construction.
Open Scope float_scope.



End Construction.

(** ** Corner triangles *)

Module CornerSpec.
Open Scope float_scope.
Import Directions.

(** The triangles of an index array. *)
Fixpoint triangles (ixs : list nat) : list (nat * nat * nat) :=
  match ixs with
  | a :: b :: c :: rest => (a, b, c) :: triangles rest
  | _ => []
  end.

Definition isTopNormal (n : option vec3) : bool :=
  match n with
  | Some (x, y, z) => Leibniz.eqb x 0 && Leibniz.eqb y 1 && Leibniz.eqb z 0
  | None => false
  end.

(** A corner triangle of a hex geometry: its vertices carry the upward
    normal, and, unlike the triangles of the cap, it does not start at the
    centre vertex 0. *)
Definition isCorner (b : buffers) (t : nat * nat * nat) : bool :=
  let '(a, _, _) := t in
  negb (Nat.eqb a 0) && isTopNormal (vertexAt b.(normals) a).

Definition cornerTriangles (b : buffers) : list (nat * nat * nat) :=
  filter (isCorner b) (triangles b.(indices)).

(** The positions of the three vertices of a triangle. *)
Definition trianglePositions (b : buffers) (t : nat * nat * nat)
    : option vec3 * option vec3 * option vec3 :=
  let '(i, j, k) := t in
  (vertexAt b.(positions) i, vertexAt b.(positions) j, vertexAt b.(positions) k).

(** The positions of corner triangle [j] of a mesh. *)
Definition cornerPositions (m : mesh) (j : nat) : option (vec3 * vec3 * vec3) :=
  match nth_error (cornerTriangles m.(geometry)) j with
  | Some t =>
      match trianglePositions m.(geometry) t with
      | (Some p, Some q, Some r) => Some (p, q, r)
      | _ => None
      end
  | None => None
  end.

(** The same triangle, started at its second vertex. *)
Definition rotate (t : vec3 * vec3 * vec3) : vec3 * vec3 * vec3 :=
  let '(p, q, r) := t in (q, r, p).

(** The neighbour in a direction, when it is a cell of the grid. *)
Definition neighborIn (gridSize : Z) (c : Z * Z) (d : string) : option (Z * Z) :=
  match step c d with
  | Some n => if MeshSpec.inGrid gridSize n then Some n else None
  | None => None
  end.

(** The corners of a cell at which three cells of the grid meet, each named
    by the sorted triple of the three cells. *)
Definition cornersAt (gridSize : Z) (c : Z * Z) : list string :=
  flat_map
    (fun d =>
       match prop d clockwiseDirection with
       | Some cw =>
           match neighborIn gridSize c d, neighborIn gridSize c cw with
           | Some n, Some m => [HexRenderer.cornerTriangleId c n m]
           | _, _ => []
           end
       | None => []
       end)
    directions.

(** The distinct interior corners of a grid. *)
Definition interiorCorners (gridSize : Z) : list string :=
  nodup string_dec (flat_map (cornersAt gridSize) (cells gridSize)).

(** A 2 by 2 grid as [HexGenerator.generateGrid] makes it, without elevation
    data, and the meshes [HexRenderer.renderGrid] builds from it. *)
Definition grid2 : list HexGenerator.hex :=
  match value (HexGenerator.generateGrid RefMath.math []
                 (HexGenerator.new 2 1 0.1 0.3)) with
  | Some g => g
  | None => []
  end.

Definition meshes2 : list mesh :=
  match value (HexRenderer.renderGrid RefMath.math 0.7 grid2 (HexRenderer.mk [])) with
  | Some ms => ms
  | None => []
  end.

(** Corner triangle [j] of mesh [i] of that build. *)
Definition cornerAt (i j : nat) : option (vec3 * vec3 * vec3) :=
  match nth_error meshes2 i with
  | Some m => cornerPositions m j
  | None => None
  end.

End CornerSpec.

(** ** Coordinates the code computes with exactly *)

Module SafeInteger.

(** Grid coordinates are JavaScript numbers.  Below 2^53 in magnitude
    ([Number.MAX_SAFE_INTEGER] is 2^53 - 1) an integer, its successor and its
    predecessor are all binary64 values, so [col + 1], [col - 1], [row + 1]
    and [row - 1] are computed without rounding, and the integers of the
    model are the numbers of the program. *)
Definition coords (c : Z * Z) : Prop :=
  (Z.abs (fst c) < 2 ^ 53)%Z /\ (Z.abs (snd c) < 2 ^ 53)%Z.

End SafeInteger.

(** ** Histories of a PerturbationUtils *)

Module PerturbHistory.

(** A call of one of the methods that query the noise fields. *)
Inductive call : Type :=
| PerturbXZ (x z : float)
| PerturbY (x y z : float)
| GetElevation (x z : float).

Definition state_after {A} (o : outcome (A * PerturbationUtils.t))
    (p : PerturbationUtils.t) : PerturbationUtils.t :=
  match o with Returned (_, p') => p' | Thrown _ => p end.

Definition run_call (Math : JSMath.lib) (p : PerturbationUtils.t) (c : call)
    : PerturbationUtils.t :=
  match c with
  | PerturbXZ x z => state_after (PerturbationUtils.perturbXZ Math x z p) p
  | PerturbY x y z => state_after (PerturbationUtils.perturbY Math x y z p) p
  | GetElevation x z => state_after (PerturbationUtils.getElevation Math x z p) p
  end.

(** The object [p0] after a history of calls. *)
Definition after (Math : JSMath.lib) (p0 : PerturbationUtils.t) (history : list call)
    : PerturbationUtils.t :=
  fold_left (run_call Math) history p0.

End PerturbHistory.

(** ** The shape of a geometry *)

Module ShapeSpec.

(** The four arrays fit together: a normal for every vertex, a pair of texture
    coordinates for every vertex, whole triangles, and no index beyond the
    vertices. *)
Definition well_formed (b : buffers) : bool :=
  Nat.eqb (List.length b.(positions) mod 3) 0
  && Nat.eqb (List.length b.(normals)) (List.length b.(positions))
  && Nat.eqb (3 * List.length b.(uvs)) (2 * List.length b.(positions))
  && Nat.eqb (List.length b.(indices) mod 3) 0
  && forallb (fun i => Nat.ltb (3 * i + 2) (List.length b.(positions))) b.(indices).

(** [well_formed], as propositions. *)
Definition WF (b : buffers) : Prop :=
  (exists m, List.length b.(positions) = 3 * m)%nat
  /\ List.length b.(normals) = List.length b.(positions)
  /\ (3 * List.length b.(uvs) = 2 * List.length b.(positions))%nat
  /\ (exists t, List.length b.(indices) = 3 * t)%nat
  /\ Forall (fun i => 3 * i + 2 < List.length b.(positions))%nat b.(indices).

(** The normal of the vertex with index [j]. *)
Definition normalAt (b : buffers) (j : nat) : option vec3 := vertexAt b.(normals) j.

(** The triangles one round of the renderer's skirt loop adds, for the
    direction [direction]: none when the hex has no neighbour there, else the
    two of the skirt, or these and the corner triangle. *)
Definition skirtTriangles (hexGenerator : HexGenerator.t) (h : HexGenerator.hex)
    (hexGrid : list HexGenerator.hex) (direction : string) (k : nat) : Prop :=
  match find (fun h' => (fst h'.(HexGenerator.gridCoords)
                         =? fst h.(HexGenerator.gridCoords))%Z
                        && (snd h'.(HexGenerator.gridCoords)
                            =? snd h.(HexGenerator.gridCoords))%Z)
             hexGrid with
  | None => False
  | Some thisHex =>
      match HexGenerator.getNeighbor hexGenerator thisHex direction hexGrid with
      | None => k = 0%nat
      | Some _ => k = 2%nat \/ k = 3%nat
      end
  end.

(** What a [Float32BufferAttribute] keeps of an array of numbers: each of
    them converted to single precision.  [fround] stands for that conversion
    ([Math.fround] in JavaScript); the theorems about [stored] hold for every
    function, the identity, which gives the array itself, among them. *)
Definition stored (fround : float -> float) (array : list float) : list float :=
  map fround array.

(** The corner triangle of round [k], for direction [direction], of the mesh
    [m] of a cell, against the mesh [mn] of the neighbour in that direction
    and the mesh [mcw] of the neighbour in the next direction clockwise: the
    triangle is [(v2, cwv2, nv1)], where [v2] is the rim vertex of [m] at the
    end of the edge, [nv1] the rim vertex of [mn] at the start of the opposite
    edge, and [cwv2] the rim vertex of [mcw] at the end of the edge opposite
    to the clockwise direction. *)
Definition corner_closed (m mn mcw : mesh) (k : nat) (direction : string) : Prop :=
  exists e1 e2 od o1 o2 cw ocw c1 c2 v2 nv1 cwv2,
    prop direction Directions.edgeVertexMap = Some (e1, e2)
    /\ prop direction Directions.oppositeDirection = Some od
    /\ prop od Directions.edgeVertexMap = Some (o1, o2)
    /\ prop direction Directions.clockwiseDirection = Some cw
    /\ prop cw Directions.oppositeDirection = Some ocw
    /\ prop ocw Directions.edgeVertexMap = Some (c1, c2)
    /\ MeshSpec.rimVertex m e2 = Some v2
    /\ MeshSpec.rimVertex mn o1 = Some nv1
    /\ MeshSpec.rimVertex mcw c2 = Some cwv2
    /\ MeshSpec.skirtVertex m k 6 = Some v2
    /\ MeshSpec.skirtVertex m k 7 = Some nv1
    /\ MeshSpec.skirtVertex m k 8 = Some cwv2
    /\ triangleAt m.(geometry).(indices) (6 + 3 * k + 2)
       = Some (7 + 9 * k + 6, 7 + 9 * k + 8, 7 + 9 * k + 7)%nat.

End ShapeSpec.

(** ** Methods that return a value with a property *)

(** From every state in [I], the method returns a value with [P] and stays
    in [I]. *)
Definition yields {S A} (I : S -> Prop) (P : A -> Prop) (m : M S A) : Prop :=
  forall s, I s -> exists a s', m s = Returned (a, s') /\ I s' /\ P a.

(** ** The grid generator of hex/hexGenerator.js *)

Module GridSpec.
Open Scope float_scope.

(** The state [g] of a generator constructed as [g0]: nothing but the noise
    field differs. *)
Definition inv (g0 g : HexGenerator.t) : Prop :=
  HexGenerator.set_noise g0 g.(HexGenerator.noise) = g.

(** What [generateGrid] takes from the elevation data for a cell: the entry
    at [row * gridSize + col], when there is one. *)
Definition entryAt (gridSize : Z) (elevationData : list HexGenerator.entry)
    (cell : Z * Z) : option HexGenerator.entry :=
  nth_error elevationData (Z.to_nat (snd cell * gridSize + fst cell)).

(** The fields of a hex that [generateGrid] copies from the data, [0] each
    without an entry. *)
Definition fromData (e : option HexGenerator.entry) (h : HexGenerator.hex) : Prop :=
  h.(HexGenerator.elevation)
  = match e with Some e => e.(HexGenerator.heightOffset) | None => 0 end
  /\ h.(HexGenerator.biomeIndex)
     = match e with Some e => e.(HexGenerator.entryBiomeIndex) | None => 0 end
  /\ h.(HexGenerator.featureIndex)
     = match e with Some e => e.(HexGenerator.entryFeatureIndex) | None => 0 end.

(** Two hexes of a small grid: the one at the origin and its neighbour to
    the south-east. *)
Definition west : HexGenerator.hex :=
  HexGenerator.mkHex (0, 0, 0) [] 0 (0, 0)%Z 0 0.
Definition east : HexGenerator.hex :=
  HexGenerator.mkHex (1.45, 0, 0.83) [] 0 (1, 0)%Z 0 0.

(** A hex with a rim of six vertices at the coordinates [coords]; the
    vertices are those of a flat hexagon of size 1 about the origin. *)
Definition flatHex (coords : Z * Z) : HexGenerator.hex :=
  HexGenerator.mkHex (0, 0, 0)
    [(1, 0, 0); (0.5, 0, 0.87); (-0.5, 0, 0.87);
     (-1, 0, 0); (-0.5, 0, -0.87); (0.5, 0, -0.87)]
    0 coords 0 0.

(** A mesh left in [this.meshes] by an earlier call. *)
Definition staleMesh : mesh :=
  mkMesh (mkBuffers [] [] [] []) 0 (7, 7)%Z 0 0 0.

End GridSpec.

(** ** Computations without state *)

(** The outcome [o], in a method that neither reads nor writes [this]. *)
Definition lift {S A} (o : outcome A) : M S A :=
  fun s => match o with Returned a => Returned (a, s) | Thrown e => Thrown e end.

(** A computation whose outcome is the same in every state, and which
    leaves the state as it found it. *)
Definition stateless {S A} (m : M S A) : Prop :=
  exists o : outcome A, forall s, m s = lift o s.

(* ================================================================== *)
(** * Proofs *)

(** ** The state monad *)

Lemma runs_ret {S A} (I : S -> Prop) (a : A) (s : S) :
  I s -> runs I (ret a) s a.
Proof. intros H. exists s. split; [reflexivity | exact H]. Qed.

Lemma runs_bind {S A B} (I : S -> Prop) (m : M S A) (k : A -> M S B) s a b :
  runs I m s a ->
  (forall s', I s' -> runs I (k a) s' b) ->
  runs I (bind m k) s b.
Proof.
  intros (s1 & E1 & H1) Hk.
  destruct (Hk s1 H1) as (s2 & E2 & H2).
  exists s2. split; [| exact H2].
  unfold bind. rewrite E1. exact E2.
Qed.

Lemma runs_getThis {S B} (I : S -> Prop) (k : S -> M S B) s b :
  runs I (k s) s b -> runs I (bind getThis k) s b.
Proof. intros H. exact H. Qed.

Lemma computes_ret {S A} (I : S -> Prop) (a : A) : computes I (ret a) a.
Proof. intros s H. apply runs_ret, H. Qed.

Lemma computes_bind {S A B} (I : S -> Prop) (m : M S A) (k : A -> M S B) a b :
  computes I m a -> computes I (k a) b -> computes I (bind m k) b.
Proof.
  intros Hm Hk s Hs. eapply runs_bind; [apply Hm, Hs | exact Hk].
Qed.

Lemma computes_zoom {S T A} (I : S -> Prop) (J : T -> Prop)
    (proj : S -> T) (upd : S -> T -> S) (m : M T A) a :
  (forall s, I s -> J (proj s)) ->
  (forall s t, I s -> J t -> I (upd s t)) ->
  computes J m a -> computes I (zoom proj upd m) a.
Proof.
  intros Hp Hu Hm s Hs.
  destruct (Hm (proj s) (Hp s Hs)) as (t' & E & Ht).
  exists (upd s t'). split; [| apply Hu; assumption].
  unfold zoom. rewrite E. reflexivity.
Qed.

Lemma computes_mapM {S A B} (I : S -> Prop) (f : A -> M S B) (g : A -> B) l :
  (forall a, In a l -> computes I (f a) (g a)) ->
  computes I (mapM f l) (map g l).
Proof.
  induction l as [| a l IH]; intros H; simpl.
  - apply computes_ret.
  - eapply computes_bind; [apply H; left; reflexivity |].
    eapply computes_bind; [apply IH; intros; apply H; right; assumption |].
    apply computes_ret.
Qed.

Lemma computes_value {S A} (I : S -> Prop) (m : M S A) a s :
  computes I m a -> I s -> value (m s) = Some a.
Proof. intros H Hs. destruct (H s Hs) as (s' & E & _). rewrite E. reflexivity. Qed.

(* ------------------------------------------------------------------ *)
(** ** Binary64 facts *)

Module FloatFacts.
Open Scope float_scope.
Import JSMath NoiseSpec.

Lemma mul_comm (x y : float) : x * y = y * x.
Proof.
  apply Prim2SF_inj. rewrite !mul_spec.
  destruct (Prim2SF x) as [sx|sx| |sx mx ex], (Prim2SF y) as [sy|sy| |sy my ey];
    simpl; try reflexivity; try (f_equal; apply xorb_comm).
  unfold SFmul. rewrite xorb_comm, Pos.mul_comm, Z.add_comm. reflexivity.
Qed.

Lemma eqb_zero_cases (x : float) : (x =? 0) = true -> zeroish x.
Proof.
  rewrite FloatAxioms.eqb_spec. intros H.
  rewrite <- (SF2Prim_Prim2SF x).
  destruct (Prim2SF x) as [[|]|[|]| |[|] m e]; try discriminate H;
    [right | left]; reflexivity.
Qed.

Lemma zeroish_eqb (x : float) : zeroish x -> (x =? 0) = true.
Proof. intros [-> | ->]; reflexivity. Qed.

Lemma same_text_cases (a b : float) :
  same_text a b -> a = b \/ (zeroish a /\ zeroish b).
Proof.
  unfold same_text, Key.canon.
  destruct (a =? 0) eqn:Ea, (b =? 0) eqn:Eb; intros H.
  - right. split; apply eqb_zero_cases; assumption.
  - subst b. discriminate Eb.
  - subst a. discriminate Ea.
  - left. exact H.
Qed.

Lemma same_text_refl (a : float) : same_text a a.
Proof. reflexivity. Qed.

Lemma zeroish_same_text (a b : float) : zeroish a -> zeroish b -> same_text a b.
Proof. intros [-> | ->] [-> | ->]; reflexivity. Qed.

Lemma add_zero_l (z b : float) :
  zeroish z -> z + b = b \/ (zeroish b /\ zeroish (z + b)).
Proof.
  intros Hz.
  destruct (Prim2SF b) as [s|s| |s m e] eqn:Eb.
  - right. rewrite <- (SF2Prim_Prim2SF b), Eb.
    destruct Hz as [-> | ->], s; split; (left; reflexivity) || (right; reflexivity).
  - left. apply Prim2SF_inj. rewrite add_spec, Eb. destruct Hz as [-> | ->]; reflexivity.
  - left. apply Prim2SF_inj. rewrite add_spec, Eb. destruct Hz as [-> | ->]; reflexivity.
  - left. apply Prim2SF_inj. rewrite add_spec, Eb. destruct Hz as [-> | ->]; reflexivity.
Qed.

Lemma add_zero_r (z b : float) :
  zeroish z -> b + z = b \/ (zeroish b /\ zeroish (b + z)).
Proof.
  intros Hz.
  destruct (Prim2SF b) as [s|s| |s m e] eqn:Eb.
  - right. rewrite <- (SF2Prim_Prim2SF b), Eb.
    destruct Hz as [-> | ->], s; split; (left; reflexivity) || (right; reflexivity).
  - left. apply Prim2SF_inj. rewrite add_spec, Eb. destruct Hz as [-> | ->]; reflexivity.
  - left. apply Prim2SF_inj. rewrite add_spec, Eb. destruct Hz as [-> | ->]; reflexivity.
  - left. apply Prim2SF_inj. rewrite add_spec, Eb. destruct Hz as [-> | ->]; reflexivity.
Qed.

Lemma nan_add_l (b : float) : nan + b = nan.
Proof.
  apply Prim2SF_inj. rewrite add_spec.
  change (Prim2SF nan) with S754_nan. reflexivity.
Qed.

Lemma ltb_zero_not_leb (v : float) : (0 <? v) = true -> (v <=? 0) = false.
Proof.
  rewrite FloatAxioms.ltb_spec, FloatAxioms.leb_spec.
  change (Prim2SF 0) with (S754_zero false).
  destruct (Prim2SF v) as [[|]|[|]| |[|] m e]; simpl; intros H;
    reflexivity || discriminate H.
Qed.

Lemma leb_zero_not_ltb (v : float) : (0 <=? v) = true -> (v <? 0) = false.
Proof.
  rewrite FloatAxioms.ltb_spec, FloatAxioms.leb_spec.
  change (Prim2SF 0) with (S754_zero false).
  destruct (Prim2SF v) as [[|]|[|]| |[|] m e]; simpl; intros H;
    reflexivity || discriminate H.
Qed.

End FloatFacts.

(* ------------------------------------------------------------------ *)
(** ** PerlinNoise: the caches never change a result *)

Module NoiseFacts.
Open Scope float_scope.
Import JSMath NoiseSpec FloatFacts.

Lemma same_text_add (a a' b b' : float) :
  same_text a a' -> same_text b b' -> same_text (a + b) (a' + b').
Proof.
  intros Ha Hb.
  destruct (same_text_cases _ _ Ha) as [<- | [Za Za']];
    destruct (same_text_cases _ _ Hb) as [<- | [Zb Zb']].
  - reflexivity.
  - destruct (add_zero_r b a Zb) as [E | [Za _]];
      destruct (add_zero_r b' a Zb') as [E' | [Za' _]].
    + unfold same_text. rewrite E, E'. reflexivity.
    + destruct Za' as [-> | ->], Zb as [-> | ->], Zb' as [-> | ->]; reflexivity.
    + destruct Za as [-> | ->], Zb as [-> | ->], Zb' as [-> | ->]; reflexivity.
    + destruct Za as [-> | ->], Zb as [-> | ->], Zb' as [-> | ->]; reflexivity.
  - destruct (add_zero_l a b Za) as [E | [Zb _]];
      destruct (add_zero_l a' b Za') as [E' | [Zb' _]].
    + unfold same_text. rewrite E, E'. reflexivity.
    + destruct Zb' as [-> | ->], Za as [-> | ->], Za' as [-> | ->]; reflexivity.
    + destruct Zb as [-> | ->], Za as [-> | ->], Za' as [-> | ->]; reflexivity.
    + destruct Zb as [-> | ->], Za as [-> | ->], Za' as [-> | ->]; reflexivity.
  - destruct Za as [-> | ->], Za' as [-> | ->], Zb as [-> | ->], Zb' as [-> | ->];
      reflexivity.
Qed.

(** Multiplication by a constant under which both zeros stay zeros. *)
Lemma same_text_mul (c x x' : float) :
  zeroish (0 * c) -> zeroish (-0 * c) ->
  same_text x x' -> same_text (x * c) (x' * c).
Proof.
  intros Hp Hn H.
  destruct (same_text_cases _ _ H) as [<- | [Z Z']]; [reflexivity |].
  apply zeroish_same_text.
  - destruct Z as [-> | ->]; assumption.
  - destruct Z' as [-> | ->]; assumption.
Qed.

Lemma same_text_sin (Math : JSMath.lib) (d d' : float) :
  same_text d d' -> same_text (Math.(sin) d) (Math.(sin) d').
Proof.
  intros H.
  destruct (same_text_cases _ _ H) as [<- | [Z Z']]; [reflexivity |].
  apply zeroish_same_text.
  - destruct Z as [-> | ->];
      [rewrite sin_pos_zero; left | rewrite sin_neg_zero; right]; reflexivity.
  - destruct Z' as [-> | ->];
      [rewrite sin_pos_zero; left | rewrite sin_neg_zero; right]; reflexivity.
Qed.

Lemma fract_same_text (n n' : float) :
  same_text n n' -> PerlinNoise._fract n = PerlinNoise._fract n'.
Proof.
  intros H.
  destruct (same_text_cases _ _ H) as [<- | [[-> | ->] [-> | ->]]]; reflexivity.
Qed.

Lemma random_same_text (Math : JSMath.lib) (sd x x' y y' : float) :
  same_text x x' -> same_text y y' ->
  PerlinNoise._random Math sd x y = PerlinNoise._random Math sd x' y'.
Proof.
  intros Hx Hy. unfold PerlinNoise._random.
  apply fract_same_text.
  apply same_text_mul; [left; reflexivity | right; reflexivity |].
  apply same_text_sin.
  apply same_text_add; [| reflexivity].
  apply same_text_add.
  - apply same_text_mul; [left; reflexivity | right; reflexivity | exact Hx].
  - apply same_text_mul; [left; reflexivity | right; reflexivity | exact Hy].
Qed.

Lemma gradient_same_text (Math : JSMath.lib) (sd x x' y y' : float) :
  same_text x x' -> same_text y y' ->
  PerlinNoise.gradient_pure Math sd x y = PerlinNoise.gradient_pure Math sd x' y'.
Proof.
  intros Hx Hy. unfold PerlinNoise.gradient_pure.
  rewrite (random_same_text Math sd x x' y y' Hx Hy). reflexivity.
Qed.

(** What [get] derives from one coordinate: the lattice points on both sides
    print alike, and the offsets from them are the same numbers. *)
Lemma floor_same_text (x x' : float) :
  same_text x x' ->
  same_text (floor x) (floor x')
  /\ floor x + 1 = floor x' + 1
  /\ x - floor x = x' - floor x'
  /\ x - (floor x + 1) = x' - (floor x' + 1).
Proof.
  intros H.
  destruct (same_text_cases _ _ H) as [<- | [[-> | ->] [-> | ->]]];
    repeat split; reflexivity.
Qed.

Lemma get_pure_core (Math : JSMath.lib) (sd x y : float) :
  PerlinNoise.get_pure Math sd x y =
  get_core (x - floor x) (x - (floor x + 1)) (y - floor y) (y - (floor y + 1))
           (PerlinNoise.gradient_pure Math sd (floor x) (floor y))
           (PerlinNoise.gradient_pure Math sd (floor x + 1) (floor y))
           (PerlinNoise.gradient_pure Math sd (floor x) (floor y + 1))
           (PerlinNoise.gradient_pure Math sd (floor x + 1) (floor y + 1)).
Proof. reflexivity. Qed.

Lemma get_pure_same_text (Math : JSMath.lib) (sd x x' y y' : float) :
  same_text x x' -> same_text y y' ->
  PerlinNoise.get_pure Math sd x y = PerlinNoise.get_pure Math sd x' y'.
Proof.
  intros Hx Hy. rewrite !get_pure_core.
  destruct (floor_same_text x x' Hx) as (Fx & X1 & Dx0 & Dx1).
  destruct (floor_same_text y y' Hy) as (Fy & Y1 & Dy0 & Dy1).
  rewrite Dx0, Dx1, Dy0, Dy1, X1, Y1.
  rewrite (gradient_same_text Math sd (floor x) (floor x') (floor y) (floor y') Fx Fy).
  rewrite (gradient_same_text Math sd (floor x' + 1) (floor x' + 1)
             (floor y) (floor y') (same_text_refl _) Fy).
  rewrite (gradient_same_text Math sd (floor x) (floor x')
             (floor y' + 1) (floor y' + 1) Fx (same_text_refl _)).
  reflexivity.
Qed.

(** *** Keys *)

Lemma key_eqb_eq (a b : Key.t) : Key.eqb a b = true <-> a = b.
Proof.
  destruct a as [a1 a2], b as [b1 b2]. unfold Key.eqb. simpl.
  rewrite andb_true_iff, !Leibniz.eqb_spec.
  split; [intros [-> ->]; reflexivity | intros E; inversion E; auto].
Qed.

Lemma key_make_eq (x y x' y' : float) :
  Key.make x y = Key.make x' y' -> same_text x x' /\ same_text y y'.
Proof. unfold Key.make. intros E. inversion E. split; assumption. Qed.

Lemma lookup_cons {V} (k k' : Key.t) (v : V) table :
  Key.lookup k ((k', v) :: table) =
  if Key.eqb k k' then Some v else Key.lookup k table.
Proof. reflexivity. Qed.

(** *** The methods *)

Section Methods.
Variable Math : JSMath.lib.
Variable sd : float.

Lemma noise_inv_new : inv Math sd (PerlinNoise.new sd).
Proof. repeat split; simpl; intros; discriminate. Qed.

Lemma getRandomGradient_computes (ix iy : float) :
  computes (inv Math sd) (PerlinNoise.getRandomGradient Math ix iy)
           (PerlinNoise.gradient_pure Math sd ix iy).
Proof.
  intros n (Hs & Hg & Hm).
  unfold PerlinNoise.getRandomGradient. apply runs_getThis.
  destruct (Key.lookup (Key.make ix iy) (PerlinNoise.gradients n)) as [g |] eqn:E.
  - rewrite (Hg ix iy g E). apply runs_ret. repeat split; assumption.
  - rewrite Hs.
    eexists. split; [reflexivity |].
    split; [exact Hs | split]; cbn [PerlinNoise.seed PerlinNoise.gradients PerlinNoise.memory PerlinNoise.set_gradients].
    + intros jx jy g. rewrite lookup_cons.
      destruct (Key.eqb (Key.make jx jy) (Key.make ix iy)) eqn:K.
      * intros G. injection G as <-.
        apply key_eqb_eq, key_make_eq in K. destruct K as [Kx Ky].
        symmetry. apply gradient_same_text; assumption.
      * apply Hg.
    + exact Hm.
Qed.

Lemma dotGridGradient_computes (ix iy x y : float) :
  computes (inv Math sd) (PerlinNoise.dotGridGradient Math ix iy x y)
           (PerlinNoise.dotGridGradient_pure Math sd ix iy x y).
Proof.
  unfold PerlinNoise.dotGridGradient.
  eapply computes_bind; [apply getRandomGradient_computes |].
  apply computes_ret.
Qed.

Lemma get_miss_computes (x y : float) :
  computes (inv Math sd) (PerlinNoise.get_miss Math (Key.make x y) x y)
           (PerlinNoise.get_pure Math sd x y).
Proof.
  unfold PerlinNoise.get_miss.
  eapply computes_bind; [apply dotGridGradient_computes |].
  eapply computes_bind; [apply dotGridGradient_computes |].
  eapply computes_bind; [apply dotGridGradient_computes |].
  eapply computes_bind; [apply dotGridGradient_computes |].
  intros n (Hs & Hg & Hm). apply runs_getThis.
  eexists. split; [reflexivity |].
  split; [exact Hs | split]; cbn [PerlinNoise.seed PerlinNoise.gradients PerlinNoise.memory PerlinNoise.set_memory].
  - exact Hg.
  - intros x' y' v. rewrite lookup_cons.
    destruct (Key.eqb (Key.make x' y') (Key.make x y)) eqn:K.
    + intros G. injection G as <-.
      apply key_eqb_eq, key_make_eq in K. destruct K as [Kx Ky].
      symmetry. apply get_pure_same_text; assumption.
    + apply Hm.
Qed.

Lemma get_computes (x y : float) :
  computes (inv Math sd) (PerlinNoise.get Math x y) (PerlinNoise.get_pure Math sd x y).
Proof.
  intros n Hn. pose proof Hn as (Hs & Hg & Hm).
  unfold PerlinNoise.get. apply runs_getThis.
  destruct (Key.lookup (Key.make x y) (PerlinNoise.memory n)) as [v |] eqn:E.
  - destruct (truthy v).
    + rewrite (Hm x y v E). apply runs_ret, Hn.
    + apply get_miss_computes, Hn.
  - apply get_miss_computes, Hn.
Qed.

Lemma run_call_inv (n : PerlinNoise.t) (c : call) :
  inv Math sd n -> inv Math sd (run_call Math n c).
Proof.
  intros Hn. destruct c as [x y | ix iy | ix iy x y]; simpl.
  - destruct (get_computes x y n Hn) as (n' & -> & H). exact H.
  - destruct (getRandomGradient_computes ix iy n Hn) as (n' & -> & H). exact H.
  - destruct (dotGridGradient_computes ix iy x y n Hn) as (n' & -> & H). exact H.
Qed.

Lemma after_inv (history : list call) : inv Math sd (after Math sd history).
Proof.
  unfold after. generalize (PerlinNoise.new sd), noise_inv_new.
  induction history as [| c h IH]; intros n Hn; simpl.
  - exact Hn.
  - apply IH, run_call_inv, Hn.
Qed.

End Methods.
End NoiseFacts.

(* ------------------------------------------------------------------ *)
(** ** PerturbationUtils: every method is a function of the point *)

Module PerturbFacts.
Open Scope float_scope.
Import JSMath.

Section Methods.
Variable Math : JSMath.lib.
Variable p0 : PerturbationUtils.t.

Local Abbreviation I := (PerturbSpec.inv Math p0).

Lemma noise_get_computes (x y : float) :
  computes I (PerturbationUtils.noise_get Math x y) (PerturbSpec.primary Math p0 x y).
Proof.
  unfold PerturbationUtils.noise_get.
  eapply computes_zoom; [| | apply NoiseFacts.get_computes].
  - intros s H. apply H.
  - intros s n H Hn. unfold PerturbSpec.inv in *. simpl. tauto.
Qed.

Lemma secondaryNoise_get_computes (x y : float) :
  computes I (PerturbationUtils.secondaryNoise_get Math x y)
           (PerturbSpec.secondary Math p0 x y).
Proof.
  unfold PerturbationUtils.secondaryNoise_get.
  eapply computes_zoom; [| | apply NoiseFacts.get_computes].
  - intros s H. apply H.
  - intros s n H Hn. unfold PerturbSpec.inv in *. simpl. tauto.
Qed.

(** A method body, once [this] is read in a state of the invariant: the
    settings are those of [p0], and each call of a noise field gives the value
    of the cache-free computation. *)
Ltac settings s Hs :=
  apply runs_getThis;
  let H := fresh "H" in
  pose proof Hs as H;
  destruct H as (_ & _ & E1 & E2 & E3 & E4 & E5 & E6 & E7 & E8);
  rewrite ?E1, ?E2, ?E3, ?E4, ?E5, ?E6, ?E7, ?E8;
  clear E1 E2 E3 E4 E5 E6 E7 E8;
  revert s Hs.

Ltac noise_steps :=
  repeat (eapply computes_bind;
          [first [apply noise_get_computes | apply secondaryNoise_get_computes] |]);
  apply computes_ret.

Lemma perturbXZ_computes (x z : float) :
  computes I (PerturbationUtils.perturbXZ Math x z) (PerturbSpec.perturbXZ_pure Math p0 x z).
Proof.
  intros s Hs. unfold PerturbationUtils.perturbXZ. settings s Hs. noise_steps.
Qed.

Lemma perturbY_computes (x y z : float) :
  computes I (PerturbationUtils.perturbY Math x y z) (PerturbSpec.perturbY_pure Math p0 x y z).
Proof.
  intros s Hs. unfold PerturbationUtils.perturbY. settings s Hs. noise_steps.
Qed.

Lemma getElevation_computes (x z : float) :
  computes I (PerturbationUtils.getElevation Math x z)
           (PerturbSpec.getElevation_pure Math p0 x z).
Proof.
  intros s Hs. unfold PerturbationUtils.getElevation. settings s Hs. noise_steps.
Qed.

End Methods.
End PerturbFacts.

(* ------------------------------------------------------------------ *)
(** ** HexUtils *)

Module HexUtilsFacts.
Open Scope float_scope.
Import JSMath Directions.

Section Methods.
Variable Math : JSMath.lib.
Variable u0 : HexUtils.t.

Local Abbreviation I := (HexUtilsSpec.inv Math u0).

Lemma perturb_zoom {A} (m : M PerturbationUtils.t A) (a : A) :
  computes (PerturbSpec.inv Math u0.(HexUtils.perturbUtils)) m a ->
  computes I (zoom HexUtils.perturbUtils HexUtils.set_perturbUtils m) a.
Proof.
  apply computes_zoom.
  - intros s H. apply H.
  - intros s p H Hp. unfold HexUtilsSpec.inv in *. simpl. tauto.
Qed.

Ltac settings s Hs :=
  apply runs_getThis;
  let H := fresh "H" in
  pose proof Hs as H;
  destruct H as (_ & E1 & E2 & E3 & E4);
  rewrite ?E1, ?E2, ?E3, ?E4;
  clear E1 E2 E3 E4;
  revert s Hs.

Lemma getHexVertex_computes (centerX centerZ : float) (i : nat) :
  computes I (HexUtils.getHexVertex Math centerX centerZ i)
           (HexUtilsSpec.getHexVertex_pure Math u0 centerX centerZ i).
Proof.
  intros s Hs. unfold HexUtils.getHexVertex. settings s Hs.
  unfold HexUtilsSpec.getHexVertex_pure, HexUtilsSpec.rimHeight.
  eapply computes_bind; [apply perturb_zoom, PerturbFacts.perturbXZ_computes |].
  destruct (PerturbSpec.perturbXZ_pure _ _ _ _) as [px pz].
  eapply computes_bind; [apply perturb_zoom, PerturbFacts.getElevation_computes |].
  eapply computes_bind; [apply perturb_zoom, PerturbFacts.perturbY_computes |].
  apply computes_ret.
Qed.

Lemma generateHexVertices_computes (centerX centerZ : float) :
  computes I (HexUtils.generateHexVertices Math centerX centerZ)
           (HexUtilsSpec.generateHexVertices_pure Math u0 centerX centerZ).
Proof.
  apply computes_mapM. intros i _. apply getHexVertex_computes.
Qed.

Lemma getNeighbor_computes (h : HexUtils.hex) (direction : string) (coords : Z * Z) :
  HexUtils.getNeighborCoords h.(HexUtils.gridCoords) direction = Some coords ->
  computes I (HexUtils.getNeighbor Math h direction) (HexUtilsSpec.hexAt Math u0 coords).
Proof.
  intros E s Hs. unfold HexUtils.getNeighbor. rewrite E.
  destruct coords as [col row]. settings s Hs.
  unfold HexUtilsSpec.hexAt, HexUtilsSpec.centerOf. cbn [fst snd].
  eapply computes_bind; [apply perturb_zoom, PerturbFacts.getElevation_computes |].
  eapply computes_bind; [apply perturb_zoom, PerturbFacts.perturbY_computes |].
  eapply computes_bind; [apply generateHexVertices_computes |].
  apply computes_ret.
Qed.

End Methods.
End HexUtilsFacts.

(* ------------------------------------------------------------------ *)
(** ** The mesh-building HexGenerator *)

Lemma index_nth {S A} (l : list A) (i : nat) (d : A) :
  (i < List.length l)%nat -> @index S A l i = ret (nth i l d).
Proof.
  intros H. unfold index.
  destruct (nth_error l i) as [a |] eqn:E.
  - rewrite (nth_error_nth l i d E). reflexivity.
  - apply nth_error_None in E. lia.
Qed.

Lemma computes_foldM {S A B} (I : S -> Prop) (f : B -> A -> M S B) (g : B -> A -> B) l :
  (forall b a, In a l -> computes I (f b a) (g b a)) ->
  forall b, computes I (foldM f l b) (fold_left g l b).
Proof.
  induction l as [| a l IH]; intros H b; simpl.
  - apply computes_ret.
  - eapply computes_bind; [apply H; left; reflexivity |].
    apply IH. intros; apply H; right; assumption.
Qed.

Module MeshFacts.
Open Scope float_scope.
Import JSMath Directions MeshSpec.

Section Methods.
Variable Math : JSMath.lib.
Variable g0 : HexMeshGenerator.t.

Local Abbreviation I := (MeshSpec.inv Math g0).
Local Abbreviation u0 := (g0.(HexMeshGenerator.hexUtils)).

Lemma hexUtils_zoom {A} (m : M HexUtils.t A) (a : A) :
  computes (HexUtilsSpec.inv Math u0) m a ->
  computes I (zoom HexMeshGenerator.hexUtils HexMeshGenerator.set_hexUtils m) a.
Proof.
  apply computes_zoom.
  - intros s H. apply H.
  - intros s p H Hp. unfold MeshSpec.inv in *. simpl. tauto.
Qed.

Lemma perturbUtils_zoom {A} (m : M PerturbationUtils.t A) (a : A) :
  computes (PerturbSpec.inv Math g0.(HexMeshGenerator.perturbUtils)) m a ->
  computes I (zoom HexMeshGenerator.perturbUtils HexMeshGenerator.set_perturbUtils m) a.
Proof.
  apply computes_zoom.
  - intros s H. apply H.
  - intros s p H Hp. unfold MeshSpec.inv in *. simpl. tauto.
Qed.

Lemma generateHexVertices_length (u : HexUtils.t) (cx cz : float) :
  List.length (HexUtilsSpec.generateHexVertices_pure Math u cx cz) = 6%nat.
Proof. reflexivity. Qed.

Lemma hexAt_vertices_length (u : HexUtils.t) (c : Z * Z) :
  List.length (HexUtilsSpec.hexAt Math u c).(HexUtils.vertices) = 6%nat.
Proof. reflexivity. Qed.

Lemma skirtStep_computes (h : HexUtils.hex) (b : buffers) (direction : string) :
  In direction skirtDirections ->
  List.length h.(HexUtils.vertices) = 6%nat ->
  computes I (HexMeshGenerator.skirtStep Math h b direction)
           (skirtStep_pure h.(HexUtils.vertices)
              (neighborVerticesOf Math g0 h.(HexUtils.gridCoords)) b direction).
Proof.
  intros Hd Hlen.
  destruct (HexUtils.gridCoords h) as [col row] eqn:Hc.
  unfold HexMeshGenerator.skirtStep, skirtStep_pure, neighborVerticesOf.
  simpl in Hd.
  destruct Hd as [<- | [<- | [<- | []]]];
    (eapply computes_bind;
     [apply hexUtils_zoom, HexUtilsFacts.getNeighbor_computes; rewrite Hc; reflexivity |];
     eapply computes_bind; [apply computes_ret |];
     eapply computes_bind; [apply computes_ret |]; cbv beta iota;
     rewrite !(index_nth _ _ origin) by (rewrite Hlen; repeat constructor);
     eapply computes_bind; [apply computes_ret |];
     eapply computes_bind; [apply computes_ret |];
     eapply computes_bind; [apply computes_ret |]; cbv beta iota;
     rewrite !(index_nth _ _ origin) by (rewrite hexAt_vertices_length; repeat constructor);
     eapply computes_bind; [apply computes_ret |];
     eapply computes_bind; [apply computes_ret |];
     eapply computes_bind; [apply computes_ret |];
     eapply computes_bind;
     [apply hexUtils_zoom, HexUtilsFacts.getNeighbor_computes; rewrite Hc; reflexivity |];
     eapply computes_bind; [apply computes_ret |];
     eapply computes_bind; [apply computes_ret |]; cbv beta iota;
     rewrite !(index_nth _ _ origin) by (rewrite hexAt_vertices_length; repeat constructor);
     eapply computes_bind; [apply computes_ret |];
     apply computes_ret).
Qed.

Lemma createHexGeometry_computes (h : HexUtils.hex) :
  List.length h.(HexUtils.vertices) = 6%nat ->
  computes I (HexMeshGenerator.createHexGeometry Math h)
           (geometry_pure Math h.(HexUtils.center) h.(HexUtils.vertices)
              (neighborVerticesOf Math g0 h.(HexUtils.gridCoords))).
Proof.
  intros Hlen. unfold HexMeshGenerator.createHexGeometry, geometry_pure.
  destruct (HexUtils.center h) as [[centerX centerY] centerZ].
  rewrite (index_nth _ _ origin) by (rewrite Hlen; repeat constructor).
  eapply computes_bind; [apply computes_ret |].
  apply computes_foldM. intros b d Hd. apply skirtStep_computes; assumption.
Qed.

Lemma createHexMesh_computes (h : HexUtils.hex) :
  List.length h.(HexUtils.vertices) = 6%nat ->
  computes I (HexMeshGenerator.createHexMesh Math h) (mesh_of Math g0 h).
Proof.
  intros Hlen. unfold HexMeshGenerator.createHexMesh.
  eapply computes_bind; [apply createHexGeometry_computes, Hlen |].
  apply computes_ret.
Qed.

Lemma renderCell_computes (cell : Z * Z) :
  computes I (HexMeshGenerator.renderCell Math cell) (mesh_pure Math g0 cell).
Proof.
  intros s Hs. unfold HexMeshGenerator.renderCell. destruct cell as [col row].
  apply runs_getThis.
  pose proof Hs as (_ & _ & _ & E1 & E2). rewrite E1, E2. clear E1 E2.
  revert s Hs.
  unfold mesh_pure, cell_pure, cellCenter. cbn [fst snd].
  eapply computes_bind; [apply perturbUtils_zoom, PerturbFacts.getElevation_computes |].
  eapply computes_bind; [apply perturbUtils_zoom, PerturbFacts.perturbY_computes |].
  eapply computes_bind;
    [apply hexUtils_zoom, HexUtilsFacts.generateHexVertices_computes |].
  apply createHexMesh_computes. reflexivity.
Qed.

Lemma renderGrid_computes :
  computes I (HexMeshGenerator.renderGrid Math)
           (map (mesh_pure Math g0) (cells g0.(HexMeshGenerator.gridSize))).
Proof.
  intros s Hs. unfold HexMeshGenerator.renderGrid. apply runs_getThis.
  pose proof Hs as (_ & _ & E & _). rewrite E. clear E. revert s Hs.
  apply computes_mapM. intros cell _. apply renderCell_computes.
Qed.

End Methods.

(** A generator is in its own invariant when it is constructed. *)
Lemma generator_inv_new (Math : JSMath.lib) (gridSize : Z)
    (hexSize hexGap r1 r2 r3 r4 : float) :
  let g0 := HexMeshGenerator.new gridSize hexSize hexGap r1 r2 r3 r4 in
  MeshSpec.inv Math g0 g0.
Proof.
  intros g0. unfold MeshSpec.inv, HexUtilsSpec.inv, PerturbSpec.inv.
  repeat split; simpl; intros; discriminate.
Qed.

End MeshFacts.

(* ------------------------------------------------------------------ *)
(** ** The layout of a generated geometry *)

Module LayoutFacts.
Open Scope float_scope.
Import JSMath Directions MeshSpec.

Lemma range_spec (n z : Z) : In z (range n) <-> (0 <= z < n)%Z.
Proof.
  unfold range. rewrite in_map_iff. split.
  - intros (i & <- & Hi). apply in_seq in Hi. lia.
  - intros H. exists (Z.to_nat z). split; [lia |]. apply in_seq. lia.
Qed.

Lemma cells_spec (n : Z) (c : Z * Z) : In c (cells n) <-> inGrid n c = true.
Proof.
  unfold cells, inGrid. rewrite in_flat_map. destruct c as [col row]. simpl.
  rewrite !andb_true_iff, !Z.leb_le, !Z.ltb_lt. split.
  - intros (r & Hr & Hc). apply in_map_iff in Hc. destruct Hc as (c & E & Hc).
    injection E as <- <-. apply range_spec in Hr, Hc. lia.
  - intros H. exists row. split; [apply range_spec; lia |].
    apply in_map_iff. exists col. split; [reflexivity | apply range_spec; lia].
Qed.

(** A list of six elements, spelled out. *)
Ltac six l H :=
  destruct l as [| ? [| ? [| ? [| ? [| ? [| ? [| ? ?]]]]]]]; try discriminate H; clear H.

Ltac split_vertices :=
  repeat match goal with v : vec3 |- _ => destruct v as [[? ?] ?] end.

Lemma geometry_rim (Math : JSMath.lib) (center : vec3) (vs : list vec3)
    (nb : string -> list vec3) (i : nat) :
  List.length vs = 6%nat ->
  (forall d, In d directions -> List.length (nb d) = 6%nat) ->
  (i < 6)%nat ->
  vertexAt (geometry_pure Math center vs nb).(positions) (1 + i)
  = Some (nth i vs origin).
Proof.
  intros Hvs Hnb Hi.
  pose proof (Hnb "SE"%string ltac:(simpl; tauto)) as H1.
  pose proof (Hnb "S"%string ltac:(simpl; tauto)) as H2.
  pose proof (Hnb "SW"%string ltac:(simpl; tauto)) as H3.
  pose proof (Hnb "NW"%string ltac:(simpl; tauto)) as H4.
  unfold geometry_pure. destruct center as [[cx cy] cz].
  unfold skirtDirections, fold_left, skirtStep_pure.
  cbv [entryOf prop String.eqb Ascii.eqb Bool.eqb oppositeDirection edgeVertexMap
       clockwiseDirection].
  six vs Hvs.
  six (nb "SE"%string) H1. six (nb "S"%string) H2.
  six (nb "SW"%string) H3. six (nb "NW"%string) H4.
  split_vertices.
  do 6 (destruct i as [| i]; [reflexivity |]). lia.
Qed.

Lemma geometry_skirt (Math : JSMath.lib) (center : vec3) (vs : list vec3)
    (nb : string -> list vec3) (k : nat) (d od : string) (e1 e2 o1 o2 : nat) :
  List.length vs = 6%nat ->
  (forall d, In d directions -> List.length (nb d) = 6%nat) ->
  nth_error skirtDirections k = Some d ->
  prop d edgeVertexMap = Some (e1, e2) ->
  prop d oppositeDirection = Some od ->
  prop od edgeVertexMap = Some (o1, o2) ->
  let b := geometry_pure Math center vs nb in
  let at_ j := vertexAt b.(positions) (7 + 9 * k + j) in
  (e1 < 6 /\ e2 < 6 /\ o1 < 6 /\ o2 < 6)%nat
  /\ at_ 0%nat = Some (nth e1 vs origin)
  /\ at_ 1%nat = Some (nth e2 vs origin)
  /\ at_ 2%nat = Some (nth o1 (nb d) origin)
  /\ at_ 3%nat = Some (nth e1 vs origin)
  /\ at_ 4%nat = Some (nth o1 (nb d) origin)
  /\ at_ 5%nat = Some (nth o2 (nb d) origin)
  /\ triangleAt b.(indices) (6 + 3 * k)
     = Some (7 + 9 * k, 7 + 9 * k + 1, 7 + 9 * k + 2)%nat
  /\ triangleAt b.(indices) (6 + 3 * k + 1)
     = Some (7 + 9 * k + 3, 7 + 9 * k + 4, 7 + 9 * k + 5)%nat.
Proof.
  intros Hvs Hnb Hk He Ho Hoe.
  pose proof (Hnb "SE"%string ltac:(simpl; tauto)) as H1.
  pose proof (Hnb "S"%string ltac:(simpl; tauto)) as H2.
  pose proof (Hnb "SW"%string ltac:(simpl; tauto)) as H3.
  pose proof (Hnb "NW"%string ltac:(simpl; tauto)) as H4.
  unfold geometry_pure. destruct center as [[cx cy] cz].
  unfold skirtDirections, fold_left, skirtStep_pure.
  cbv [entryOf prop String.eqb Ascii.eqb Bool.eqb oppositeDirection edgeVertexMap
       clockwiseDirection].
  do 3 (destruct k as [| k];
        [ injection Hk as <-;
          vm_compute in He; injection He as <- <-;
          vm_compute in Ho; injection Ho as <-;
          vm_compute in Hoe; injection Hoe as <- <-;
          six vs Hvs;
          six (nb "SE"%string) H1; six (nb "S"%string) H2;
          six (nb "SW"%string) H3; six (nb "NW"%string) H4;
          split_vertices;
          cbv zeta; repeat split; repeat constructor |]).
  destruct k; discriminate Hk.
Qed.

Lemma table_entries (d : string) :
  In d directions ->
  exists e1 e2 od o1 o2,
    prop d edgeVertexMap = Some (e1, e2)
    /\ prop d oppositeDirection = Some od
    /\ prop od edgeVertexMap = Some (o1, o2).
Proof.
  simpl. intros [<- | [<- | [<- | [<- | [<- | [<- | []]]]]]];
    do 5 eexists; repeat split.
Qed.

Lemma table_direction_step (coords : Z * Z) (d : string) :
  In d directions -> exists c, step coords d = Some c.
Proof.
  destruct coords as [col row]. simpl.
  intros [<- | [<- | [<- | [<- | [<- | [<- | []]]]]]]; eexists; reflexivity.
Qed.

Section Grid.
Variable Math : JSMath.lib.
Variables (gridSize : Z) (hexSize hexGap r1 r2 r3 r4 : float).

Local Abbreviation g0 := (HexMeshGenerator.new gridSize hexSize hexGap r1 r2 r3 r4).
Local Abbreviation u0 := (HexUtils.new gridSize hexSize hexGap r1 r2).

(** The grid pass and [getNeighbor] place a cell at the same centre. *)
Lemma centers_agree (c : Z * Z) :
  cellCenter g0 c = HexUtilsSpec.centerOf u0 c.
Proof.
  unfold cellCenter, HexUtilsSpec.centerOf. simpl.
  rewrite (FloatFacts.mul_comm 2 (hexSize - hexGap)). reflexivity.
Qed.

Lemma neighbor_rim_length (c : Z * Z) (d : string) :
  In d directions -> List.length (neighborVerticesOf Math g0 c d) = 6%nat.
Proof.
  intros Hd. unfold neighborVerticesOf, HexUtils.getNeighborCoords.
  destruct (table_direction_step c d Hd) as [n ->]. reflexivity.
Qed.

Local Abbreviation rimOf := (MeshSpec.rimOf Math u0).

Lemma mesh_geometry (c : Z * Z) :
  exists center,
    (mesh_pure Math g0 c).(geometry)
    = geometry_pure Math center (rimOf c) (neighborVerticesOf Math g0 c).
Proof.
  unfold mesh_pure, cell_pure, MeshSpec.rimOf. rewrite centers_agree.
  destruct (HexUtilsSpec.centerOf u0 c) as [cx cz]. destruct c as [col row].
  eexists. reflexivity.
Qed.

Lemma mesh_coords (c : Z * Z) : (mesh_pure Math g0 c).(userCoords) = c.
Proof.
  unfold mesh_pure, cell_pure. destruct (cellCenter g0 c). destruct c. reflexivity.
Qed.

Lemma neighbor_rim (c n : Z * Z) (d : string) :
  HexUtils.getNeighborCoords c d = Some n ->
  neighborVerticesOf Math g0 c d = rimOf n.
Proof.
  intros E. unfold neighborVerticesOf. rewrite E.
  unfold HexUtilsSpec.hexAt, MeshSpec.rimOf.
  change (HexMeshGenerator.hexUtils g0) with u0.
  destruct (HexUtilsSpec.centerOf u0 n). reflexivity.
Qed.

Lemma mesh_rim (c : Z * Z) (i : nat) :
  (i < 6)%nat -> rimVertex (mesh_pure Math g0 c) i = Some (nth i (rimOf c) origin).
Proof.
  intros Hi. unfold rimVertex. destruct (mesh_geometry c) as [center ->].
  apply geometry_rim; [reflexivity | apply neighbor_rim_length | exact Hi].
Qed.

Lemma mesh_seam (c n : Z * Z) (k : nat) (d : string) :
  nth_error skirtDirections k = Some d ->
  HexUtils.getNeighborCoords c d = Some n ->
  seam_closed (mesh_pure Math g0 c) (mesh_pure Math g0 n) k d.
Proof.
  intros Hk Hn.
  assert (Hd : In d directions).
  { do 3 (destruct k as [| k]; [injection Hk as <-; simpl; tauto |]).
    destruct k; discriminate Hk. }
  destruct (table_entries d Hd) as (e1 & e2 & od & o1 & o2 & He & Ho & Hoe).
  destruct (mesh_geometry c) as [center G].
  pose proof (geometry_skirt Math center (rimOf c) (neighborVerticesOf Math g0 c)
                k d od e1 e2 o1 o2 eq_refl (fun d' => neighbor_rim_length c d')
                Hk He Ho Hoe) as L.
  cbv zeta in L. rewrite <- G in L. rewrite (neighbor_rim c n d Hn) in L.
  destruct L as ((B1 & B2 & B3 & B4) & L0 & L1 & L2 & L3 & L4 & L5 & T0 & T1).
  exists e1, e2, od, o1, o2.
  exists (nth e1 (rimOf c) origin), (nth e2 (rimOf c) origin),
         (nth o1 (rimOf n) origin), (nth o2 (rimOf n) origin).
  unfold skirtVertex.
  repeat split; try assumption; apply mesh_rim; assumption.
Qed.

End Grid.

End LayoutFacts.

(* ================================================================== *)
(** * The claims *)

Module Claims.
Open Scope string_scope.
Open Scope float_scope.
Import JSMath Directions.

(** C9 (memoization transparency).  Whatever calls were made before on a
    noise field, [get(x, y)] returns, and what it returns is the value of the
    computation without caches: a stored value that is not truthy is computed
    again and comes out the same, and a stored value that is truthy is the
    one the computation gives. *)
Theorem get_is_cache_free (Math : JSMath.lib) (seed : float)
    (history : list NoiseSpec.call) (x y : float) :
  value (PerlinNoise.get Math x y (NoiseSpec.after Math seed history))
  = Some (PerlinNoise.get_pure Math seed x y).
Proof.
  eapply computes_value.
  - apply NoiseFacts.get_computes.
  - apply NoiseFacts.after_inv.
Qed.

(** *** C4: the heights of a rim *)

Lemma HexUtils_inv_new (Math : JSMath.lib) (gridSize : Z) (hexSize hexGap r1 r2 : float) :
  let u0 := HexUtils.new gridSize hexSize hexGap r1 r2 in
  HexUtilsSpec.inv Math u0 u0.
Proof.
  intros u0. unfold HexUtilsSpec.inv, PerturbSpec.inv.
  repeat split; simpl; intros; discriminate.
Qed.

Lemma rim_heights (Math : JSMath.lib) (u : HexUtils.t) (cx cz : float) :
  Forall (fun v => RimSpec.height v = HexUtilsSpec.rimHeight Math u cx cz)
         (HexUtilsSpec.generateHexVertices_pure Math u cx cz).
Proof.
  unfold HexUtilsSpec.generateHexVertices_pure. apply Forall_map.
  apply Forall_forall. intros i _.
  unfold HexUtilsSpec.getHexVertex_pure.
  destruct (PerturbSpec.perturbXZ_pure _ _ _ _). reflexivity.
Qed.

(** C4, as amended.  In every state of a [HexUtils], [generateHexVertices]
    returns six vertices which all have one height, the perturbed elevation of
    the cell's centre; and in the hex [getNeighbor] returns for a direction of
    the table, that height is the height of the centre and the elevation. *)
Theorem rim_heights_are_equal (Math : JSMath.lib) (u0 u : HexUtils.t)
    (cx cz : float) (h : HexUtils.hex) (d : string) :
  HexUtilsSpec.inv Math u0 u ->
  In d directions ->
  (exists vs u',
      HexUtils.generateHexVertices Math cx cz u = Returned (vs, u')
      /\ List.length vs = 6%nat
      /\ Forall (fun v => RimSpec.height v = HexUtilsSpec.rimHeight Math u0 cx cz) vs)
  /\ (exists n u',
        HexUtils.getNeighbor Math h d u = Returned (n, u')
        /\ List.length n.(HexUtils.vertices) = 6%nat
        /\ n.(HexUtils.elevation) = RimSpec.height n.(HexUtils.center)
        /\ Forall (fun v => RimSpec.height v = RimSpec.height n.(HexUtils.center))
                  n.(HexUtils.vertices)).
Proof.
  intros Hu Hd. split.
  - destruct (HexUtilsFacts.generateHexVertices_computes Math u0 cx cz u Hu)
      as (u' & E & _).
    eexists _, u'. split; [exact E |]. split; [reflexivity | apply rim_heights].
  - destruct (LayoutFacts.table_direction_step h.(HexUtils.gridCoords) d Hd) as [c Hc].
    destruct (HexUtilsFacts.getNeighbor_computes Math u0 h d c Hc u Hu) as (u' & E & _).
    eexists _, u'. split; [exact E |].
    unfold HexUtilsSpec.hexAt.
    destruct (HexUtilsSpec.centerOf u0 c) as [x z].
    split; [reflexivity |]. split; [reflexivity |]. apply rim_heights.
Qed.

Lemma rim_heights_are_equal_witness :
  let u0 := HexUtils.new 16 1 0.1 0.25 0.75 in
  HexUtilsSpec.inv RefMath.math u0 u0
  /\ In "SE"%string directions
  /\ ((exists vs u',
         HexUtils.generateHexVertices RefMath.math 1.45 0.88 u0 = Returned (vs, u')
         /\ List.length vs = 6%nat
         /\ Forall (fun v => RimSpec.height v
                             = HexUtilsSpec.rimHeight RefMath.math u0 1.45 0.88) vs)
      /\ (exists n u',
            HexUtils.getNeighbor RefMath.math (RimSpec.hexWithCoords (0, 0)%Z) "SE" u0
            = Returned (n, u')
            /\ List.length n.(HexUtils.vertices) = 6%nat
            /\ n.(HexUtils.elevation) = RimSpec.height n.(HexUtils.center)
            /\ Forall (fun v => RimSpec.height v = RimSpec.height n.(HexUtils.center))
                      n.(HexUtils.vertices))).
Proof.
  intros u0.
  assert (Hinv : HexUtilsSpec.inv RefMath.math u0 u0) by apply HexUtils_inv_new.
  assert (Hd : In "SE"%string directions) by (simpl; tauto).
  split; [exact Hinv |]. split; [exact Hd |].
  exact (rim_heights_are_equal RefMath.math u0 u0 1.45 0.88
           (RimSpec.hexWithCoords (0, 0)%Z) "SE" Hinv Hd).
Defined.

(** C4, the claim as stated, fails.  For the cell south-east of the origin
    of a 16 by 16 grid (hex size 1, gap 0.1), the six rim heights are not
    pairwise distinct: all six are the height of the centre. *)
Lemma rim_heights_not_distinct :
  option_map
    (fun n =>
       (RimSpec.pairwise_distinct (map RimSpec.height n.(HexUtils.vertices)),
        RimSpec.all_equal_to (RimSpec.height n.(HexUtils.center))
                             (map RimSpec.height n.(HexUtils.vertices))))
    (value (HexUtils.getNeighbor RefMath.math (RimSpec.hexWithCoords (0, 0)%Z) "SE"
              (HexUtils.new 16 1 0.1 0.25 0.75)))
  = Some (false, true).
Proof. vm_compute. reflexivity. Qed.

(** *** C10: the biome index of a recomputed neighbour *)

(** The hex [getNeighbor] recomputes for the cell south-east of the origin,
    and the mesh the grid pass builds for the same cell when every noise
    field of the generator is seeded alike. *)
Definition example_neighbor : option HexUtils.hex :=
  value (HexUtils.getNeighbor RefMath.math (RimSpec.hexWithCoords (0, 0)%Z) "SE"
           (HexUtils.new 2 1 0.1 0.25 0.75)).

Definition example_grid_mesh : option mesh :=
  match value (HexMeshGenerator.renderGrid RefMath.math
                 (HexMeshGenerator.new 2 1 0.1 0.25 0.75 0.25 0.75)) with
  | Some ms => nth_error ms 1
  | None => None
  end.

(** C10.  For every hex and every direction of the table, [getNeighbor]
    returns a hex whose [biomeIndex] is the floor of four times the elevation
    [getElevation] gives at the neighbour's centre, while its [elevation] and
    the height of its [center] are that elevation passed through [perturbY].
    The two differ in general: for the cell at (1, 0) of a 2 by 2 grid the
    returned [biomeIndex] is -1, the floor of four times the stored elevation
    is -2, and -2 is also what the grid pass assigns to that cell. *)
Theorem neighbor_biome_from_unperturbed_elevation :
  (forall (Math : JSMath.lib) (u0 u : HexUtils.t) (h : HexUtils.hex) (d : string),
      HexUtilsSpec.inv Math u0 u ->
      In d directions ->
      exists c n u',
        HexUtils.getNeighborCoords h.(HexUtils.gridCoords) d = Some c
        /\ HexUtils.getNeighbor Math h d u = Returned (n, u')
        /\ n.(HexUtils.gridCoords) = c
        /\ let '(cx, cz) := HexUtilsSpec.centerOf u0 c in
           let e := PerturbSpec.getElevation_pure Math u0.(HexUtils.perturbUtils) cx cz in
           let pe := PerturbSpec.perturbY_pure Math u0.(HexUtils.perturbUtils) cx e cz in
           n.(HexUtils.biomeIndex) = floor (e * 4)
           /\ n.(HexUtils.biomeIndex) = floor (4 * e)
           /\ n.(HexUtils.elevation) = pe
           /\ n.(HexUtils.center) = (cx, pe, cz))
  /\ option_map
       (fun n => (n.(HexUtils.gridCoords), n.(HexUtils.biomeIndex),
                  floor (n.(HexUtils.elevation) * 4),
                  n.(HexUtils.biomeIndex) =? floor (n.(HexUtils.elevation) * 4)))
       example_neighbor
     = Some ((1, 0)%Z, -1, -2, false)
  /\ option_map
       (fun m => (m.(userCoords), m.(userBiomeIndex),
                  PerturbationUtils.getBiomeIndex m.(userElevation) 4))
       example_grid_mesh
     = Some ((1, 0)%Z, -2, -2).
Proof.
  split; [| split; vm_compute; reflexivity].
  intros Math u0 u h d Hu Hd.
  destruct (LayoutFacts.table_direction_step h.(HexUtils.gridCoords) d Hd) as [c Hc].
  destruct (HexUtilsFacts.getNeighbor_computes Math u0 h d c Hc u Hu) as (u' & E & _).
  exists c. eexists _, u'. split; [exact Hc |]. split; [exact E |].
  unfold HexUtilsSpec.hexAt. destruct c as [col row].
  destruct (HexUtilsSpec.centerOf u0 (col, row)) as [cx cz].
  cbn [HexUtils.gridCoords HexUtils.biomeIndex HexUtils.elevation HexUtils.center fst snd].
  repeat split. apply f_equal, FloatFacts.mul_comm.
Qed.

Lemma neighbor_biome_witness :
  let u0 := HexUtils.new 2 1 0.1 0.25 0.75 in
  let h := RimSpec.hexWithCoords (0, 0)%Z in
  HexUtilsSpec.inv RefMath.math u0 u0
  /\ In "SE"%string directions
  /\ exists c n u',
      HexUtils.getNeighborCoords h.(HexUtils.gridCoords) "SE" = Some c
      /\ HexUtils.getNeighbor RefMath.math h "SE" u0 = Returned (n, u')
      /\ n.(HexUtils.gridCoords) = c
      /\ let '(cx, cz) := HexUtilsSpec.centerOf u0 c in
         let e :=
           PerturbSpec.getElevation_pure RefMath.math u0.(HexUtils.perturbUtils) cx cz in
         let pe :=
           PerturbSpec.perturbY_pure RefMath.math u0.(HexUtils.perturbUtils) cx e cz in
         n.(HexUtils.biomeIndex) = floor (e * 4)
         /\ n.(HexUtils.biomeIndex) = floor (4 * e)
         /\ n.(HexUtils.elevation) = pe
         /\ n.(HexUtils.center) = (cx, pe, cz).
Proof.
  intros u0 h.
  assert (Hinv : HexUtilsSpec.inv RefMath.math u0 u0) by apply HexUtils_inv_new.
  assert (Hd : In "SE"%string directions) by (simpl; tauto).
  split; [exact Hinv |]. split; [exact Hd |].
  exact (proj1 neighbor_biome_from_unperturbed_elevation RefMath.math u0 u0 h "SE" Hinv Hd).
Defined.

(** *** C6: opposite directions and the way back *)

Lemma odd_column_succ (col : Z) :
  (0 <= col)%Z -> (Z.rem (col + 1) 2 =? 1)%Z = negb (Z.rem col 2 =? 1)%Z.
Proof.
  intros H.
  pose proof (Z.quot_rem' col 2). pose proof (Z.quot_rem' (col + 1) 2).
  pose proof (Z.rem_bound_pos col 2 ltac:(lia) ltac:(lia)).
  pose proof (Z.rem_bound_pos (col + 1) 2 ltac:(lia) ltac:(lia)).
  destruct (Z.rem col 2 =? 1)%Z eqn:P; simpl;
    [apply Z.eqb_eq in P; apply Z.eqb_neq | apply Z.eqb_neq in P; apply Z.eqb_eq]; lia.
Qed.

Lemma odd_column_pred (col : Z) :
  (0 <= col - 1)%Z -> (Z.rem (col - 1) 2 =? 1)%Z = negb (Z.rem col 2 =? 1)%Z.
Proof.
  intros H. rewrite <- (negb_involutive (Z.rem (col - 1) 2 =? 1)%Z).
  rewrite <- odd_column_succ by lia. do 3 f_equal. lia.
Qed.

(** The table alone: stepping back from a neighbour in a column that is not
    negative. *)
Lemma step_back (c n : Z * Z) (d od : string) :
  In d directions ->
  (0 <= fst c)%Z -> (0 <= fst n)%Z ->
  step c d = Some n ->
  prop d oppositeDirection = Some od ->
  step n od = Some c.
Proof.
  destruct c as [col row], n as [ncol nrow]. simpl.
  intros [<- | [<- | [<- | [<- | [<- | [<- | []]]]]]] Hc Hn E O;
    injection O as <-; injection E as <- <-;
    cbn [step String.eqb Ascii.eqb Bool.eqb];
    rewrite ?odd_column_succ, ?odd_column_pred by lia;
    destruct (Z.rem col 2 =? 1)%Z; simpl; repeat f_equal; lia.
Qed.

Lemma checked_coords_in_grid (this : HexGenerator.t) (c n : Z * Z) (d : string) :
  step c d = Some n ->
  MeshSpec.inGrid this.(HexGenerator.gridSize) n = true ->
  HexGenerator.getNeighborCoords this c d = Some n.
Proof.
  intros E H. unfold HexGenerator.getNeighborCoords. rewrite E.
  destruct n as [ncol nrow]. unfold MeshSpec.inGrid in H. simpl in H.
  rewrite !andb_true_iff, !Z.leb_le, !Z.ltb_lt in H.
  replace ((ncol <? 0) || (ncol >=? HexGenerator.gridSize this)
           || (nrow <? 0) || (nrow >=? HexGenerator.gridSize this))%Z with false;
    [reflexivity |].
  symmetry. rewrite !orb_false_iff, !Z.geb_leb, !Z.ltb_ge, !Z.leb_gt. lia.
Qed.

Lemma in_grid_column (gridSize : Z) (c : Z * Z) :
  MeshSpec.inGrid gridSize c = true -> (0 <= fst c)%Z.
Proof.
  unfold MeshSpec.inGrid. rewrite !andb_true_iff, !Z.leb_le. tauto.
Qed.

Lemma opposite_entry (d : string) :
  In d directions ->
  exists od, prop d oppositeDirection = Some od
             /\ prop od oppositeDirection = Some d /\ In od directions.
Proof.
  simpl. intros [<- | [<- | [<- | [<- | [<- | [<- | []]]]]]];
    eexists; (split; [reflexivity |]); (split; [reflexivity |]); tauto.
Qed.

(** C6.  For every direction [d] of the table, the opposite of the opposite
    of [d] is [d]; and from a cell of the grid whose neighbour in direction
    [d] is a cell of the grid too, the neighbour's neighbour in the opposite
    direction is the cell itself.  This holds for the method of [HexUtils] and
    for the bounds-checked method of [HexGenerator], in even and in odd
    columns. *)
Theorem opposite_involution_and_round_trip (d : string) :
  In d directions ->
  exists od,
    prop d oppositeDirection = Some od
    /\ prop od oppositeDirection = Some d
    /\ forall (this : HexGenerator.t) (c n : Z * Z),
        MeshSpec.inGrid this.(HexGenerator.gridSize) c = true ->
        MeshSpec.inGrid this.(HexGenerator.gridSize) n = true ->
        HexUtils.getNeighborCoords c d = Some n ->
        HexUtils.getNeighborCoords n od = Some c
        /\ HexGenerator.getNeighborCoords this c d = Some n
        /\ HexGenerator.getNeighborCoords this n od = Some c.
Proof.
  intros Hd. destruct (opposite_entry d Hd) as (od & O & O' & Hod).
  exists od. split; [exact O |]. split; [exact O' |].
  intros this c n Hc Hn E. unfold HexUtils.getNeighborCoords in *.
  assert (B : step n od = Some c).
  { exact (step_back c n d od Hd (in_grid_column _ _ Hc) (in_grid_column _ _ Hn) E O). }
  split; [exact B |].
  split; apply checked_coords_in_grid; assumption.
Qed.

Lemma opposite_round_trip_witness :
  In "NE" directions
  /\ MeshSpec.inGrid 4 (1, 1)%Z = true
  /\ MeshSpec.inGrid 4 (2, 1)%Z = true
  /\ HexUtils.getNeighborCoords (1, 1)%Z "NE" = Some (2, 1)%Z
  /\ exists od,
      prop "NE" oppositeDirection = Some od
      /\ prop od oppositeDirection = Some "NE"
      /\ HexUtils.getNeighborCoords (2, 1)%Z od = Some (1, 1)%Z
      /\ HexGenerator.getNeighborCoords (HexGenerator.new 4 1 0.1 0.5) (1, 1)%Z "NE"
         = Some (2, 1)%Z
      /\ HexGenerator.getNeighborCoords (HexGenerator.new 4 1 0.1 0.5) (2, 1)%Z od
         = Some (1, 1)%Z.
Proof.
  assert (Hd : In "NE" directions) by (simpl; tauto).
  split; [exact Hd |]. split; [reflexivity |]. split; [reflexivity |].
  split; [reflexivity |].
  destruct (opposite_involution_and_round_trip "NE" Hd) as (od & O & O' & H).
  exists od. split; [exact O |]. split; [exact O' |].
  exact (H (HexGenerator.new 4 1 0.1 0.5) (1, 1)%Z (2, 1)%Z
           eq_refl eq_refl eq_refl).
Defined.

(** *** C5: bounds checking of neighbour coordinates *)

(** C5, the code against the claim.  The method of [HexGenerator] returns
    [null] whenever the table result is outside the grid; the method of
    [HexUtils] returns the table result for every direction of the table, so
    north of the origin of a 16 by 16 grid it returns [(0, -1)]. *)
Theorem neighbor_coords_bounds_check :
  (forall (this : HexGenerator.t) (c n : Z * Z) (d : string),
      step c d = Some n ->
      MeshSpec.inGrid this.(HexGenerator.gridSize) n = false ->
      HexGenerator.getNeighborCoords this c d = None)
  /\ (forall (c : Z * Z) (d : string),
        HexUtils.getNeighborCoords c d = step c d)
  /\ HexUtils.getNeighborCoords (0, 0)%Z "N" = Some (0, -1)%Z
  /\ MeshSpec.inGrid (HexUtils.new 16 1 0.1 0.25 0.75).(HexUtils.gridSize) (0, -1)%Z = false
  /\ HexGenerator.getNeighborCoords (HexGenerator.new 16 1 0.1 0.5) (0, 0)%Z "N" = None.
Proof.
  split; [| repeat split].
  intros this c [ncol nrow] d E H.
  unfold HexGenerator.getNeighborCoords. rewrite E.
  unfold MeshSpec.inGrid in H. simpl in H.
  destruct (ncol <? 0)%Z eqn:A; [reflexivity |].
  destruct (ncol >=? HexGenerator.gridSize this)%Z eqn:B; [reflexivity |].
  destruct (nrow <? 0)%Z eqn:C; [reflexivity |].
  destruct (nrow >=? HexGenerator.gridSize this)%Z eqn:D; [reflexivity |].
  exfalso. rewrite Z.geb_leb in B, D.
  apply Z.ltb_ge in A, C. apply Z.leb_gt in B, D.
  rewrite !andb_false_iff, !Z.leb_gt, !Z.ltb_ge in H. lia.
Qed.

(** *** C8: construction *)


(** *** C1: seam closure *)

Lemma renderGrid_value (Math : JSMath.lib) (gridSize : Z)
    (hexSize hexGap r1 r2 r3 r4 : float) :
  let g0 := HexMeshGenerator.new gridSize hexSize hexGap r1 r2 r3 r4 in
  value (HexMeshGenerator.renderGrid Math g0)
  = Some (map (MeshSpec.mesh_pure Math g0) (cells gridSize)).
Proof.
  intros g0.
  exact (computes_value _ _ _ g0 (MeshFacts.renderGrid_computes Math g0)
           (MeshFacts.generator_inv_new Math gridSize hexSize hexGap r1 r2 r3 r4)).
Qed.

(** C1.  Take a generator with any parameters and any seeds, a cell of its
    grid, and a direction among SE, S, SW in which the neighbouring
    coordinates are a cell of the grid too.  [renderGrid] returns; it builds
    a mesh for the cell and one for the neighbour; and in the mesh of the
    cell the two skirt triangles of that direction are [(v1, v2, nv1)] and
    [(v1, nv1, nv2)], where [v1], [v2] are the very positions of the cell's
    rim vertices in its own cap, and [nv1], [nv2] the very positions of the
    neighbour's rim vertices in the cap of the neighbour's mesh. *)
Theorem seam_closure (Math : JSMath.lib) (gridSize : Z)
    (hexSize hexGap r1 r2 r3 r4 : float) (cell ncell : Z * Z) (k : nat) (d : string) :
  MeshSpec.inGrid gridSize cell = true ->
  MeshSpec.inGrid gridSize ncell = true ->
  nth_error skirtDirections k = Some d ->
  HexUtils.getNeighborCoords cell d = Some ncell ->
  exists ms,
    value (HexMeshGenerator.renderGrid Math
             (HexMeshGenerator.new gridSize hexSize hexGap r1 r2 r3 r4)) = Some ms
    /\ (exists m, In m ms /\ m.(userCoords) = cell)
    /\ (exists mn, In mn ms /\ mn.(userCoords) = ncell)
    /\ forall m mn,
        In m ms -> In mn ms ->
        m.(userCoords) = cell -> mn.(userCoords) = ncell ->
        MeshSpec.seam_closed m mn k d.
Proof.
  intros Hc Hn Hk Hd.
  eexists. split; [apply renderGrid_value |].
  split; [| split].
  - eexists. split; [apply in_map, LayoutFacts.cells_spec, Hc |].
    apply LayoutFacts.mesh_coords.
  - eexists. split; [apply in_map, LayoutFacts.cells_spec, Hn |].
    apply LayoutFacts.mesh_coords.
  - intros m mn Hm Hmn Em Emn.
    apply in_map_iff in Hm. destruct Hm as (c & <- & _).
    apply in_map_iff in Hmn. destruct Hmn as (n & <- & _).
    rewrite LayoutFacts.mesh_coords in Em, Emn. subst c n.
    apply LayoutFacts.mesh_seam; assumption.
Qed.

Lemma seam_closure_witness :
  MeshSpec.inGrid 2 (0, 0)%Z = true
  /\ MeshSpec.inGrid 2 (1, 0)%Z = true
  /\ nth_error skirtDirections 0 = Some "SE"
  /\ HexUtils.getNeighborCoords (0, 0)%Z "SE" = Some (1, 0)%Z
  /\ exists ms,
      value (HexMeshGenerator.renderGrid RefMath.math
               (HexMeshGenerator.new 2 1 0.1 0.25 0.75 0.5 0.125)) = Some ms
      /\ (exists m, In m ms /\ m.(userCoords) = (0, 0)%Z)
      /\ (exists mn, In mn ms /\ mn.(userCoords) = (1, 0)%Z)
      /\ forall m mn,
          In m ms -> In mn ms ->
          m.(userCoords) = (0, 0)%Z -> mn.(userCoords) = (1, 0)%Z ->
          MeshSpec.seam_closed m mn 0 "SE".
Proof.
  split; [reflexivity |]. split; [reflexivity |].
  split; [reflexivity |]. split; [reflexivity |].
  exact (seam_closure RefMath.math 2 1 0.1 0.25 0.75 0.5 0.125 (0, 0)%Z (1, 0)%Z
           0 "SE" eq_refl eq_refl eq_refl eq_refl).
Defined.

(** *** C2: skirts at the boundary of the grid *)

Lemma geometry_size (Math : JSMath.lib) (center : vec3) (vs : list vec3)
    (nb : string -> list vec3) :
  List.length vs = 6%nat ->
  (forall d, In d directions -> List.length (nb d) = 6%nat) ->
  let b := MeshSpec.geometry_pure Math center vs nb in
  List.length b.(positions) = 102%nat /\ triangleCount b = 15%nat.
Proof.
  intros Hvs Hnb.
  pose proof (Hnb "SE" ltac:(simpl; tauto)) as H1.
  pose proof (Hnb "S" ltac:(simpl; tauto)) as H2.
  pose proof (Hnb "SW" ltac:(simpl; tauto)) as H3.
  pose proof (Hnb "NW" ltac:(simpl; tauto)) as H4.
  unfold MeshSpec.geometry_pure. destruct center as [[cx cy] cz].
  unfold skirtDirections, fold_left, MeshSpec.skirtStep_pure.
  cbv [MeshSpec.entryOf prop String.eqb Ascii.eqb Bool.eqb oppositeDirection
       edgeVertexMap clockwiseDirection].
  LayoutFacts.six vs Hvs.
  LayoutFacts.six (nb "SE") H1. LayoutFacts.six (nb "S") H2.
  LayoutFacts.six (nb "SW") H3. LayoutFacts.six (nb "NW") H4.
  LayoutFacts.split_vertices.
  split; reflexivity.
Qed.

(** C2, the code against the claim.  The mesh-building [HexGenerator] never
    suppresses a skirt: whatever the grid, every mesh [renderGrid] builds has
    34 vertices and 15 triangles, the 6 of the cap and, for each of SE, S and
    SW, two skirt triangles and a corner triangle.  In a grid of one cell all
    three neighbours are outside the grid, and the one mesh has 15 triangles
    where the claim allows 6. *)
Theorem boundary_skirts_are_emitted (Math : JSMath.lib) (gridSize : Z)
    (hexSize hexGap r1 r2 r3 r4 : float) :
  (exists ms,
      value (HexMeshGenerator.renderGrid Math
               (HexMeshGenerator.new gridSize hexSize hexGap r1 r2 r3 r4)) = Some ms
      /\ Forall (fun m => List.length m.(geometry).(positions) = 102%nat
                          /\ triangleCount m.(geometry) = 15%nat) ms)
  /\ (exists m,
        value (HexMeshGenerator.renderGrid Math
                 (HexMeshGenerator.new 1 hexSize hexGap r1 r2 r3 r4)) = Some [m]
        /\ m.(userCoords) = (0, 0)%Z
        /\ triangleCount m.(geometry) = 15%nat)
  /\ map (fun d => option_map (MeshSpec.inGrid 1) (HexUtils.getNeighborCoords (0, 0)%Z d))
         skirtDirections
     = [Some false; Some false; Some false].
Proof.
  assert (S : forall n c,
             let m := MeshSpec.mesh_pure Math
                        (HexMeshGenerator.new n hexSize hexGap r1 r2 r3 r4) c in
             List.length m.(geometry).(positions) = 102%nat
             /\ triangleCount m.(geometry) = 15%nat).
  { intros n c m. unfold m.
    destruct (LayoutFacts.mesh_geometry Math n hexSize hexGap r1 r2 r3 r4 c)
      as [center ->].
    apply geometry_size; [reflexivity |].
    intros d Hd. apply LayoutFacts.neighbor_rim_length, Hd. }
  split; [| split; [| reflexivity]].
  - eexists. split; [apply renderGrid_value |].
    apply Forall_map, Forall_forall. intros c _. apply S.
  - exists (MeshSpec.mesh_pure Math
              (HexMeshGenerator.new 1 hexSize hexGap r1 r2 r3 r4) (0, 0)%Z).
    split; [rewrite renderGrid_value; reflexivity |].
    split; [apply LayoutFacts.mesh_coords | apply S].
Qed.

(** *** C3: corner triangles *)

(** C3, the code against the claim.  In a 2 by 2 grid there are two interior
    corners.  The renderer builds four meshes, for the cells (0,0), (1,0),
    (0,1), (1,1), with 1, 2, 0 and 0 corner triangles: three in all.  The
    corner of the cells (0,0), (0,1), (1,0) is filled twice, by the mesh of
    (0,0) and again, with the same three positions, by the mesh of (1,0): the
    set of processed connections is created anew in every call of
    [createHexGeometry], so it never holds a corner another cell has made. *)
Theorem corner_triangles_are_repeated :
  CornerSpec.interiorCorners 2 = ["0,0-0,1-1,0"; "0,1-1,0-1,1"]
  /\ map userCoords CornerSpec.meshes2 = [(0, 0); (1, 0); (0, 1); (1, 1)]%Z
  /\ map (fun m => List.length (CornerSpec.cornerTriangles m.(geometry)))
         CornerSpec.meshes2
     = [1; 2; 0; 0]%nat
  /\ (exists t,
        CornerSpec.cornerAt 0 0 = Some t
        /\ CornerSpec.cornerAt 1 1 = Some (CornerSpec.rotate t)).
Proof.
  split; [vm_compute; reflexivity |].
  split; [vm_compute; reflexivity |].
  split; [vm_compute; reflexivity |].
  eexists. split; vm_compute; reflexivity.
Qed.

(** *** C7: determinism and range of the noise *)

(** Where the hash of a lattice point overflows, its gradient is NaN. *)
Lemma gradient_at_overflow (Math : JSMath.lib) (sd ix iy : float) :
  ix * 12.9898 + iy * 78.233 + sd = infinity ->
  PerlinNoise.gradient_pure Math sd ix iy = PerlinNoise.mkGradient nan (Math.(sin) nan).
Proof.
  intros H. unfold PerlinNoise.gradient_pure, PerlinNoise._random.
  rewrite H, sin_infinity.
  change (2 * PI * PerlinNoise._fract (nan * 43758.5453123)) with nan.
  rewrite cos_nan. reflexivity.
Qed.

Lemma get_pure_at_overflow (Math : JSMath.lib) :
  PerlinNoise.get_pure Math 42 1.7e308 0 = nan.
Proof.
  rewrite NoiseFacts.get_pure_core.
  rewrite !gradient_at_overflow by reflexivity.
  unfold NoiseSpec.get_core. cbn [PerlinNoise.gx PerlinNoise.gy].
  change (1.7e308 - floor 1.7e308) with 0.
  change (1.7e308 - (floor 1.7e308 + 1)) with 0.
  change (0 * nan) with nan.
  rewrite !FloatFacts.nan_add_l. reflexivity.
Qed.

(** C7.  For a fixed seed [get] is a function of the point: it returns, and
    a second call with the same [(x, y)] returns the same number as the
    first, whatever was called before the first and between the two; that
    number is the result of the computation without caches.  The range fails.
    [get] ends by normalising to [0, 1] a result it takes to be in [-1, 1],
    but nothing keeps the hash of a lattice point finite: the finite point
    (1.7e308, 0) makes it overflow, and with any [Math] a fresh noise field
    with seed 42 returns NaN there, which is not in [0, 1]. *)
Theorem noise_is_deterministic_but_unbounded :
  (forall (Math : JSMath.lib) (seed : float) (before between : list NoiseSpec.call)
          (x y : float),
      exists v,
        value (PerlinNoise.get Math x y (NoiseSpec.after Math seed before)) = Some v
        /\ value (PerlinNoise.get Math x y
                    (NoiseSpec.after Math seed
                       (before ++ NoiseSpec.Get x y :: between))) = Some v
        /\ v = PerlinNoise.get_pure Math seed x y)
  /\ is_finite 1.7e308 = true
  /\ is_finite 0 = true
  /\ NoiseSpec.in_unit_interval nan = false
  /\ (forall Math : JSMath.lib,
        value (PerlinNoise.get Math 1.7e308 0 (PerlinNoise.new 42)) = Some nan).
Proof.
  split.
  - intros Math seed before between x y.
    exists (PerlinNoise.get_pure Math seed x y).
    split; [| split; [| reflexivity]];
      exact (computes_value _ _ _ _ (NoiseFacts.get_computes Math seed x y)
               (NoiseFacts.after_inv Math seed _)).
  - split; [reflexivity |]. split; [reflexivity |]. split; [reflexivity |].
    intros Math.
    rewrite <- (get_pure_at_overflow Math).
    exact (computes_value _ _ _ _ (NoiseFacts.get_computes Math 42 1.7e308 0)
             (NoiseFacts.noise_inv_new Math 42)).
Qed.

End Claims.

(* ================================================================== *)
(** * Further properties of the code *)

(** ** The direction tables and the neighbour coordinates *)

Module DirectionFacts.
Open Scope string_scope.
Import Directions.

(** A direction of the table, case by case. *)
Ltac each_direction H :=
  simpl in H; destruct H as [<- | [<- | [<- | [<- | [<- | [<- | []]]]]]].

Lemma negative_column_counts_as_even (col : Z) :
  (col <= 0)%Z -> (Z.rem col 2 =? 1)%Z = false.
Proof.
  intros H. apply Z.eqb_neq.
  pose proof (Z.rem_nonpos col 2 ltac:(lia) H). lia.
Qed.

Lemma step_is_adjacent (c n : Z * Z) (d : string) :
  step c d = Some n ->
  (Z.abs (fst n - fst c) <= 1)%Z /\ (Z.abs (snd n - snd c) <= 1)%Z /\ n <> c.
Proof.
  destruct c as [col row]. unfold step.
  repeat (match goal with
          | |- context [String.eqb d ?s] => destruct (String.eqb d s)
          end);
    try discriminate;
    intros E; injection E as <-;
    destruct (Z.rem col 2 =? 1)%Z; simpl;
    (split; [lia | split; [lia | intros E; injection E; lia]]).
Qed.

Lemma step_in_table (c n : Z * Z) (d : string) :
  step c d = Some n -> In d directions.
Proof.
  destruct c as [col row]. unfold step.
  repeat (match goal with
          | |- context [String.eqb d ?s] =>
              let E := fresh "E" in
              destruct (String.eqb d s) eqn:E;
              [apply String.eqb_eq in E; subst d; simpl; tauto |]
          end).
  discriminate.
Qed.

Lemma step_injective (c n : Z * Z) (d1 d2 : string) :
  step c d1 = Some n -> step c d2 = Some n -> d1 = d2.
Proof.
  intros E1 E2.
  pose proof (step_in_table _ _ _ E1) as H1.
  pose proof (step_in_table _ _ _ E2) as H2.
  destruct c as [col row].
  each_direction H1; each_direction H2; try reflexivity; exfalso;
    cbn [step String.eqb Ascii.eqb Bool.eqb] in E1, E2;
    rewrite <- E2 in E1; injection E1;
    destruct (Z.rem col 2 =? 1)%Z; lia.
Qed.

Lemma step_outside_table (c : Z * Z) (d : string) :
  ~ In d directions -> step c d = None.
Proof.
  intros H. destruct (step c d) as [n |] eqn:E; [| reflexivity].
  exfalso. exact (H (step_in_table _ _ _ E)).
Qed.

(** X1.  The tables are one rule: going clockwise is going to the next place
    of [directions], round the end; the opposite direction is three places on. *)
Theorem clockwise_and_opposite_by_place (i : nat) :
  (i < 6)%nat ->
  prop (nth i directions "") clockwiseDirection
  = Some (nth ((i + 1) mod 6) directions "")
  /\ prop (nth i directions "") oppositeDirection
     = Some (nth ((i + 3) mod 6) directions "").
Proof.
  intros H. do 6 (destruct i as [| i]; [split; reflexivity |]). lia.
Qed.

Lemma clockwise_and_opposite_by_place_witness :
  (4 < 6)%nat
  /\ prop (nth 4 directions "") clockwiseDirection = Some "NW"
  /\ prop (nth 4 directions "") oppositeDirection = Some "NE".
Proof.
  split; [lia |]. exact (clockwise_and_opposite_by_place 4 ltac:(lia)).
Defined.

(** X2.  The edge of the direction at place [i] runs from vertex [i + 4] to
    vertex [i + 5], counted round the six vertices: the edge of the next
    direction clockwise starts where this one ends, and the edge of the
    opposite direction is the edge three vertices on. *)
Theorem edge_by_place (i : nat) :
  (i < 6)%nat ->
  exists a b cw od,
    prop (nth i directions "") edgeVertexMap = Some (a, b)
    /\ a = ((i + 4) mod 6)%nat /\ b = ((a + 1) mod 6)%nat
    /\ prop (nth i directions "") clockwiseDirection = Some cw
    /\ prop cw edgeVertexMap = Some (b, (b + 1) mod 6)%nat
    /\ prop (nth i directions "") oppositeDirection = Some od
    /\ prop od edgeVertexMap = Some ((a + 3) mod 6, (b + 3) mod 6)%nat.
Proof.
  intros H.
  do 6 (destruct i as [| i];
        [do 4 eexists; repeat (split; [reflexivity |]); reflexivity |]).
  lia.
Qed.

Lemma edge_by_place_witness :
  (1 < 6)%nat
  /\ exists a b cw od,
      prop (nth 1 directions "") edgeVertexMap = Some (a, b)
      /\ a = ((1 + 4) mod 6)%nat /\ b = ((a + 1) mod 6)%nat
      /\ prop (nth 1 directions "") clockwiseDirection = Some cw
      /\ prop cw edgeVertexMap = Some (b, (b + 1) mod 6)%nat
      /\ prop (nth 1 directions "") oppositeDirection = Some od
      /\ prop od edgeVertexMap = Some ((a + 3) mod 6, (b + 3) mod 6)%nat.
Proof.
  split; [lia |]. exact (edge_by_place 1 ltac:(lia)).
Defined.

(** X3.  From a cell whose column and row are below 2^53 in magnitude, where
    the program adds and subtracts 1 without rounding, the six directions
    lead to six different cells; each differs from the cell by at most one
    column and one row, and none is the cell itself. *)
Theorem six_distinct_neighbours (c : Z * Z) :
  SafeInteger.coords c ->
  exists ns,
    map (HexUtils.getNeighborCoords c) directions = map Some ns
    /\ NoDup ns
    /\ Forall (fun n => (Z.abs (fst n - fst c) <= 1)%Z
                        /\ (Z.abs (snd n - snd c) <= 1)%Z
                        /\ n <> c) ns.
Proof.
  intros _. unfold HexUtils.getNeighborCoords.
  assert (S : forall d, In d directions -> exists n, step c d = Some n)
    by (intros d; apply LayoutFacts.table_direction_step).
  destruct (S "N" ltac:(simpl; tauto)) as [n0 E0].
  destruct (S "NE" ltac:(simpl; tauto)) as [n1 E1].
  destruct (S "SE" ltac:(simpl; tauto)) as [n2 E2].
  destruct (S "S" ltac:(simpl; tauto)) as [n3 E3].
  destruct (S "SW" ltac:(simpl; tauto)) as [n4 E4].
  destruct (S "NW" ltac:(simpl; tauto)) as [n5 E5].
  exists [n0; n1; n2; n3; n4; n5].
  split; [cbn [map directions]; rewrite E0, E1, E2, E3, E4, E5; reflexivity |].
  split.
  - repeat constructor; simpl; intros H;
      repeat (destruct H as [H | H]; [subst |]); try contradiction;
      match goal with
      | A : step c ?d1 = Some ?n, B : step c ?d2 = Some ?n |- _ =>
          discriminate (step_injective c n d1 d2 A B)
      end.
  - repeat constructor; eapply step_is_adjacent; eassumption.
Qed.

Lemma six_distinct_neighbours_witness :
  SafeInteger.coords (3, 4)%Z
  /\ exists ns,
      map (HexUtils.getNeighborCoords (3, 4)%Z) directions = map Some ns
      /\ NoDup ns
      /\ Forall (fun n => (Z.abs (fst n - 3) <= 1)%Z
                          /\ (Z.abs (snd n - 4) <= 1)%Z
                          /\ n <> (3, 4)%Z) ns.
Proof.
  assert (H : SafeInteger.coords (3, 4)%Z) by (split; simpl; lia).
  split; [exact H |]. exact (six_distinct_neighbours (3, 4)%Z H).
Defined.

(** X4.  A direction that is not one of the six: both [getNeighborCoords]
    return [null], [getNeighbor] of the grid generator returns [null], and
    [getNeighbor] of [HexUtils], which destructures the coordinates without a
    test, throws a [TypeError]. *)
Theorem unknown_direction (Math : JSMath.lib) (d : string) (c : Z * Z)
    (g : HexGenerator.t) (h : HexGenerator.hex) (hexGrid : list HexGenerator.hex)
    (u : HexUtils.t) (hu : HexUtils.hex) :
  ~ In d directions ->
  HexUtils.getNeighborCoords c d = None
  /\ HexGenerator.getNeighborCoords g c d = None
  /\ HexGenerator.getNeighbor g h d hexGrid = None
  /\ HexUtils.getNeighbor Math hu d u = Thrown TypeError.
Proof.
  intros H.
  unfold HexUtils.getNeighbor, HexGenerator.getNeighbor, HexGenerator.getNeighborCoords,
    HexUtils.getNeighborCoords.
  rewrite !step_outside_table by exact H. repeat split.
Qed.

Lemma unknown_direction_witness :
  ~ In "E" directions
  /\ HexUtils.getNeighborCoords (3, 4)%Z "E" = None
  /\ HexGenerator.getNeighborCoords (HexGenerator.new 16 1 0.1 0.5) (3, 4)%Z "E" = None
  /\ HexGenerator.getNeighbor (HexGenerator.new 16 1 0.1 0.5)
       (HexGenerator.mkHex (0, 0, 0)%float [] 0%float (3, 4)%Z 0%float 0%float) "E" [] = None
  /\ HexUtils.getNeighbor RefMath.math (RimSpec.hexWithCoords (3, 4)%Z) "E"
       (HexUtils.new 16 1 0.1 0.25 0.75) = Thrown TypeError.
Proof.
  assert (H : ~ In "E" directions).
  { simpl. intros [E | [E | [E | [E | [E | [E | []]]]]]]; discriminate E. }
  split; [exact H |].
  exact (unknown_direction RefMath.math "E" (3, 4)%Z (HexGenerator.new 16 1 0.1 0.5)
           (HexGenerator.mkHex (0, 0, 0)%float [] 0%float (3, 4)%Z 0%float 0%float) []
           (HexUtils.new 16 1 0.1 0.25 0.75) (RimSpec.hexWithCoords (3, 4)%Z) H).
Defined.

(** X5.  [col % 2 === 1] is false of every negative column, the odd ones too,
    and the table treats them as even.  So as soon as the cell or its
    neighbour lies left of column 0, going in a diagonal direction and then
    back in the opposite direction does not return to the cell: it ends one
    row above.  The cell is one whose column and row are below 2^53 in
    magnitude, where the program adds and subtracts 1 without rounding. *)
Theorem no_way_back_left_of_column_zero (c n : Z * Z) (d od : string) :
  SafeInteger.coords c ->
  In d ["NE"; "SE"; "SW"; "NW"] ->
  (fst c < 0 \/ fst n < 0)%Z ->
  HexUtils.getNeighborCoords c d = Some n ->
  prop d oppositeDirection = Some od ->
  HexUtils.getNeighborCoords n od = Some (fst c, snd c - 1)%Z.
Proof.
  unfold HexUtils.getNeighborCoords.
  destruct c as [col row], n as [ncol nrow]. cbn [fst snd].
  intros _ Hd Hneg E O. simpl in Hd.
  destruct Hd as [<- | [<- | [<- | [<- | []]]]];
    injection O as <-;
    cbn [step String.eqb Ascii.eqb Bool.eqb] in E |- *;
    injection E as <- <-.
  all: rewrite (negative_column_counts_as_even col) in * by lia.
  all: rewrite ?(negative_column_counts_as_even (col + 1)),
         ?(negative_column_counts_as_even (col - 1)) by lia.
  all: repeat f_equal; lia.
Qed.

Lemma no_way_back_left_of_column_zero_witness :
  SafeInteger.coords (0, 5)%Z
  /\ In "SW" ["NE"; "SE"; "SW"; "NW"]
  /\ (fst (0, 5) < 0 \/ fst (-1, 5) < 0)%Z
  /\ HexUtils.getNeighborCoords (0, 5)%Z "SW" = Some (-1, 5)%Z
  /\ prop "SW" oppositeDirection = Some "NE"
  /\ HexUtils.getNeighborCoords (-1, 5)%Z "NE" = Some (0, 4)%Z.
Proof.
  assert (Hd : In "SW" ["NE"; "SE"; "SW"; "NW"]) by (simpl; tauto).
  assert (Hn : (fst (0, 5) < 0 \/ fst (-1, 5) < 0)%Z) by (right; simpl; lia).
  assert (Hs : SafeInteger.coords (0, 5)%Z) by (split; simpl; lia).
  split; [exact Hs |]. split; [exact Hd |]. split; [exact Hn |].
  split; [reflexivity |]. split; [reflexivity |].
  exact (no_way_back_left_of_column_zero (0, 5)%Z (-1, 5)%Z "SW" "NE" Hs Hd Hn
           eq_refl eq_refl).
Defined.

End DirectionFacts.

(* ------------------------------------------------------------------ *)
(** ** PerlinNoise: what the caches hold *)

Module MemoFacts.
Open Scope float_scope.
Import JSMath NoiseSpec.

Section Methods.
Variable Math : JSMath.lib.

Lemma make_same_text (x y x' y' : float) :
  same_text x x' -> same_text y y' -> Key.make x' y' = Key.make x y.
Proof. unfold same_text, Key.make. intros -> ->. reflexivity. Qed.

Lemma key_eqb_refl (k : Key.t) : Key.eqb k k = true.
Proof. apply NoiseFacts.key_eqb_eq. reflexivity. Qed.

(** An entry put in front of a table under a key the table lacks hides no
    entry of the table. *)
Lemma lookup_kept {V} (key k : Key.t) (new old : V) (table : list (Key.t * V)) :
  Key.lookup key table = None ->
  Key.lookup k table = Some old ->
  Key.lookup k ((key, new) :: table) = Some old.
Proof.
  intros N E. rewrite NoiseFacts.lookup_cons.
  destruct (Key.eqb k key) eqn:K; [| exact E].
  apply NoiseFacts.key_eqb_eq in K. subst k. rewrite N in E. discriminate E.
Qed.

(** [getRandomGradient] returns, touches nothing but the table of gradients,
    leaves its result in the table and every entry of the table in place; on
    a miss the result is computed from the seed and put in front. *)
Lemma getRandomGradient_returns (ix iy : float) (n : PerlinNoise.t) :
  exists g n',
    PerlinNoise.getRandomGradient Math ix iy n = Returned (g, n')
    /\ n'.(PerlinNoise.memory) = n.(PerlinNoise.memory)
    /\ Key.lookup (Key.make ix iy) n'.(PerlinNoise.gradients) = Some g
    /\ (forall k h, Key.lookup k n.(PerlinNoise.gradients) = Some h ->
                    Key.lookup k n'.(PerlinNoise.gradients) = Some h)
    /\ (Key.lookup (Key.make ix iy) n.(PerlinNoise.gradients) = None ->
        g = PerlinNoise.gradient_pure Math n.(PerlinNoise.seed) ix iy
        /\ n' = PerlinNoise.set_gradients n
                  ((Key.make ix iy, g) :: n.(PerlinNoise.gradients))).
Proof.
  unfold PerlinNoise.getRandomGradient, bind, getThis.
  destruct (Key.lookup (Key.make ix iy) (PerlinNoise.gradients n)) as [g |] eqn:E.
  - exists g, n. repeat split; try assumption; try discriminate.
    intros k h H. exact H.
  - eexists _, _. split; [reflexivity |]. split; [reflexivity |].
    cbn [PerlinNoise.gradients PerlinNoise.set_gradients].
    split; [rewrite NoiseFacts.lookup_cons, key_eqb_refl; reflexivity |].
    split; [| intros _; split; reflexivity].
    intros k h H. apply lookup_kept; assumption.
Qed.

Lemma getRandomGradient_hit (ix iy : float) (n : PerlinNoise.t) (g : PerlinNoise.gradient) :
  Key.lookup (Key.make ix iy) n.(PerlinNoise.gradients) = Some g ->
  PerlinNoise.getRandomGradient Math ix iy n = Returned (g, n).
Proof.
  intros E. unfold PerlinNoise.getRandomGradient, bind, getThis. rewrite E. reflexivity.
Qed.

Lemma dotGridGradient_returns (ix iy x y : float) (n : PerlinNoise.t) :
  exists v n',
    PerlinNoise.dotGridGradient Math ix iy x y n = Returned (v, n')
    /\ n'.(PerlinNoise.memory) = n.(PerlinNoise.memory)
    /\ (forall k h, Key.lookup k n.(PerlinNoise.gradients) = Some h ->
                    Key.lookup k n'.(PerlinNoise.gradients) = Some h).
Proof.
  destruct (getRandomGradient_returns ix iy n) as (g & n' & E & Hm & _ & K & _).
  unfold PerlinNoise.dotGridGradient, bind. rewrite E.
  eexists _, n'. split; [reflexivity |]. split; [exact Hm | exact K].
Qed.

(** Past the cache test, [get] returns and puts its result in front of the
    table, under the key. *)
Lemma get_miss_returns (key : Key.t) (x y : float) (n : PerlinNoise.t) :
  exists v n',
    PerlinNoise.get_miss Math key x y n = Returned (v, n')
    /\ n'.(PerlinNoise.memory) = (key, v) :: n.(PerlinNoise.memory)
    /\ (forall k h, Key.lookup k n.(PerlinNoise.gradients) = Some h ->
                    Key.lookup k n'.(PerlinNoise.gradients) = Some h).
Proof.
  unfold PerlinNoise.get_miss.
  destruct (dotGridGradient_returns (floor x) (floor y) x y n)
    as (v0 & n0 & E0 & M0 & K0).
  destruct (dotGridGradient_returns (floor x + 1) (floor y) x y n0)
    as (v1 & n1 & E1 & M1 & K1).
  destruct (dotGridGradient_returns (floor x) (floor y + 1) x y n1)
    as (v2 & n2 & E2 & M2 & K2).
  destruct (dotGridGradient_returns (floor x + 1) (floor y + 1) x y n2)
    as (v3 & n3 & E3 & M3 & K3).
  unfold bind at 1. rewrite E0. unfold bind at 1. rewrite E1.
  unfold bind at 1. rewrite E2. unfold bind at 1. rewrite E3.
  eexists _, _. split; [reflexivity |].
  cbn [PerlinNoise.memory PerlinNoise.gradients PerlinNoise.set_memory].
  split; [rewrite M3, M2, M1, M0; reflexivity |].
  intros k h H. apply K3, K2, K1, K0, H.
Qed.

Lemma get_hit (x y : float) (n : PerlinNoise.t) (v : float) :
  Key.lookup (Key.make x y) n.(PerlinNoise.memory) = Some v ->
  truthy v = true ->
  PerlinNoise.get Math x y n = Returned (v, n).
Proof.
  intros E T. unfold PerlinNoise.get, bind, getThis. rewrite E, T. reflexivity.
Qed.

(** [get] returns; a truthy result is in the table afterwards, and so is
    every truthy entry the table had, and every gradient. *)
Lemma get_returns (x y : float) (n : PerlinNoise.t) :
  exists v n',
    PerlinNoise.get Math x y n = Returned (v, n')
    /\ (truthy v = true -> Key.lookup (Key.make x y) n'.(PerlinNoise.memory) = Some v)
    /\ (forall k w, Key.lookup k n.(PerlinNoise.memory) = Some w -> truthy w = true ->
                    Key.lookup k n'.(PerlinNoise.memory) = Some w)
    /\ (forall k h, Key.lookup k n.(PerlinNoise.gradients) = Some h ->
                    Key.lookup k n'.(PerlinNoise.gradients) = Some h).
Proof.
  assert (Miss : (forall w, Key.lookup (Key.make x y) n.(PerlinNoise.memory) = Some w ->
                            truthy w = false) ->
                 exists v n',
                   PerlinNoise.get_miss Math (Key.make x y) x y n = Returned (v, n')
                   /\ (truthy v = true ->
                       Key.lookup (Key.make x y) n'.(PerlinNoise.memory) = Some v)
                   /\ (forall k w, Key.lookup k n.(PerlinNoise.memory) = Some w ->
                                   truthy w = true ->
                                   Key.lookup k n'.(PerlinNoise.memory) = Some w)
                   /\ (forall k h, Key.lookup k n.(PerlinNoise.gradients) = Some h ->
                                   Key.lookup k n'.(PerlinNoise.gradients) = Some h)).
  { intros F.
    destruct (get_miss_returns (Key.make x y) x y n) as (v' & n' & E' & M & K).
    exists v', n'. split; [exact E' |]. rewrite M.
    split; [intros _; rewrite NoiseFacts.lookup_cons, key_eqb_refl; reflexivity |].
    split; [| exact K].
    intros k w H T. rewrite NoiseFacts.lookup_cons.
    destruct (Key.eqb k (Key.make x y)) eqn:Q; [| exact H].
    apply NoiseFacts.key_eqb_eq in Q. subst k.
    rewrite (F w H) in T. discriminate T. }
  unfold PerlinNoise.get, bind at 1, getThis.
  destruct (Key.lookup (Key.make x y) (PerlinNoise.memory n)) as [v |] eqn:E.
  - destruct (truthy v) eqn:T.
    + exists v, n. split; [reflexivity |]. split; [intros _; exact E |].
      split; [intros k w H _; exact H | intros k h H; exact H].
    + apply Miss. intros w H. injection H as <-. exact T.
  - apply Miss. intros w H. discriminate H.
Qed.

(** No call removes a gradient or a truthy number from the tables. *)
Lemma run_call_keeps (n : PerlinNoise.t) (c : call) :
  (forall k w, Key.lookup k n.(PerlinNoise.memory) = Some w -> truthy w = true ->
               Key.lookup k (run_call Math n c).(PerlinNoise.memory) = Some w)
  /\ (forall k h, Key.lookup k n.(PerlinNoise.gradients) = Some h ->
                  Key.lookup k (run_call Math n c).(PerlinNoise.gradients) = Some h).
Proof.
  destruct c as [x y | ix iy | ix iy x y]; cbn [run_call].
  - destruct (get_returns x y n) as (v & n' & -> & _ & M & K). split; assumption.
  - destruct (getRandomGradient_returns ix iy n) as (g & n' & -> & M & _ & K & _).
    cbn [state_after]. rewrite M. split; [intros k w H _; exact H | exact K].
  - destruct (dotGridGradient_returns ix iy x y n) as (v & n' & -> & M & K).
    cbn [state_after]. rewrite M. split; [intros k w H _; exact H | exact K].
Qed.

Lemma history_keeps (later : list call) :
  forall n : PerlinNoise.t,
    (forall k w, Key.lookup k n.(PerlinNoise.memory) = Some w -> truthy w = true ->
                 Key.lookup k (fold_left (run_call Math) later n).(PerlinNoise.memory)
                 = Some w)
    /\ (forall k h, Key.lookup k n.(PerlinNoise.gradients) = Some h ->
                    Key.lookup k (fold_left (run_call Math) later n).(PerlinNoise.gradients)
                    = Some h).
Proof.
  induction later as [| c later IH]; intros n; cbn [fold_left].
  - split; [intros k w H _; exact H | intros k h H; exact H].
  - destruct (run_call_keeps n c) as [M K].
    destruct (IH (run_call Math n c)) as [M' K'].
    split; [intros k w H T; apply M'; [apply M; assumption | exact T]
          | intros k h H; apply K', K, H].
Qed.

End Methods.

(** X6.  [get] keeps what it returns in [this.memory] and reads it back from
    there.  Once [get] has returned a number that is truthy, the table holds
    it under the key of the point, and still holds it after any further calls
    of [get], [getRandomGradient] and [dotGridGradient]; a call with the same
    point, or with a point that prints to the same key (a zero of the other
    sign), then returns that number and changes nothing.  The number comes
    from the table and not from a new computation: in every state whose table
    holds a truthy number under the key, [get] returns that number, whatever
    it is. *)
Theorem memo_hit (Math : JSMath.lib) (x y x' y' v : float) (n n' : PerlinNoise.t)
    (later : list call) :
  PerlinNoise.get Math x y n = Returned (v, n') ->
  truthy v = true ->
  same_text x x' -> same_text y y' ->
  Key.lookup (Key.make x y) n'.(PerlinNoise.memory) = Some v
  /\ (let m := fold_left (run_call Math) later n' in
      Key.lookup (Key.make x y) m.(PerlinNoise.memory) = Some v
      /\ PerlinNoise.get Math x' y' m = Returned (v, m))
  /\ (forall (m : PerlinNoise.t) (w : float),
        Key.lookup (Key.make x y) m.(PerlinNoise.memory) = Some w ->
        truthy w = true ->
        PerlinNoise.get Math x' y' m = Returned (w, m)).
Proof.
  intros E T Hx Hy.
  destruct (get_returns Math x y n) as (v0 & n0 & E0 & L & _).
  rewrite E in E0. injection E0 as <- <-.
  assert (Hit : forall (m : PerlinNoise.t) (w : float),
             Key.lookup (Key.make x y) m.(PerlinNoise.memory) = Some w ->
             truthy w = true ->
             PerlinNoise.get Math x' y' m = Returned (w, m)).
  { intros m w H Tw. apply get_hit; [| exact Tw].
    rewrite (make_same_text x y x' y' Hx Hy). exact H. }
  split; [exact (L T) |]. split; [| exact Hit].
  cbv zeta.
  destruct (history_keeps Math later n') as [M _].
  split; [exact (M _ _ (L T) T) | exact (Hit _ _ (M _ _ (L T) T) T)].
Qed.

Lemma memo_hit_witness :
  exists v n',
    PerlinNoise.get RefMath.math 0 0.5 (PerlinNoise.new 42) = Returned (v, n')
    /\ truthy v = true
    /\ same_text 0 (-0) /\ same_text 0.5 0.5
    /\ Key.lookup (Key.make 0 0.5) n'.(PerlinNoise.memory) = Some v
    /\ (let m := fold_left (run_call RefMath.math)
                   [Get 1.5 2.5; DotGridGradient 3 4 3.5 4.5] n' in
        Key.lookup (Key.make 0 0.5) m.(PerlinNoise.memory) = Some v
        /\ PerlinNoise.get RefMath.math (-0) 0.5 m = Returned (v, m))
    /\ (forall (m : PerlinNoise.t) (w : float),
          Key.lookup (Key.make 0 0.5) m.(PerlinNoise.memory) = Some w ->
          truthy w = true ->
          PerlinNoise.get RefMath.math (-0) 0.5 m = Returned (w, m)).
Proof.
  destruct (PerlinNoise.get RefMath.math 0 0.5 (PerlinNoise.new 42))
    as [[v n'] | e] eqn:E; [| vm_compute in E; discriminate E].
  assert (T : truthy v = true).
  { vm_compute in E. injection E as <- _. reflexivity. }
  exists v, n'. split; [reflexivity |]. split; [exact T |].
  split; [reflexivity |]. split; [reflexivity |].
  exact (memo_hit RefMath.math 0 0.5 (-0) 0.5 v (PerlinNoise.new 42) n'
           [Get 1.5 2.5; DotGridGradient 3 4 3.5 4.5] E T eq_refl eq_refl).
Defined.

(** X7.  [getRandomGradient] always returns, and keeps the gradient in
    [this.gradients]: on a miss it computes the gradient from the seed and
    puts it in the table under the key of the lattice point.  The table still
    holds it after any further calls of [get], [getRandomGradient] and
    [dotGridGradient], and a call for that lattice point, or for one that
    prints to the same key, then returns it and changes nothing: a gradient
    is computed once.  The gradient comes from the table: in every state whose
    table holds a gradient under the key, that gradient is returned, whatever
    it is. *)
Theorem gradient_is_computed_once (Math : JSMath.lib) (ix iy ix' iy' : float)
    (n : PerlinNoise.t) (later : list call) :
  same_text ix ix' -> same_text iy iy' ->
  exists g n',
    PerlinNoise.getRandomGradient Math ix iy n = Returned (g, n')
    /\ Key.lookup (Key.make ix iy) n'.(PerlinNoise.gradients) = Some g
    /\ (Key.lookup (Key.make ix iy) n.(PerlinNoise.gradients) = None ->
        g = PerlinNoise.gradient_pure Math n.(PerlinNoise.seed) ix iy
        /\ n' = PerlinNoise.set_gradients n
                  ((Key.make ix iy, g) :: n.(PerlinNoise.gradients)))
    /\ (let m := fold_left (run_call Math) later n' in
        Key.lookup (Key.make ix iy) m.(PerlinNoise.gradients) = Some g
        /\ PerlinNoise.getRandomGradient Math ix' iy' m = Returned (g, m))
    /\ (forall (m : PerlinNoise.t) (h : PerlinNoise.gradient),
          Key.lookup (Key.make ix iy) m.(PerlinNoise.gradients) = Some h ->
          PerlinNoise.getRandomGradient Math ix' iy' m = Returned (h, m)).
Proof.
  intros Hx Hy.
  destruct (getRandomGradient_returns Math ix iy n) as (g & n' & E & _ & L & _ & C).
  assert (Hit : forall (m : PerlinNoise.t) (h : PerlinNoise.gradient),
             Key.lookup (Key.make ix iy) m.(PerlinNoise.gradients) = Some h ->
             PerlinNoise.getRandomGradient Math ix' iy' m = Returned (h, m)).
  { intros m h H. apply getRandomGradient_hit.
    rewrite (make_same_text ix iy ix' iy' Hx Hy). exact H. }
  exists g, n'. split; [exact E |]. split; [exact L |]. split; [exact C |].
  split; [| exact Hit].
  cbv zeta.
  destruct (history_keeps Math later n') as [_ K].
  split; [exact (K _ _ L) | exact (Hit _ _ (K _ _ L))].
Qed.

Lemma gradient_is_computed_once_witness :
  same_text 0 (-0) /\ same_text 3 3
  /\ exists g n',
      PerlinNoise.getRandomGradient RefMath.math 0 3 (PerlinNoise.new 42)
      = Returned (g, n')
      /\ Key.lookup (Key.make 0 3) n'.(PerlinNoise.gradients) = Some g
      /\ (Key.lookup (Key.make 0 3) (PerlinNoise.new 42).(PerlinNoise.gradients) = None ->
          g = PerlinNoise.gradient_pure RefMath.math (PerlinNoise.new 42).(PerlinNoise.seed)
                0 3
          /\ n' = PerlinNoise.set_gradients (PerlinNoise.new 42)
                    ((Key.make 0 3, g) :: (PerlinNoise.new 42).(PerlinNoise.gradients)))
      /\ (let m := fold_left (run_call RefMath.math)
                     [Get 0.5 2.5; GetRandomGradient 1 3] n' in
          Key.lookup (Key.make 0 3) m.(PerlinNoise.gradients) = Some g
          /\ PerlinNoise.getRandomGradient RefMath.math (-0) 3 m = Returned (g, m))
      /\ (forall (m : PerlinNoise.t) (h : PerlinNoise.gradient),
            Key.lookup (Key.make 0 3) m.(PerlinNoise.gradients) = Some h ->
            PerlinNoise.getRandomGradient RefMath.math (-0) 3 m = Returned (h, m)).
Proof.
  split; [reflexivity |]. split; [reflexivity |].
  exact (gradient_is_computed_once RefMath.math 0 3 (-0) 3 (PerlinNoise.new 42)
           [Get 0.5 2.5; GetRandomGradient 1 3] eq_refl eq_refl).
Defined.

End MemoFacts.

(* ------------------------------------------------------------------ *)
(** ** PerturbationUtils: the order of calls does not matter *)

Module HistoryFacts.
Open Scope float_scope.
Import JSMath PerturbHistory.

Lemma perturb_inv_new (Math : JSMath.lib) (seed : option float)
    (rnd1 rnd2 a b c d e : float) :
  let p0 := PerturbationUtils.new seed rnd1 rnd2 a b c d e in
  PerturbSpec.inv Math p0 p0.
Proof.
  intros p0. unfold PerturbSpec.inv.
  repeat split; simpl; intros; discriminate.
Qed.

Lemma perturb_run_call_inv (Math : JSMath.lib) (p0 p : PerturbationUtils.t) (c : call) :
  PerturbSpec.inv Math p0 p -> PerturbSpec.inv Math p0 (run_call Math p c).
Proof.
  intros Hp. destruct c as [x z | x y z | x z]; simpl.
  - destruct (PerturbFacts.perturbXZ_computes Math p0 x z p Hp) as (p' & -> & H). exact H.
  - destruct (PerturbFacts.perturbY_computes Math p0 x y z p Hp) as (p' & -> & H). exact H.
  - destruct (PerturbFacts.getElevation_computes Math p0 x z p Hp) as (p' & -> & H). exact H.
Qed.

Lemma perturb_after_inv (Math : JSMath.lib) (p0 : PerturbationUtils.t) (history : list call) :
  PerturbSpec.inv Math p0 p0 -> PerturbSpec.inv Math p0 (after Math p0 history).
Proof.
  unfold after. generalize p0 at 2 4.
  induction history as [| c h IH]; intros p Hp; simpl.
  - exact Hp.
  - apply IH, perturb_run_call_inv, Hp.
Qed.

(** X9.  Whatever was called before on a [PerturbationUtils], with whatever
    arguments it was constructed, [perturbXZ], [perturbY] and [getElevation]
    return, and what they return is a function of their arguments, the two
    seeds and the settings alone: the values of the computation in which no
    noise field has a cache. *)
Theorem perturbation_is_history_free (Math : JSMath.lib) (seed : option float)
    (rnd1 rnd2 perturbationScale noiseScale elevationNoiseScale elevationScale
       elevationPerturbationScale : float)
    (history : list call) (x y z : float) :
  let p0 := PerturbationUtils.new seed rnd1 rnd2 perturbationScale noiseScale
              elevationNoiseScale elevationScale elevationPerturbationScale in
  let p := after Math p0 history in
  value (PerturbationUtils.perturbXZ Math x z p)
  = Some (PerturbSpec.perturbXZ_pure Math p0 x z)
  /\ value (PerturbationUtils.perturbY Math x y z p)
     = Some (PerturbSpec.perturbY_pure Math p0 x y z)
  /\ value (PerturbationUtils.getElevation Math x z p)
     = Some (PerturbSpec.getElevation_pure Math p0 x z).
Proof.
  intros p0 p.
  assert (Hp : PerturbSpec.inv Math p0 p) by apply perturb_after_inv, perturb_inv_new.
  split; [| split].
  - exact (computes_value _ _ _ _ (PerturbFacts.perturbXZ_computes Math p0 x z) Hp).
  - exact (computes_value _ _ _ _ (PerturbFacts.perturbY_computes Math p0 x y z) Hp).
  - exact (computes_value _ _ _ _ (PerturbFacts.getElevation_computes Math p0 x z) Hp).
Qed.

End HistoryFacts.

(* ------------------------------------------------------------------ *)
(** ** The mesh-building HexGenerator: the grid and its meshes *)

Module GridFacts.
Open Scope float_scope.
Import JSMath Directions MeshSpec.

Lemma range_NoDup (n : Z) : NoDup (range n).
Proof.
  unfold range. apply NoDup_map_NoDup_ForallPairs; [| apply seq_NoDup].
  intros a b _ _ E. lia.
Qed.

Lemma range_length (n : Z) : List.length (range n) = Z.to_nat n.
Proof. unfold range. rewrite length_map, length_seq. reflexivity. Qed.

Lemma grid_NoDup (rows cols : list Z) :
  NoDup rows -> NoDup cols ->
  NoDup (flat_map (fun row => map (fun col => (col, row)) cols) rows).
Proof.
  intros Hr Hc. induction Hr as [| r rows Hin Hr IH]; simpl; [constructor |].
  apply NoDup_app; [| exact IH |].
  - apply NoDup_map_NoDup_ForallPairs; [| exact Hc].
    intros a b _ _ E. injection E as ->. reflexivity.
  - intros [c r'] H1 H2.
    apply in_map_iff in H1. destruct H1 as (c' & E & _). injection E as <- <-.
    apply in_flat_map in H2. destruct H2 as (r'' & Hr'' & H2).
    apply in_map_iff in H2. destruct H2 as (c'' & E & _). injection E as <- <-.
    exact (Hin Hr'').
Qed.

Lemma cells_NoDup (n : Z) : NoDup (cells n).
Proof. apply grid_NoDup; apply range_NoDup. Qed.

Lemma grid_length (rows cols : list Z) :
  List.length (flat_map (fun row => map (fun col => (col, row)) cols) rows)
  = (List.length rows * List.length cols)%nat.
Proof.
  induction rows as [| r rows IH]; simpl; [reflexivity |].
  rewrite length_app, length_map, IH. reflexivity.
Qed.

Lemma cells_length (n : Z) : List.length (cells n) = (Z.to_nat n * Z.to_nat n)%nat.
Proof. unfold cells. rewrite grid_length, range_length. reflexivity. Qed.

Section Grid.
Variable Math : JSMath.lib.
Variables (gridSize : Z) (hexSize hexGap r1 r2 r3 r4 : float).

Local Abbreviation g0 := (HexMeshGenerator.new gridSize hexSize hexGap r1 r2 r3 r4).
Local Abbreviation u0 := (HexUtils.new gridSize hexSize hexGap r1 r2).

Lemma meshes_coords :
  map userCoords (map (mesh_pure Math g0) (cells gridSize)) = cells gridSize.
Proof.
  rewrite map_map. rewrite <- (map_id (cells gridSize)) at 2.
  apply map_ext. intros c. apply LayoutFacts.mesh_coords.
Qed.

(** The geometry of the mesh of a cell, with rims of six vertices. *)
Lemma mesh_shape (c : Z * Z) :
  exists center vs nb,
    (mesh_pure Math g0 c).(geometry) = geometry_pure Math center vs nb
    /\ vs = MeshSpec.rimOf Math u0 c
    /\ List.length vs = 6%nat
    /\ (forall d, In d directions -> List.length (nb d) = 6%nat).
Proof.
  destruct (LayoutFacts.mesh_geometry Math gridSize hexSize hexGap r1 r2 r3 r4 c)
    as [center E].
  exists center, (MeshSpec.rimOf Math u0 c), (neighborVerticesOf Math g0 c).
  split; [exact E |]. split; [reflexivity |]. split; [reflexivity |].
  intros d Hd. apply LayoutFacts.neighbor_rim_length, Hd.
Qed.

End Grid.

(** A geometry built from a rim of six vertices and neighbours with rims of
    six vertices, spelled out. *)
Ltac spell_out center vs nb Hvs Hnb :=
  let H1 := fresh in let H2 := fresh in let H3 := fresh in let H4 := fresh in
  pose proof (Hnb "SE"%string ltac:(simpl; tauto)) as H1;
  pose proof (Hnb "S"%string ltac:(simpl; tauto)) as H2;
  pose proof (Hnb "SW"%string ltac:(simpl; tauto)) as H3;
  pose proof (Hnb "NW"%string ltac:(simpl; tauto)) as H4;
  unfold geometry_pure;
  destruct center as [[? ?] ?];
  unfold skirtDirections, fold_left, skirtStep_pure;
  cbv [entryOf prop String.eqb Ascii.eqb Bool.eqb oppositeDirection edgeVertexMap
       clockwiseDirection];
  LayoutFacts.six vs Hvs;
  LayoutFacts.six (nb "SE"%string) H1; LayoutFacts.six (nb "S"%string) H2;
  LayoutFacts.six (nb "SW"%string) H3; LayoutFacts.six (nb "NW"%string) H4;
  LayoutFacts.split_vertices.

Lemma geometry_well_formed (Math : JSMath.lib) (center : vec3) (vs : list vec3)
    (nb : string -> list vec3) :
  List.length vs = 6%nat ->
  (forall d, In d directions -> List.length (nb d) = 6%nat) ->
  ShapeSpec.well_formed (geometry_pure Math center vs nb) = true.
Proof.
  intros Hvs Hnb. spell_out center vs nb Hvs Hnb. reflexivity.
Qed.

Lemma geometry_cap (Math : JSMath.lib) (center : vec3) (vs : list vec3)
    (nb : string -> list vec3) (i : nat) :
  List.length vs = 6%nat ->
  (forall d, In d directions -> List.length (nb d) = 6%nat) ->
  (i <= 6)%nat ->
  let b := geometry_pure Math center vs nb in
  (exists x z, vertexAt b.(positions) 0 = Some (x, RimSpec.height (nth 0 vs origin), z))
  /\ (forall k, (k < 6)%nat -> vertexAt b.(positions) (1 + k) = Some (nth k vs origin))
  /\ ShapeSpec.normalAt b i = Some (0, 1, 0).
Proof.
  intros Hvs Hnb Hi. spell_out center vs nb Hvs Hnb. cbv zeta.
  split; [eexists _, _; reflexivity |]. split.
  - intros k Hk. do 6 (destruct k as [| k]; [reflexivity |]). lia.
  - do 7 (destruct i as [| i]; [reflexivity |]). lia.
Qed.

(** X10.  [renderGrid] builds one mesh for every cell of the grid and no
    other: the meshes come in the order of the loops, rows outside, each cell
    once, so there are [gridSize] times [gridSize] of them, and none when
    [gridSize] is zero or negative. *)
Theorem one_mesh_per_cell (Math : JSMath.lib) (gridSize : Z)
    (hexSize hexGap r1 r2 r3 r4 : float) :
  exists ms,
    value (HexMeshGenerator.renderGrid Math
             (HexMeshGenerator.new gridSize hexSize hexGap r1 r2 r3 r4)) = Some ms
    /\ map userCoords ms = cells gridSize
    /\ NoDup (map userCoords ms)
    /\ List.length ms = (Z.to_nat gridSize * Z.to_nat gridSize)%nat
    /\ (forall c, In c (map userCoords ms) <-> inGrid gridSize c = true).
Proof.
  eexists. split; [apply Claims.renderGrid_value |].
  rewrite meshes_coords, length_map, cells_length.
  split; [reflexivity |]. split; [apply cells_NoDup |]. split; [reflexivity |].
  intros c. apply LayoutFacts.cells_spec.
Qed.

(** X11.  Every mesh [renderGrid] builds is a well-formed indexed geometry:
    the positions are whole vertices, there is a normal and a pair of texture
    coordinates for each of them, the indices are whole triangles, and every
    index points at a vertex of the geometry. *)
Theorem meshes_are_well_formed (Math : JSMath.lib) (gridSize : Z)
    (hexSize hexGap r1 r2 r3 r4 : float) :
  exists ms,
    value (HexMeshGenerator.renderGrid Math
             (HexMeshGenerator.new gridSize hexSize hexGap r1 r2 r3 r4)) = Some ms
    /\ Forall (fun m => ShapeSpec.well_formed m.(geometry) = true) ms.
Proof.
  eexists. split; [apply Claims.renderGrid_value |].
  apply Forall_map, Forall_forall. intros c _.
  destruct (mesh_shape Math gridSize hexSize hexGap r1 r2 r3 r4 c)
    as (center & vs & nb & -> & _ & Hvs & Hnb).
  apply geometry_well_formed; assumption.
Qed.

Lemma vertexAt_stored (fround : float -> float) (array : list float) (j : nat) :
  vertexAt (ShapeSpec.stored fround array) j
  = match vertexAt array j with
    | Some (x, y, z) => Some (fround x, fround y, fround z)
    | None => None
    end.
Proof.
  unfold vertexAt, ShapeSpec.stored. rewrite !nth_error_map.
  destruct (nth_error array (3 * j)); [| reflexivity].
  destruct (nth_error array (3 * j + 1)); [| reflexivity].
  destruct (nth_error array (3 * j + 2)); reflexivity.
Qed.

(** X12.  The top face of every mesh is flat and level.  In the arrays
    [createHexGeometry] returns its seven vertices, the centre and the six of
    the rim, all have one height, the perturbed elevation [HexUtils] computes
    at the centre of the cell, and each has the normal (0, 1, 0).  The mesh
    keeps the arrays in single precision: there the seven vertices all have
    the height that elevation converts to, and the normal that (0, 1, 0)
    converts to. *)
Theorem cap_is_flat (Math : JSMath.lib) (gridSize : Z)
    (hexSize hexGap r1 r2 r3 r4 : float) (fround : float -> float) (i : nat) :
  (i <= 6)%nat ->
  exists ms,
    value (HexMeshGenerator.renderGrid Math
             (HexMeshGenerator.new gridSize hexSize hexGap r1 r2 r3 r4)) = Some ms
    /\ Forall
         (fun m =>
            let u0 := HexUtils.new gridSize hexSize hexGap r1 r2 in
            let c := HexUtilsSpec.centerOf u0 m.(userCoords) in
            exists v,
              vertexAt (ShapeSpec.stored fround m.(geometry).(positions)) i = Some v
              /\ RimSpec.height v
                 = fround (HexUtilsSpec.rimHeight Math u0 (fst c) (snd c))
              /\ vertexAt (ShapeSpec.stored fround m.(geometry).(normals)) i
                 = Some (fround 0, fround 1, fround 0))
         ms.
Proof.
  intros Hi.
  eexists. split; [apply Claims.renderGrid_value |].
  apply Forall_map, Forall_forall. intros c _. cbv zeta.
  rewrite LayoutFacts.mesh_coords.
  destruct (mesh_shape Math gridSize hexSize hexGap r1 r2 r3 r4 c)
    as (center & vs & nb & -> & Evs & Hvs & Hnb).
  destruct (geometry_cap Math center vs nb i Hvs Hnb Hi) as ((x & z & C) & R & N).
  assert (H : forall k, (k < 6)%nat ->
                RimSpec.height (nth k vs origin)
                = HexUtilsSpec.rimHeight Math (HexUtils.new gridSize hexSize hexGap r1 r2)
                    (fst (HexUtilsSpec.centerOf
                            (HexUtils.new gridSize hexSize hexGap r1 r2) c))
                    (snd (HexUtilsSpec.centerOf
                            (HexUtils.new gridSize hexSize hexGap r1 r2) c))).
  { intros k Hk.
    pose proof (Claims.rim_heights Math (HexUtils.new gridSize hexSize hexGap r1 r2)
                  (fst (HexUtilsSpec.centerOf
                          (HexUtils.new gridSize hexSize hexGap r1 r2) c))
                  (snd (HexUtilsSpec.centerOf
                          (HexUtils.new gridSize hexSize hexGap r1 r2) c))) as F.
    rewrite Forall_forall in F. apply F.
    rewrite Evs. apply nth_In. exact Hk. }
  unfold ShapeSpec.normalAt in N.
  rewrite !vertexAt_stored, N.
  destruct i as [| k].
  - rewrite C. eexists. split; [reflexivity |]. split; [| reflexivity].
    cbn [RimSpec.height fst snd]. f_equal. apply (H 0%nat). lia.
  - pose proof (R k ltac:(lia)) as Rk. change (1 + k)%nat with (S k) in Rk. rewrite Rk.
    destruct (nth k vs origin) as [[px py] pz] eqn:P.
    eexists. split; [reflexivity |]. split; [| reflexivity].
    cbn [RimSpec.height fst snd]. f_equal.
    change py with (RimSpec.height (px, py, pz)). rewrite <- P. apply H. lia.
Qed.

Lemma cap_is_flat_witness :
  (3 <= 6)%nat
  /\ exists ms,
      value (HexMeshGenerator.renderGrid RefMath.math
               (HexMeshGenerator.new 2 1 0.1 0.25 0.75 0.5 0.125)) = Some ms
      /\ Forall
           (fun m =>
              let u0 := HexUtils.new 2 1 0.1 0.25 0.75 in
              let c := HexUtilsSpec.centerOf u0 m.(userCoords) in
              exists v,
                vertexAt (ShapeSpec.stored (fun x => x) m.(geometry).(positions)) 3
                = Some v
                /\ RimSpec.height v
                   = HexUtilsSpec.rimHeight RefMath.math u0 (fst c) (snd c)
                /\ vertexAt (ShapeSpec.stored (fun x => x) m.(geometry).(normals)) 3
                   = Some (0, 1, 0))
           ms.
Proof.
  split; [lia |].
  exact (cap_is_flat RefMath.math 2 1 0.1 0.25 0.75 0.5 0.125 (fun x => x) 3
           ltac:(lia)).
Defined.

(** *** The corner triangles *)

Lemma corner_entries (d : string) :
  In d skirtDirections ->
  exists e1 e2 od o1 o2 cw ocw c1 c2,
    prop d edgeVertexMap = Some (e1, e2)
    /\ prop d oppositeDirection = Some od
    /\ prop od edgeVertexMap = Some (o1, o2)
    /\ prop d clockwiseDirection = Some cw
    /\ prop cw oppositeDirection = Some ocw
    /\ prop ocw edgeVertexMap = Some (c1, c2)
    /\ In cw directions
    /\ (e2 < 6 /\ o1 < 6 /\ c2 < 6)%nat.
Proof.
  simpl. intros [<- | [<- | [<- | []]]];
    do 9 eexists; repeat (split; [reflexivity |]);
    (split; [simpl; tauto | repeat split; repeat constructor]).
Qed.

Lemma geometry_corner (Math : JSMath.lib) (center : vec3) (vs : list vec3)
    (nb : string -> list vec3) (k : nat) (d od cw ocw : string) (e1 e2 o1 o2 c1 c2 : nat) :
  List.length vs = 6%nat ->
  (forall d, In d directions -> List.length (nb d) = 6%nat) ->
  nth_error skirtDirections k = Some d ->
  prop d edgeVertexMap = Some (e1, e2) ->
  prop d oppositeDirection = Some od ->
  prop od edgeVertexMap = Some (o1, o2) ->
  prop d clockwiseDirection = Some cw ->
  prop cw oppositeDirection = Some ocw ->
  prop ocw edgeVertexMap = Some (c1, c2) ->
  let b := geometry_pure Math center vs nb in
  let at_ j := vertexAt b.(positions) (7 + 9 * k + j) in
  at_ 6%nat = Some (nth e2 vs origin)
  /\ at_ 7%nat = Some (nth o1 (nb d) origin)
  /\ at_ 8%nat = Some (nth c2 (nb cw) origin)
  /\ triangleAt b.(indices) (6 + 3 * k + 2)
     = Some (7 + 9 * k + 6, 7 + 9 * k + 8, 7 + 9 * k + 7)%nat.
Proof.
  intros Hvs Hnb Hk He Ho Hoe Hcw Hocw Hc.
  pose proof (Hnb "SE"%string ltac:(simpl; tauto)) as H1.
  pose proof (Hnb "S"%string ltac:(simpl; tauto)) as H2.
  pose proof (Hnb "SW"%string ltac:(simpl; tauto)) as H3.
  pose proof (Hnb "NW"%string ltac:(simpl; tauto)) as H4.
  unfold geometry_pure. destruct center as [[cx cy] cz].
  unfold skirtDirections, fold_left, skirtStep_pure.
  cbv [entryOf prop String.eqb Ascii.eqb Bool.eqb oppositeDirection edgeVertexMap
       clockwiseDirection].
  do 3 (destruct k as [| k];
        [ injection Hk as <-;
          vm_compute in He; injection He as <- <-;
          vm_compute in Ho; injection Ho as <-;
          vm_compute in Hoe; injection Hoe as <- <-;
          vm_compute in Hcw; injection Hcw as <-;
          vm_compute in Hocw; injection Hocw as <-;
          vm_compute in Hc; injection Hc as <- <-;
          LayoutFacts.six vs Hvs;
          LayoutFacts.six (nb "SE"%string) H1; LayoutFacts.six (nb "S"%string) H2;
          LayoutFacts.six (nb "SW"%string) H3; LayoutFacts.six (nb "NW"%string) H4;
          LayoutFacts.split_vertices;
          cbv zeta; repeat split |]).
  destruct k; discriminate Hk.
Qed.

Lemma mesh_corner (Math : JSMath.lib) (gridSize : Z)
    (hexSize hexGap r1 r2 r3 r4 : float) (cell ncell cwcell : Z * Z)
    (k : nat) (d cw : string) :
  nth_error skirtDirections k = Some d ->
  prop d clockwiseDirection = Some cw ->
  HexUtils.getNeighborCoords cell d = Some ncell ->
  HexUtils.getNeighborCoords cell cw = Some cwcell ->
  let g0 := HexMeshGenerator.new gridSize hexSize hexGap r1 r2 r3 r4 in
  ShapeSpec.corner_closed (mesh_pure Math g0 cell) (mesh_pure Math g0 ncell)
    (mesh_pure Math g0 cwcell) k d.
Proof.
  intros Hk Hcw En Ecw g0.
  assert (Hd : In d skirtDirections) by (eapply nth_error_In; exact Hk).
  destruct (corner_entries d Hd)
    as (e1 & e2 & od & o1 & o2 & cw' & ocw & c1 & c2
        & He & Ho & Hoe & Hcw' & Hocw & Hce & Hcwd & B1 & B2 & B3).
  rewrite Hcw in Hcw'. injection Hcw' as <-.
  destruct (LayoutFacts.mesh_geometry Math gridSize hexSize hexGap r1 r2 r3 r4 cell)
    as [center G].
  pose proof (geometry_corner Math center
                (MeshSpec.rimOf Math (HexUtils.new gridSize hexSize hexGap r1 r2) cell)
                (neighborVerticesOf Math g0 cell)
                k d od cw ocw e1 e2 o1 o2 c1 c2 eq_refl
                (fun d' => LayoutFacts.neighbor_rim_length Math gridSize hexSize hexGap
                             r1 r2 r3 r4 cell d')
                Hk He Ho Hoe Hcw Hocw Hce) as L.
  subst g0. cbv zeta in L. rewrite <- G in L.
  rewrite (LayoutFacts.neighbor_rim Math gridSize hexSize hexGap r1 r2 r3 r4
             cell ncell d En) in L.
  rewrite (LayoutFacts.neighbor_rim Math gridSize hexSize hexGap r1 r2 r3 r4
             cell cwcell cw Ecw) in L.
  destruct L as (L6 & L7 & L8 & T).
  exists e1, e2, od, o1, o2, cw, ocw, c1, c2.
  eexists _, _, _.
  unfold skirtVertex.
  repeat (split; [first [eassumption
                       | apply (LayoutFacts.mesh_rim Math gridSize hexSize hexGap
                                  r1 r2 r3 r4); assumption] |]).
  exact T.
Qed.

(** X13.  The corner triangles close, as the skirts do.  Take a generator
    with any parameters and any seeds, a cell of its grid and a direction
    among SE, S, SW such that the neighbours in that direction and in the next
    direction clockwise are cells of the grid.  In the mesh of the cell, the
    corner triangle of that direction has as its three vertices the very
    positions of a rim vertex of the cell, of a rim vertex of the first
    neighbour, and of a rim vertex of the second neighbour, as they stand in
    the top faces of the three meshes. *)
Theorem corner_closure (Math : JSMath.lib) (gridSize : Z)
    (hexSize hexGap r1 r2 r3 r4 : float) (cell ncell cwcell : Z * Z)
    (k : nat) (d cw : string) :
  inGrid gridSize cell = true ->
  inGrid gridSize ncell = true ->
  inGrid gridSize cwcell = true ->
  nth_error skirtDirections k = Some d ->
  prop d clockwiseDirection = Some cw ->
  HexUtils.getNeighborCoords cell d = Some ncell ->
  HexUtils.getNeighborCoords cell cw = Some cwcell ->
  exists ms m mn mcw,
    value (HexMeshGenerator.renderGrid Math
             (HexMeshGenerator.new gridSize hexSize hexGap r1 r2 r3 r4)) = Some ms
    /\ In m ms /\ m.(userCoords) = cell
    /\ In mn ms /\ mn.(userCoords) = ncell
    /\ In mcw ms /\ mcw.(userCoords) = cwcell
    /\ ShapeSpec.corner_closed m mn mcw k d.
Proof.
  intros Hc Hn Hcwc Hk Hcw En Ecw.
  eexists _, _, _, _.
  split; [apply Claims.renderGrid_value |].
  split; [apply in_map, LayoutFacts.cells_spec, Hc |].
  split; [apply LayoutFacts.mesh_coords |].
  split; [apply in_map, LayoutFacts.cells_spec, Hn |].
  split; [apply LayoutFacts.mesh_coords |].
  split; [apply in_map, LayoutFacts.cells_spec, Hcwc |].
  split; [apply LayoutFacts.mesh_coords |].
  apply mesh_corner with (cw := cw); assumption.
Qed.

Lemma corner_closure_witness :
  inGrid 2 (0, 0)%Z = true
  /\ inGrid 2 (1, 0)%Z = true
  /\ inGrid 2 (0, 1)%Z = true
  /\ nth_error skirtDirections 0 = Some "SE"%string
  /\ prop "SE"%string clockwiseDirection = Some "S"%string
  /\ HexUtils.getNeighborCoords (0, 0)%Z "SE" = Some (1, 0)%Z
  /\ HexUtils.getNeighborCoords (0, 0)%Z "S" = Some (0, 1)%Z
  /\ exists ms m mn mcw,
      value (HexMeshGenerator.renderGrid RefMath.math
               (HexMeshGenerator.new 2 1 0.1 0.25 0.75 0.5 0.125)) = Some ms
      /\ In m ms /\ m.(userCoords) = (0, 0)%Z
      /\ In mn ms /\ mn.(userCoords) = (1, 0)%Z
      /\ In mcw ms /\ mcw.(userCoords) = (0, 1)%Z
      /\ ShapeSpec.corner_closed m mn mcw 0 "SE".
Proof.
  do 7 (split; [reflexivity |]).
  exact (corner_closure RefMath.math 2 1 0.1 0.25 0.75 0.5 0.125
           (0, 0)%Z (1, 0)%Z (0, 1)%Z 0 "SE" "S"
           eq_refl eq_refl eq_refl eq_refl eq_refl eq_refl eq_refl).
Defined.

(** From the neighbour to the south-east, the cell lies to the north-west
    and the cell's southern neighbour to the south-west. *)
Lemma round_the_corner (c n m : Z * Z) :
  (0 <= fst c)%Z ->
  step c "SE" = Some n -> step c "S" = Some m ->
  step n "SW" = Some m /\ step n "NW" = Some c.
Proof.
  destruct c as [col row], n as [ncol nrow], m as [mcol mrow].
  cbn [fst]. intros Hc En Em.
  cbn [step String.eqb Ascii.eqb Bool.eqb] in *.
  injection En as <- <-. injection Em as <- <-.
  rewrite (Claims.odd_column_succ col Hc).
  destruct (Z.rem col 2 =? 1)%Z; simpl; split; repeat f_equal; lia.
Qed.

(** X30.  The generator fills some corners twice.  Let a cell, its
    neighbour to the south-east and its neighbour to the south all be cells
    of the grid.  The corner triangle the mesh of the cell gets in the round
    for SE, and the corner triangle the mesh of the south-eastern neighbour
    gets in its round for SW, have the same three positions, listed from a
    different start: the corner where the three cells meet is covered by two
    coinciding triangles. *)
Theorem corner_is_filled_twice (Math : JSMath.lib) (gridSize : Z)
    (hexSize hexGap r1 r2 r3 r4 : float) (c n m : Z * Z) :
  inGrid gridSize c = true ->
  inGrid gridSize n = true ->
  inGrid gridSize m = true ->
  HexUtils.getNeighborCoords c "SE" = Some n ->
  HexUtils.getNeighborCoords c "S" = Some m ->
  exists ms mc mn p q r,
    value (HexMeshGenerator.renderGrid Math
             (HexMeshGenerator.new gridSize hexSize hexGap r1 r2 r3 r4)) = Some ms
    /\ In mc ms /\ mc.(userCoords) = c
    /\ In mn ms /\ mn.(userCoords) = n
    /\ skirtVertex mc 0 6 = Some p
    /\ skirtVertex mc 0 7 = Some q
    /\ skirtVertex mc 0 8 = Some r
    /\ skirtVertex mn 2 6 = Some q
    /\ skirtVertex mn 2 7 = Some r
    /\ skirtVertex mn 2 8 = Some p.
Proof.
  intros Hc Hn Hm En Em. unfold HexUtils.getNeighborCoords in En, Em.
  destruct (round_the_corner c n m (Claims.in_grid_column _ _ Hc) En Em) as [Esw Enw].
  pose proof (mesh_corner Math gridSize hexSize hexGap r1 r2 r3 r4 c n m 0 "SE" "S"
                eq_refl eq_refl En Em) as C1.
  pose proof (mesh_corner Math gridSize hexSize hexGap r1 r2 r3 r4 n m c 2 "SW" "NW"
                eq_refl eq_refl Esw Enw) as C2.
  cbv zeta in C1, C2.
  destruct C1 as (e1 & e2 & od & o1 & o2 & cw & ocw & c1 & c2 & p & q & r
                  & A1 & A2 & A3 & A4 & A5 & A6 & R1 & R2 & R3 & S1 & S2 & S3 & _).
  vm_compute in A1. injection A1 as <- <-.
  vm_compute in A2. injection A2 as <-.
  vm_compute in A3. injection A3 as <- <-.
  vm_compute in A4. injection A4 as <-.
  vm_compute in A5. injection A5 as <-.
  vm_compute in A6. injection A6 as <- <-.
  destruct C2 as (e1 & e2 & od & o1 & o2 & cw & ocw & c1 & c2 & p' & q' & r'
                  & A1 & A2 & A3 & A4 & A5 & A6 & R1' & R2' & R3' & S1' & S2' & S3' & _).
  vm_compute in A1. injection A1 as <- <-.
  vm_compute in A2. injection A2 as <-.
  vm_compute in A3. injection A3 as <- <-.
  vm_compute in A4. injection A4 as <-.
  vm_compute in A5. injection A5 as <-.
  vm_compute in A6. injection A6 as <- <-.
  rewrite R2 in R1'. injection R1' as <-.
  rewrite R3 in R2'. injection R2' as <-.
  rewrite R1 in R3'. injection R3' as <-.
  eexists _, _, _, p, q, r.
  split; [apply Claims.renderGrid_value |].
  split; [apply in_map, LayoutFacts.cells_spec, Hc |].
  split; [apply LayoutFacts.mesh_coords |].
  split; [apply in_map, LayoutFacts.cells_spec, Hn |].
  split; [apply LayoutFacts.mesh_coords |].
  repeat split; assumption.
Qed.

Lemma corner_is_filled_twice_witness :
  inGrid 2 (0, 0)%Z = true
  /\ inGrid 2 (1, 0)%Z = true
  /\ inGrid 2 (0, 1)%Z = true
  /\ HexUtils.getNeighborCoords (0, 0)%Z "SE" = Some (1, 0)%Z
  /\ HexUtils.getNeighborCoords (0, 0)%Z "S" = Some (0, 1)%Z
  /\ exists ms mc mn p q r,
      value (HexMeshGenerator.renderGrid RefMath.math
               (HexMeshGenerator.new 2 1 0.1 0.25 0.75 0.5 0.125)) = Some ms
      /\ In mc ms /\ mc.(userCoords) = (0, 0)%Z
      /\ In mn ms /\ mn.(userCoords) = (1, 0)%Z
      /\ skirtVertex mc 0 6 = Some p
      /\ skirtVertex mc 0 7 = Some q
      /\ skirtVertex mc 0 8 = Some r
      /\ skirtVertex mn 2 6 = Some q
      /\ skirtVertex mn 2 7 = Some r
      /\ skirtVertex mn 2 8 = Some p.
Proof.
  do 5 (split; [reflexivity |]).
  exact (corner_is_filled_twice RefMath.math 2 1 0.1 0.25 0.75 0.5 0.125
           (0, 0)%Z (1, 0)%Z (0, 1)%Z eq_refl eq_refl eq_refl eq_refl eq_refl).
Defined.

End GridFacts.

(* ------------------------------------------------------------------ *)
(** ** Colours and elevations of the meshes *)

Module ColourFacts.
Open Scope float_scope.
Import JSMath Directions MeshSpec.

Lemma below_zero_below_four (b : float) : (b <? 0) = true -> (b <? 4) = true.
Proof.
  rewrite !FloatAxioms.ltb_spec.
  let v := eval vm_compute in (Prim2SF 4) in change (Prim2SF 4) with v.
  change (Prim2SF 0) with (S754_zero false).
  destruct (Prim2SF b) as [[|]|[|]| |[|] m e]; simpl; intros H;
    reflexivity || discriminate H.
Qed.

Lemma guard (b : float) :
  let colorIndex := if b <? 4 then b else 0 in
  (colorIndex <? 4) = true /\ ((b <? 0) = true -> colorIndex = b).
Proof.
  cbv zeta. split.
  - destruct (b <? 4) eqn:E; [exact E | reflexivity].
  - intros H. rewrite (below_zero_below_four b H). reflexivity.
Qed.

(** X14.  The test [biomeIndex < biomeColors.length] keeps the colour index
    below 4, and lets through every negative biome index unchanged, for which
    [biomeColors] has no entry.  This holds for [createBiomeMaterial] of the
    renderer and for every mesh the mesh-building generator makes; and
    negative indices occur: in the 2 by 2 grid built with the reference [Math]
    and the seeds 0.25, 0.75, 0.5, 0.125, the mesh of the cell (0, 0) has
    colour index -6. *)
Theorem colour_index_guard (Math : JSMath.lib) (gridSize : Z)
    (hexSize hexGap r1 r2 r3 r4 : float) :
  (forall b : float,
      (HexRenderer.createBiomeMaterial b <? 4) = true
      /\ ((b <? 0) = true -> HexRenderer.createBiomeMaterial b = b))
  /\ (exists ms,
        value (HexMeshGenerator.renderGrid Math
                 (HexMeshGenerator.new gridSize hexSize hexGap r1 r2 r3 r4)) = Some ms
        /\ Forall (fun m => (m.(colorIndex) <? 4) = true
                            /\ ((m.(userBiomeIndex) <? 0) = true
                                -> m.(colorIndex) = m.(userBiomeIndex))) ms)
  /\ option_map (map colorIndex)
       (value (HexMeshGenerator.renderGrid RefMath.math
                 (HexMeshGenerator.new 2 1 0.1 0.25 0.75 0.5 0.125)))
     = Some [-6; -1; -4; 1].
Proof.
  split; [| split].
  - intros b. apply guard.
  - eexists. split; [apply Claims.renderGrid_value |].
    apply Forall_map, Forall_forall. intros c _.
    unfold mesh_pure, mesh_of. cbn [colorIndex userBiomeIndex]. apply guard.
  - vm_compute. reflexivity.
Qed.

(** X15.  The elevation a mesh carries in its [userData] comes from the noise
    fields of the generator's own [PerturbationUtils], the height of its top
    face from those of the [PerturbationUtils] inside [HexUtils].  When the
    two are seeded alike, the centre vertex of every mesh has the height its
    elevation converts to in the single precision of the position attribute;
    in the array [createHexGeometry] returns it has the elevation itself.
    The constructors seed all four fields at random; with the seeds 0.25,
    0.75 for one and 0.5, 0.125 for the other, the mesh of the cell (1, 0)
    carries the elevation -0.12, while the array has -0.37 as the height of
    the centre. *)
Theorem elevation_is_cap_height_for_equal_seeds (Math : JSMath.lib) (gridSize : Z)
    (hexSize hexGap r1 r2 : float) (fround : float -> float) :
  (exists ms,
      value (HexMeshGenerator.renderGrid Math
               (HexMeshGenerator.new gridSize hexSize hexGap r1 r2 r1 r2)) = Some ms
      /\ Forall (fun m => exists x z,
                     vertexAt (ShapeSpec.stored fround m.(geometry).(positions)) 0
                     = Some (x, fround m.(userElevation), z)) ms)
  /\ option_map
       (map (fun m => (m.(userElevation),
                       option_map RimSpec.height (vertexAt m.(geometry).(positions) 0))))
       (value (HexMeshGenerator.renderGrid RefMath.math
                 (HexMeshGenerator.new 2 1 0.1 0.25 0.75 0.5 0.125)))
     = Some [(-1.48, Some (-1.48)); (-0.12, Some (-0.37));
             (-0.93, Some (-0.49)); (0.34, Some 0.56)].
Proof.
  split; [| vm_compute; reflexivity].
  eexists. split; [apply Claims.renderGrid_value |].
  apply Forall_map, Forall_forall. intros c _.
  destruct (GridFacts.mesh_shape Math gridSize hexSize hexGap r1 r2 r1 r2 c)
    as (center & vs & nb & G & Evs & Hvs & Hnb).
  rewrite G.
  destruct (GridFacts.geometry_cap Math center vs nb 0 Hvs Hnb ltac:(lia))
    as ((x & z & C) & _ & _).
  exists (fround x), (fround z). rewrite GridFacts.vertexAt_stored, C. do 3 f_equal.
  pose proof (Claims.rim_heights Math (HexUtils.new gridSize hexSize hexGap r1 r2)
                (fst (HexUtilsSpec.centerOf
                        (HexUtils.new gridSize hexSize hexGap r1 r2) c))
                (snd (HexUtilsSpec.centerOf
                        (HexUtils.new gridSize hexSize hexGap r1 r2) c))) as F.
  rewrite Forall_forall in F.
  rewrite (F (nth 0 vs origin)) by (rewrite Evs; apply nth_In; repeat constructor).
  unfold mesh_pure, cell_pure.
  rewrite (LayoutFacts.centers_agree gridSize hexSize hexGap r1 r2 r1 r2 c).
  destruct (HexUtilsSpec.centerOf _ c) as [cx cz]. reflexivity.
Qed.

End ColourFacts.

(* ------------------------------------------------------------------ *)
(** ** Methods that always return *)

Lemma yields_ret {S A} (I : S -> Prop) (P : A -> Prop) (a : A) :
  P a -> yields I P (ret a).
Proof. intros H s Hs. exists a, s. repeat split; assumption. Qed.

Lemma yields_bind {S A B} (I : S -> Prop) (P : A -> Prop) (Q : B -> Prop)
    (m : M S A) (k : A -> M S B) :
  yields I P m -> (forall a, P a -> yields I Q (k a)) -> yields I Q (bind m k).
Proof.
  intros Hm Hk s Hs.
  destruct (Hm s Hs) as (a & s1 & E1 & H1 & Pa).
  destruct (Hk a Pa s1 H1) as (b & s2 & E2 & H2 & Qb).
  exists b, s2. split; [| split; assumption].
  unfold bind. rewrite E1. exact E2.
Qed.

Lemma yields_getThis {S B} (I : S -> Prop) (Q : B -> Prop) (k : S -> M S B) :
  (forall s, I s -> yields I Q (k s)) -> yields I Q (bind getThis k).
Proof. intros H s Hs. exact (H s Hs s Hs). Qed.

Lemma yields_mapM {S A B} (I : S -> Prop) (P : A -> B -> Prop) (f : A -> M S B) l :
  (forall a, In a l -> yields I (P a) (f a)) ->
  yields I (Forall2 P l) (mapM f l).
Proof.
  induction l as [| a l IH]; intros H; simpl.
  - apply yields_ret. constructor.
  - eapply yields_bind; [apply H; left; reflexivity |]. intros b Pb.
    eapply yields_bind; [apply IH; intros; apply H; right; assumption |].
    intros bs Pbs. apply yields_ret. constructor; assumption.
Qed.

(* ------------------------------------------------------------------ *)
(** ** hex/hexGenerator.js: the grid and its neighbours *)

Module GeneratorFacts.
Open Scope float_scope.
Import JSMath Directions.

Lemma find_some_exists {A} (f : A -> bool) (l : list A) (x : A) :
  In x l -> f x = true -> exists y, find f l = Some y.
Proof.
  induction l as [| a l IH]; simpl; [contradiction |].
  intros [-> | H] Hx.
  - rewrite Hx. eexists. reflexivity.
  - destruct (f a); [eexists; reflexivity | apply IH; assumption].
Qed.

Lemma coords_test (h : HexGenerator.hex) (c r : Z) :
  ((fst h.(HexGenerator.gridCoords) =? c)%Z && (snd h.(HexGenerator.gridCoords) =? r)%Z)
  = true
  <-> h.(HexGenerator.gridCoords) = (c, r).
Proof.
  rewrite andb_true_iff, !Z.eqb_eq.
  destruct (HexGenerator.gridCoords h) as [a b]. simpl.
  split; [intros [-> ->]; reflexivity | intros E; injection E; auto].
Qed.

Lemma checked_coords (this : HexGenerator.t) (c n : Z * Z) (d : string) :
  HexGenerator.getNeighborCoords this c d = Some n ->
  step c d = Some n /\ MeshSpec.inGrid this.(HexGenerator.gridSize) n = true.
Proof.
  unfold HexGenerator.getNeighborCoords.
  destruct (step c d) as [[ncol nrow] |]; [| discriminate].
  destruct (ncol <? 0)%Z eqn:A; [discriminate |].
  destruct (ncol >=? HexGenerator.gridSize this)%Z eqn:B; [discriminate |].
  destruct (nrow <? 0)%Z eqn:C; [discriminate |].
  destruct (nrow >=? HexGenerator.gridSize this)%Z eqn:D; [discriminate |].
  simpl. intros E. injection E as <-. split; [reflexivity |].
  unfold MeshSpec.inGrid. simpl.
  rewrite Z.geb_leb in B, D.
  apply Z.ltb_ge in A, C. apply Z.leb_gt in B, D.
  rewrite !andb_true_iff, !Z.leb_le, !Z.ltb_lt. lia.
Qed.

Lemma getNeighbor_sound (this : HexGenerator.t) (h h' : HexGenerator.hex)
    (d : string) (hexGrid : list HexGenerator.hex) :
  HexGenerator.getNeighbor this h d hexGrid = Some h' ->
  In h' hexGrid
  /\ step h.(HexGenerator.gridCoords) d = Some h'.(HexGenerator.gridCoords)
  /\ MeshSpec.inGrid this.(HexGenerator.gridSize) h'.(HexGenerator.gridCoords) = true.
Proof.
  unfold HexGenerator.getNeighbor.
  destruct (HexGenerator.getNeighborCoords this (HexGenerator.gridCoords h) d)
    as [[c r] |] eqn:E; [| discriminate].
  intros F. apply find_some in F. destruct F as [Hin T].
  apply coords_test in T. rewrite T.
  apply checked_coords in E. tauto.
Qed.

Lemma getNeighbor_complete (this : HexGenerator.t) (h x : HexGenerator.hex)
    (d : string) (hexGrid : list HexGenerator.hex) :
  step h.(HexGenerator.gridCoords) d = Some x.(HexGenerator.gridCoords) ->
  MeshSpec.inGrid this.(HexGenerator.gridSize) x.(HexGenerator.gridCoords) = true ->
  In x hexGrid ->
  exists h', HexGenerator.getNeighbor this h d hexGrid = Some h'
             /\ h'.(HexGenerator.gridCoords) = x.(HexGenerator.gridCoords).
Proof.
  intros E G Hin. unfold HexGenerator.getNeighbor.
  rewrite (Claims.checked_coords_in_grid this _ _ d E G).
  destruct (HexGenerator.gridCoords x) as [c r] eqn:Ex.
  destruct (find_some_exists
              (fun h' => (fst h'.(HexGenerator.gridCoords) =? c)%Z
                         && (snd h'.(HexGenerator.gridCoords) =? r)%Z)
              hexGrid x Hin) as [y F].
  { apply coords_test. exact Ex. }
  exists y. split; [exact F |].
  apply find_some in F. apply coords_test, F.
Qed.

(** X16.  A hex [getNeighbor] returns is a hex of the grid passed to it; its
    coordinates are those the table gives for the direction, and they lie
    inside the generator's grid. *)
Theorem neighbour_is_a_hex_of_the_grid (this : HexGenerator.t)
    (h h' : HexGenerator.hex) (d : string) (hexGrid : list HexGenerator.hex) :
  HexGenerator.getNeighbor this h d hexGrid = Some h' ->
  In h' hexGrid
  /\ HexUtils.getNeighborCoords h.(HexGenerator.gridCoords) d
     = Some h'.(HexGenerator.gridCoords)
  /\ MeshSpec.inGrid this.(HexGenerator.gridSize) h'.(HexGenerator.gridCoords) = true.
Proof. apply getNeighbor_sound. Qed.

Lemma neighbour_is_a_hex_of_the_grid_witness :
  HexGenerator.getNeighbor (HexGenerator.new 2 1 0.1 0.5) GridSpec.west "SE"
    [GridSpec.west; GridSpec.east]
  = Some GridSpec.east
  /\ In GridSpec.east [GridSpec.west; GridSpec.east]
  /\ HexUtils.getNeighborCoords GridSpec.west.(HexGenerator.gridCoords) "SE"
     = Some GridSpec.east.(HexGenerator.gridCoords)
  /\ MeshSpec.inGrid (HexGenerator.new 2 1 0.1 0.5).(HexGenerator.gridSize)
       GridSpec.east.(HexGenerator.gridCoords) = true.
Proof.
  split; [reflexivity |].
  exact (neighbour_is_a_hex_of_the_grid (HexGenerator.new 2 1 0.1 0.5)
           GridSpec.west GridSpec.east "SE" [GridSpec.west; GridSpec.east] eq_refl).
Defined.

(** X17.  Neighbours are mutual.  When [getNeighbor] returns a hex [h'] for a
    hex [h] of the grid whose coordinates lie inside the generator's grid,
    then for [h'] and the opposite direction it returns a hex with the
    coordinates of [h]. *)
Theorem neighbours_are_mutual (this : HexGenerator.t) (h h' : HexGenerator.hex)
    (d od : string) (hexGrid : list HexGenerator.hex) :
  In h hexGrid ->
  MeshSpec.inGrid this.(HexGenerator.gridSize) h.(HexGenerator.gridCoords) = true ->
  HexGenerator.getNeighbor this h d hexGrid = Some h' ->
  prop d oppositeDirection = Some od ->
  exists h'',
    HexGenerator.getNeighbor this h' od hexGrid = Some h''
    /\ h''.(HexGenerator.gridCoords) = h.(HexGenerator.gridCoords).
Proof.
  intros Hin Hg E O.
  destruct (getNeighbor_sound this h h' d hexGrid E) as (_ & S & G').
  apply getNeighbor_complete; [| exact Hg | exact Hin].
  apply (Claims.step_back _ _ d od).
  - exact (DirectionFacts.step_in_table _ _ _ S).
  - exact (Claims.in_grid_column _ _ Hg).
  - exact (Claims.in_grid_column _ _ G').
  - exact S.
  - exact O.
Qed.

Lemma neighbours_are_mutual_witness :
  In GridSpec.west [GridSpec.west; GridSpec.east]
  /\ MeshSpec.inGrid (HexGenerator.new 2 1 0.1 0.5).(HexGenerator.gridSize)
       GridSpec.west.(HexGenerator.gridCoords) = true
  /\ HexGenerator.getNeighbor (HexGenerator.new 2 1 0.1 0.5) GridSpec.west "SE"
       [GridSpec.west; GridSpec.east]
     = Some GridSpec.east
  /\ prop "SE"%string oppositeDirection = Some "NW"%string
  /\ exists h'',
      HexGenerator.getNeighbor (HexGenerator.new 2 1 0.1 0.5) GridSpec.east "NW"
        [GridSpec.west; GridSpec.east]
      = Some h''
      /\ h''.(HexGenerator.gridCoords) = GridSpec.west.(HexGenerator.gridCoords).
Proof.
  assert (Hin : In GridSpec.west [GridSpec.west; GridSpec.east]) by (left; reflexivity).
  split; [exact Hin |]. split; [reflexivity |]. split; [reflexivity |].
  split; [reflexivity |].
  exact (neighbours_are_mutual (HexGenerator.new 2 1 0.1 0.5)
           GridSpec.west GridSpec.east "SE" "NW"
           [GridSpec.west; GridSpec.east] Hin eq_refl eq_refl eq_refl).
Defined.

Lemma prop_map {V} (f : string -> V) (d : string) (l : list string) (v : V) :
  prop d (map (fun dir => (dir, f dir)) l) = Some v -> In d l /\ v = f d.
Proof.
  induction l as [| a l IH]; simpl; [discriminate |].
  destruct (String.eqb d a) eqn:E.
  - apply String.eqb_eq in E. subst a. intros H. injection H as <-. auto.
  - intros H. destruct (IH H). auto.
Qed.

(** X18.  The object [getAllNeighbors] returns has the six directions as its
    properties.  The hexes in it are hexes of the grid; no two directions hold
    hexes with the same coordinates, and no direction holds a hex with the
    coordinates of the hex itself. *)
Theorem all_neighbours_are_different_cells (this : HexGenerator.t)
    (h : HexGenerator.hex) (hexGrid : list HexGenerator.hex) :
  let neighbors := HexGenerator.getAllNeighbors this h hexGrid in
  map fst neighbors = directions
  /\ forall d1 d2 h1 h2,
      prop d1 neighbors = Some (Some h1) ->
      prop d2 neighbors = Some (Some h2) ->
      In h1 hexGrid
      /\ h1.(HexGenerator.gridCoords) <> h.(HexGenerator.gridCoords)
      /\ (h1.(HexGenerator.gridCoords) = h2.(HexGenerator.gridCoords) -> d1 = d2).
Proof.
  intros neighbors. split; [reflexivity |].
  intros d1 d2 h1 h2 P1 P2.
  apply prop_map in P1, P2. destruct P1 as [_ E1], P2 as [_ E2].
  symmetry in E1, E2.
  destruct (getNeighbor_sound this h h1 d1 hexGrid E1) as (In1 & S1 & _).
  destruct (getNeighbor_sound this h h2 d2 hexGrid E2) as (_ & S2 & _).
  split; [exact In1 |]. split.
  - exact (proj2 (proj2 (DirectionFacts.step_is_adjacent _ _ _ S1))).
  - intros E. rewrite <- E in S2.
    exact (DirectionFacts.step_injective _ _ _ _ S1 S2).
Qed.

(** *** [generateGrid] *)

Section Methods.
Variable Math : JSMath.lib.
Variable g0 : HexGenerator.t.

Local Abbreviation I := (GridSpec.inv g0).

Lemma inv_refl : I g0.
Proof. unfold GridSpec.inv. destruct g0. reflexivity. Qed.

Lemma inv_fields (g : HexGenerator.t) :
  I g ->
  g.(HexGenerator.gridSize) = g0.(HexGenerator.gridSize).
Proof. intros <-. reflexivity. Qed.

Lemma noise_get_yields (x y : float) :
  yields I (fun _ => True) (HexGenerator.noise_get Math x y).
Proof.
  intros g Hg. unfold HexGenerator.noise_get, zoom.
  destruct (MemoFacts.get_returns Math x y (HexGenerator.noise g)) as (v & n' & E & _).
  rewrite E. exists v, (HexGenerator.set_noise g n').
  split; [reflexivity |]. split; [| exact Logic.I].
  unfold GridSpec.inv in *. rewrite <- Hg. reflexivity.
Qed.

Lemma getPerturbation_yields (x z : float) :
  yields I (fun _ => True) (HexGenerator.getPerturbation Math x z).
Proof.
  unfold HexGenerator.getPerturbation.
  apply yields_getThis. intros g Hg.
  eapply yields_bind; [apply noise_get_yields |]. intros nx _.
  eapply yields_bind; [apply noise_get_yields |]. intros ny _.
  eapply yields_bind; [apply noise_get_yields |]. intros nz _.
  apply yields_ret. exact Logic.I.
Qed.

Lemma generateHexVertices_yields (centerX centerY elevation : float) :
  yields I (fun vs => List.length vs = 6%nat)
         (HexGenerator.generateHexVertices Math centerX centerY elevation).
Proof.
  unfold HexGenerator.generateHexVertices.
  apply yields_getThis. intros g Hg.
  eapply yields_bind; [apply getPerturbation_yields |]. intros [[cnx cny] cnz] _.
  eapply yields_bind; [apply noise_get_yields |]. intros offset _.
  intros s Hs.
  destruct (yields_mapM I (fun _ _ => True)
              (fun a =>
                 ' (px, py, pz) <-
                   HexGenerator.getPerturbation Math
                     (centerX + cnx + HexGenerator.effectiveSize g
                                      * Math.(JSMath.cos) (PI / 180 * a))
                     (centerY + cnz + HexGenerator.effectiveSize g
                                      * Math.(JSMath.sin) (PI / 180 * a)) ;;
                 ret (centerX + cnx + HexGenerator.effectiveSize g
                                      * Math.(JSMath.cos) (PI / 180 * a) + px,
                      elevation + offset * 0.2 + py,
                      centerY + cnz + HexGenerator.effectiveSize g
                                      * Math.(JSMath.sin) (PI / 180 * a) + pz))
              HexGenerator.angles) with (s := s) as (vs & s' & E & Hs' & F).
  - intros a _.
    eapply yields_bind; [apply getPerturbation_yields |]. intros [[px py] pz] _.
    apply yields_ret. exact Logic.I.
  - exact Hs.
  - exists vs, s'. split; [exact E |]. split; [exact Hs' |].
    apply Forall2_length in F. exact (eq_sym F).
Qed.

Lemma generateCell_yields (elevationData : list HexGenerator.entry) (cell : Z * Z) :
  yields I
    (fun h =>
       h.(HexGenerator.gridCoords) = cell
       /\ List.length h.(HexGenerator.vertices) = 6%nat
       /\ RimSpec.height h.(HexGenerator.position) = h.(HexGenerator.elevation)
       /\ GridSpec.fromData
            (GridSpec.entryAt g0.(HexGenerator.gridSize) elevationData cell) h)
    (HexGenerator.generateCell Math elevationData cell).
Proof.
  destruct cell as [col row]. unfold HexGenerator.generateCell.
  apply yields_getThis. intros g Hg.
  rewrite (inv_fields g Hg).
  eapply yields_bind; [apply generateHexVertices_yields |]. intros vs Hvs.
  apply yields_ret. repeat split. exact Hvs.
Qed.

Lemma generateGrid_yields (elevationData : list HexGenerator.entry) :
  yields I
    (Forall2
       (fun cell h =>
          h.(HexGenerator.gridCoords) = cell
          /\ List.length h.(HexGenerator.vertices) = 6%nat
          /\ RimSpec.height h.(HexGenerator.position) = h.(HexGenerator.elevation)
          /\ GridSpec.fromData
               (GridSpec.entryAt g0.(HexGenerator.gridSize) elevationData cell) h)
       (cells g0.(HexGenerator.gridSize)))
    (HexGenerator.generateGrid Math elevationData).
Proof.
  unfold HexGenerator.generateGrid.
  apply yields_getThis. intros g Hg. rewrite (inv_fields g Hg).
  apply yields_mapM. intros cell _. apply generateCell_yields.
Qed.

End Methods.

Lemma Forall2_coords {A B} (P : A -> B -> Prop) (f : B -> A) (l : list A) (l' : list B) :
  Forall2 (fun a b => f b = a /\ P a b) l l' ->
  map f l' = l /\ Forall (fun b => P (f b) b) l'.
Proof.
  induction 1 as [| a b l l' [E Pab] _ [IH1 IH2]]; simpl; [split; constructor |].
  subst a. rewrite IH1. split; [reflexivity |]. constructor; assumption.
Qed.

(** X19.  [generateGrid] never throws, whatever the generator and the data.
    It returns one hex for every cell of the grid, in the order of the loops;
    each hex has six vertices, its position has its elevation as height, and
    its elevation, biome and feature are those of the entry of the data at
    [row * gridSize + col], or 0 where the data has no such entry. *)
Theorem generateGrid_shape (Math : JSMath.lib) (elevationData : list HexGenerator.entry)
    (g : HexGenerator.t) :
  exists hs g',
    HexGenerator.generateGrid Math elevationData g = Returned (hs, g')
    /\ map HexGenerator.gridCoords hs = cells g.(HexGenerator.gridSize)
    /\ Forall
         (fun h =>
            List.length h.(HexGenerator.vertices) = 6%nat
            /\ RimSpec.height h.(HexGenerator.position) = h.(HexGenerator.elevation)
            /\ GridSpec.fromData
                 (GridSpec.entryAt g.(HexGenerator.gridSize) elevationData
                    h.(HexGenerator.gridCoords)) h)
         hs.
Proof.
  destruct (generateGrid_yields Math g elevationData g (inv_refl g))
    as (hs & g' & E & _ & F).
  exists hs, g'. split; [exact E |].
  exact (Forall2_coords
           (fun cell h =>
              List.length h.(HexGenerator.vertices) = 6%nat
              /\ RimSpec.height h.(HexGenerator.position) = h.(HexGenerator.elevation)
              /\ GridSpec.fromData
                   (GridSpec.entryAt g.(HexGenerator.gridSize) elevationData cell) h)
           HexGenerator.gridCoords _ _ F).
Qed.

(** X20.  Without elevation data, that is when [parseElevationData] is given
    [null] or an object without [hexes], every hex of the generated grid has
    elevation 0, biome 0 and feature 0, and its position lies at height 0. *)
Theorem grid_without_data (Math : JSMath.lib)
    (jsonData : option (option (list HexGenerator.entry))) (g : HexGenerator.t) :
  jsonData = None \/ jsonData = Some None ->
  exists hs g',
    HexGenerator.generateGrid Math (HexGenerator.parseElevationData jsonData) g
    = Returned (hs, g')
    /\ Forall
         (fun h =>
            h.(HexGenerator.elevation) = 0
            /\ h.(HexGenerator.biomeIndex) = 0
            /\ h.(HexGenerator.featureIndex) = 0
            /\ RimSpec.height h.(HexGenerator.position) = 0)
         hs.
Proof.
  intros H.
  assert (E : HexGenerator.parseElevationData jsonData = [])
    by (destruct H as [-> | ->]; reflexivity).
  rewrite E.
  destruct (generateGrid_shape Math [] g) as (hs & g' & R & _ & F).
  exists hs, g'. split; [exact R |].
  eapply Forall_impl; [| exact F].
  intros h (_ & P & D). unfold GridSpec.fromData, GridSpec.entryAt in D.
  rewrite (proj2 (nth_error_None [] _)) in D by (simpl; lia).
  destruct D as (D1 & D2 & D3). rewrite P. auto.
Qed.

Lemma grid_without_data_witness :
  (@None (option (list HexGenerator.entry)) = None
   \/ @None (option (list HexGenerator.entry)) = Some None)
  /\ exists hs g',
      HexGenerator.generateGrid RefMath.math (HexGenerator.parseElevationData None)
        (HexGenerator.new 2 1 0.1 0.5)
      = Returned (hs, g')
      /\ Forall
           (fun h =>
              h.(HexGenerator.elevation) = 0
              /\ h.(HexGenerator.biomeIndex) = 0
              /\ h.(HexGenerator.featureIndex) = 0
              /\ RimSpec.height h.(HexGenerator.position) = 0)
           hs.
Proof.
  assert (H : @None (option (list HexGenerator.entry)) = None
              \/ @None (option (list HexGenerator.entry)) = Some None)
    by (left; reflexivity).
  split; [exact H |].
  exact (grid_without_data RefMath.math None (HexGenerator.new 2 1 0.1 0.5) H).
Defined.

End GeneratorFacts.

(* ------------------------------------------------------------------ *)
(** ** HexRenderer *)

Lemma stateless_ret {S A} (a : A) : stateless (@ret S A a).
Proof. exists (Returned a). reflexivity. Qed.

Lemma stateless_throw {S A} (e : jsError) : stateless (@throw S A e).
Proof. exists (Thrown e). reflexivity. Qed.

Lemma stateless_bind {S A B} (m : M S A) (k : A -> M S B) :
  stateless m -> (forall a, stateless (k a)) -> stateless (bind m k).
Proof.
  intros [[a | e] Hm] Hk.
  - destruct (Hk a) as [o Ho]. exists o. intros s.
    unfold bind. rewrite Hm. simpl. apply Ho.
  - exists (Thrown e). intros s. unfold bind. rewrite Hm. reflexivity.
Qed.

Lemma stateless_index {S A} (l : list A) (i : nat) : stateless (@index S A l i).
Proof.
  unfold index. destruct (nth_error l i); [apply stateless_ret | apply stateless_throw].
Qed.

Lemma stateless_propM {S V} (name : string) (obj : list (string * V)) :
  stateless (@propM S V name obj).
Proof.
  unfold propM. destruct (prop name obj); [apply stateless_ret | apply stateless_throw].
Qed.

Lemma stateless_foldM {S A B} (f : B -> A -> M S B) (l : list A) :
  (forall b a, stateless (f b a)) -> forall b, stateless (foldM f l b).
Proof.
  intros H. induction l as [| a l IH]; intros b; simpl.
  - apply stateless_ret.
  - apply stateless_bind; [apply H | exact IH].
Qed.

(** What a stateless computation returns in one state, it returns in every
    state, and the state is unchanged. *)
Lemma stateless_returned {S A} (m : M S A) (s s' : S) (a : A) :
  stateless m -> m s = Returned (a, s') -> s' = s /\ forall t, m t = Returned (a, t).
Proof.
  intros [o Ho] E. rewrite Ho in E. unfold lift in E.
  destruct o as [a0 | e]; [| discriminate E].
  injection E as <- <-. split; [reflexivity |]. intros t. apply Ho.
Qed.

Module RendererFacts.
Open Scope float_scope.
Import JSMath Directions.

Ltac stateless_steps :=
  repeat first
    [ apply stateless_ret
    | apply stateless_throw
    | apply stateless_index
    | apply stateless_propM
    | apply stateless_bind; [| intros ?]
    | match goal with
      | |- stateless (match ?x with _ => _ end) => destruct x
      end ].

Lemma skirtStep_stateless {S} (hexGenerator : HexGenerator.t) (h : HexGenerator.hex)
    (hexGrid : list HexGenerator.hex) (st : buffers * list string) (d : string) :
  stateless (@HexRenderer.skirtStep S hexGenerator h hexGrid st d).
Proof. unfold HexRenderer.skirtStep. stateless_steps. Qed.

Lemma createHexGeometry_stateless {S} (Math : JSMath.lib) (rnd : float)
    (h : HexGenerator.hex) (hexGrid : list HexGenerator.hex) :
  stateless (@HexRenderer.createHexGeometry Math S rnd h hexGrid).
Proof.
  unfold HexRenderer.createHexGeometry.
  apply stateless_bind; [apply stateless_index | intros v0].
  apply stateless_bind.
  - apply stateless_foldM. intros. apply skirtStep_stateless.
  - intros [b set]. apply stateless_ret.
Qed.

Lemma createHexMesh_stateless {S} (Math : JSMath.lib) (rnd : float)
    (h : HexGenerator.hex) (hexGrid : list HexGenerator.hex) (material : float) :
  stateless (@HexRenderer.createHexMesh Math S rnd h hexGrid material).
Proof.
  unfold HexRenderer.createHexMesh.
  apply stateless_bind; [apply createHexGeometry_stateless | intros b].
  apply stateless_ret.
Qed.

Lemma createHexMesh_data {S} (Math : JSMath.lib) (rnd : float)
    (h : HexGenerator.hex) (hexGrid : list HexGenerator.hex) (material : float)
    (s s' : S) (m : mesh) :
  HexRenderer.createHexMesh Math rnd h hexGrid material s = Returned (m, s') ->
  m.(userCoords) = h.(HexGenerator.gridCoords) /\ m.(colorIndex) = material.
Proof.
  unfold HexRenderer.createHexMesh, bind.
  destruct (HexRenderer.createHexGeometry Math rnd h hexGrid s) as [[b s1] | e];
    [| discriminate].
  intros E. injection E as <- _. split; reflexivity.
Qed.

(** The body of the loop of [renderGrid]. *)
Local Abbreviation body Math rnd hexGrid :=
  (fun h =>
     m <- HexRenderer.createHexMesh Math rnd h hexGrid
            (HexRenderer.createBiomeMaterial h.(HexGenerator.biomeIndex)) ;;
     this <- getThis ;;
     _ <- putThis (HexRenderer.mk (this.(HexRenderer.meshes) ++ [m])) ;;
     ret m).

(** The loop of [renderGrid], over any part of the grid, from any state. *)
Lemma render_loop (Math : JSMath.lib) (rnd : float) (hexGrid l : list HexGenerator.hex) :
  forall (r r' : HexRenderer.t) (ms : list mesh),
    mapM (body Math rnd hexGrid) l r = Returned (ms, r') ->
    map userCoords ms = map HexGenerator.gridCoords l
    /\ forall t,
        mapM (body Math rnd hexGrid) l t
        = Returned (ms, HexRenderer.mk (t.(HexRenderer.meshes) ++ ms)).
Proof.
  induction l as [| h l IH]; intros r r' ms; simpl.
  - intros E. injection E as <- <-. split; [reflexivity |].
    intros [t]. simpl. rewrite app_nil_r. reflexivity.
  - unfold bind at 1. unfold bind at 1.
    destruct (HexRenderer.createHexMesh Math rnd h hexGrid
                (HexRenderer.createBiomeMaterial (HexGenerator.biomeIndex h)) r)
      as [[m r1] | e] eqn:E1; [| discriminate].
    destruct (stateless_returned _ _ _ _
                (createHexMesh_stateless Math rnd h hexGrid _) E1) as [-> A].
    destruct (createHexMesh_data Math rnd h hexGrid _ r r m E1) as [C _].
    cbn [bind getThis putThis ret]. unfold bind at 1.
    destruct (mapM (body Math rnd hexGrid) l
                (HexRenderer.mk (HexRenderer.meshes r ++ [m])))
      as [[ms' r2] | e] eqn:E2; [| discriminate].
    intros E. injection E as <- <-.
    destruct (IH _ _ _ E2) as [U L].
    split; [simpl; rewrite C, U; reflexivity |].
    intros t. unfold bind at 1. unfold bind at 1. rewrite A.
    cbn [bind getThis putThis ret]. unfold bind at 1. rewrite L.
    cbn [HexRenderer.meshes]. rewrite <- app_assoc. reflexivity.
Qed.

(** X21.  [renderGrid] adds its meshes at the end of [this.meshes] and removes
    none: the mesh of the hex at place [i] of the grid stands at place [i] of
    [this.meshes] only when the list was empty before, as it is after [clear];
    otherwise it stands further on by the number of meshes that were there.
    Each mesh carries the coordinates of its hex. *)
Theorem renderGrid_appends (Math : JSMath.lib) (rnd : float)
    (hexGrid : list HexGenerator.hex) (r r' : HexRenderer.t) (ms : list mesh) :
  HexRenderer.renderGrid Math rnd hexGrid r = Returned (ms, r') ->
  r'.(HexRenderer.meshes) = r.(HexRenderer.meshes) ++ ms
  /\ map userCoords ms = map HexGenerator.gridCoords hexGrid
  /\ (forall i, nth_error r'.(HexRenderer.meshes)
                  (List.length r.(HexRenderer.meshes) + i) = nth_error ms i)
  /\ (forall r0,
        (_ <- HexRenderer.clear ;; HexRenderer.renderGrid Math rnd hexGrid) r0
        = Returned (ms, HexRenderer.mk ms)).
Proof.
  intros E. destruct (render_loop Math rnd hexGrid hexGrid r r' ms E) as [U L].
  assert (M : r'.(HexRenderer.meshes) = r.(HexRenderer.meshes) ++ ms).
  { unfold HexRenderer.renderGrid in E. rewrite L in E. injection E as <-. reflexivity. }
  split; [exact M |]. split; [exact U |]. split.
  - intros i. rewrite M, nth_error_app2 by lia. f_equal. lia.
  - intros r0. unfold bind, HexRenderer.clear, putThis, HexRenderer.renderGrid.
    rewrite L. reflexivity.
Qed.

Lemma renderGrid_appends_witness :
  exists ms r',
    HexRenderer.renderGrid RefMath.math 0.7 [GridSpec.flatHex (0, 0)%Z]
      (HexRenderer.mk [GridSpec.staleMesh])
    = Returned (ms, r')
    /\ r'.(HexRenderer.meshes) = [GridSpec.staleMesh] ++ ms
    /\ map userCoords ms = map HexGenerator.gridCoords [GridSpec.flatHex (0, 0)%Z]
    /\ (forall i, nth_error r'.(HexRenderer.meshes)
                    (List.length (HexRenderer.mk [GridSpec.staleMesh]).(HexRenderer.meshes) + i)
                  = nth_error ms i)
    /\ (forall r0,
          (_ <- HexRenderer.clear ;;
           HexRenderer.renderGrid RefMath.math 0.7 [GridSpec.flatHex (0, 0)%Z]) r0
          = Returned (ms, HexRenderer.mk ms)).
Proof.
  destruct (HexRenderer.renderGrid RefMath.math 0.7 [GridSpec.flatHex (0, 0)%Z]
              (HexRenderer.mk [GridSpec.staleMesh])) as [[ms r'] | e] eqn:E;
    [| vm_compute in E; discriminate E].
  exists ms, r'. split; [reflexivity |].
  exact (renderGrid_appends RefMath.math 0.7 [GridSpec.flatHex (0, 0)%Z]
           (HexRenderer.mk [GridSpec.staleMesh]) r' ms E).
Defined.

(** *** Edges without a neighbour *)

Lemma find_all_false {A} (f : A -> bool) (l : list A) :
  (forall x, In x l -> f x = false) -> find f l = None.
Proof.
  induction l as [| a l IH]; intros H; simpl; [reflexivity |].
  rewrite (H a) by (left; reflexivity). apply IH. intros x Hx. apply H. right. exact Hx.
Qed.

Lemma find_self (h : HexGenerator.hex) (hexGrid : list HexGenerator.hex) :
  In h hexGrid ->
  exists thisHex,
    find (fun h' => (fst h'.(HexGenerator.gridCoords) =? fst h.(HexGenerator.gridCoords))%Z
                    && (snd h'.(HexGenerator.gridCoords)
                        =? snd h.(HexGenerator.gridCoords))%Z)
         hexGrid = Some thisHex
    /\ thisHex.(HexGenerator.gridCoords) = h.(HexGenerator.gridCoords).
Proof.
  intros Hin.
  destruct (GeneratorFacts.find_some_exists
              (fun h' => (fst h'.(HexGenerator.gridCoords)
                          =? fst h.(HexGenerator.gridCoords))%Z
                         && (snd h'.(HexGenerator.gridCoords)
                             =? snd h.(HexGenerator.gridCoords))%Z)
              hexGrid h Hin) as [y F].
  { apply GeneratorFacts.coords_test. destruct (HexGenerator.gridCoords h). reflexivity. }
  exists y. split; [exact F |].
  apply find_some in F. destruct F as [_ T].
  apply GeneratorFacts.coords_test in T. rewrite T.
  destruct (HexGenerator.gridCoords h). reflexivity.
Qed.

Lemma getNeighbor_none (g : HexGenerator.t) (h : HexGenerator.hex) (d : string)
    (hexGrid : list HexGenerator.hex) :
  (forall n x, step h.(HexGenerator.gridCoords) d = Some n ->
               In x hexGrid -> x.(HexGenerator.gridCoords) <> n) ->
  HexGenerator.getNeighbor g h d hexGrid = None.
Proof.
  intros H. unfold HexGenerator.getNeighbor.
  destruct (HexGenerator.getNeighborCoords g (HexGenerator.gridCoords h) d)
    as [[c r] |] eqn:E; [| reflexivity].
  apply GeneratorFacts.checked_coords in E. destruct E as [E _].
  apply find_all_false. intros x Hx.
  destruct ((fst (HexGenerator.gridCoords x) =? c)%Z
            && (snd (HexGenerator.gridCoords x) =? r)%Z) eqn:T; [| reflexivity].
  apply GeneratorFacts.coords_test in T. exfalso. exact (H (c, r) x E Hx T).
Qed.

Lemma skirtStep_skips {S} (g : HexGenerator.t) (h thisHex : HexGenerator.hex)
    (hexGrid : list HexGenerator.hex) (st : buffers * list string) (d : string) (s : S) :
  find (fun h' => (fst h'.(HexGenerator.gridCoords) =? fst h.(HexGenerator.gridCoords))%Z
                  && (snd h'.(HexGenerator.gridCoords)
                      =? snd h.(HexGenerator.gridCoords))%Z)
       hexGrid = Some thisHex ->
  HexGenerator.getNeighbor g thisHex d hexGrid = None ->
  HexRenderer.skirtStep g h hexGrid st d s = Returned (st, s).
Proof.
  intros F N. unfold HexRenderer.skirtStep. destruct st as [b set].
  rewrite F, N. reflexivity.
Qed.

Lemma cap_fold_size (Math : JSMath.lib) (k : nat) (l : list (nat * vec3)) :
  forall b,
    let b' := fold_left (HexRenderer.capStep Math k) l b in
    List.length b'.(positions) = (List.length b.(positions) + 3 * List.length l)%nat
    /\ List.length b'.(indices) = (List.length b.(indices) + 3 * List.length l)%nat.
Proof.
  induction l as [| [i [[x y] z]] l IH]; intros b.
  - simpl. split; lia.
  - destruct (IH (HexRenderer.capStep Math k b (i, (x, y, z)))) as [P X].
    cbv zeta in P, X |- *. cbn [fold_left List.length].
    split; (etransitivity; [first [exact P | exact X] |]);
      unfold HexRenderer.capStep, push3; cbn [positions indices];
      rewrite !length_app; destruct (Nat.ltb i (k - 1)); simpl; lia.
Qed.

Lemma cap_size (Math : JSMath.lib) (cx cy cz : float) (vs : list vec3) :
  let b := HexRenderer.cap Math cx cy cz vs in
  List.length b.(positions) = (3 * (1 + List.length vs))%nat
  /\ triangleCount b = List.length vs.
Proof.
  unfold HexRenderer.cap, triangleCount.
  destruct (cap_fold_size Math (List.length vs)
              (combine (seq 0 (List.length vs)) vs)
              (mkBuffers [cx; cy; cz] [] top_normal center_uv)) as [P X].
  cbv zeta in *. rewrite P, X, length_combine, length_seq, Nat.min_id.
  cbn [positions indices List.length Nat.add].
  split; [lia |]. rewrite (Nat.mul_comm 3). apply Nat.div_mul. lia.
Qed.

(** X22.  The renderer leaves an edge open when the grid holds no hex across
    it.  For a hex of the grid with no hex of the grid at its neighbouring
    coordinates to the SE, S and SW, [createHexGeometry] returns the top face
    alone: the centre and the rim vertices, one triangle a rim vertex, and
    neither skirt nor corner triangle. *)
Theorem open_edges_get_no_skirt {S} (Math : JSMath.lib) (rnd : float)
    (h : HexGenerator.hex) (hexGrid : list HexGenerator.hex) (s : S) :
  In h hexGrid ->
  h.(HexGenerator.vertices) <> [] ->
  (forall d n x,
      In d skirtDirections ->
      HexUtils.getNeighborCoords h.(HexGenerator.gridCoords) d = Some n ->
      In x hexGrid -> x.(HexGenerator.gridCoords) <> n) ->
  exists b,
    HexRenderer.createHexGeometry Math rnd h hexGrid s = Returned (b, s)
    /\ List.length b.(positions) = (3 * (1 + List.length h.(HexGenerator.vertices)))%nat
    /\ triangleCount b = List.length h.(HexGenerator.vertices).
Proof.
  intros Hin Hvs Hno.
  destruct (find_self h hexGrid Hin) as (thisHex & F & C).
  assert (Skip : forall d st s',
             In d skirtDirections ->
             @HexRenderer.skirtStep S (HexGenerator.new_default rnd) h hexGrid st d s'
             = Returned (st, s')).
  { intros d st s' Hd. apply (skirtStep_skips _ h thisHex); [exact F |].
    apply getNeighbor_none. rewrite C. intros n x. apply Hno. exact Hd. }
  unfold HexRenderer.createHexGeometry.
  destruct (HexGenerator.vertices h) as [| v0 vs] eqn:V; [contradiction |].
  eexists. split.
  - unfold index. cbn [nth_error]. unfold bind at 1, ret at 1.
    unfold skirtDirections. cbn [foldM]. unfold bind.
    rewrite !Skip by (simpl; tauto). reflexivity.
  - apply cap_size.
Qed.

Lemma open_edges_get_no_skirt_witness :
  In (GridSpec.flatHex (0, 0)%Z) [GridSpec.flatHex (0, 0)%Z]
  /\ (GridSpec.flatHex (0, 0)%Z).(HexGenerator.vertices) <> []
  /\ exists b,
      HexRenderer.createHexGeometry RefMath.math 0.7 (GridSpec.flatHex (0, 0)%Z)
        [GridSpec.flatHex (0, 0)%Z] tt = Returned (b, tt)
      /\ List.length b.(positions) = 21%nat
      /\ triangleCount b = 6%nat.
Proof.
  assert (Hin : In (GridSpec.flatHex (0, 0)%Z) [GridSpec.flatHex (0, 0)%Z])
    by (left; reflexivity).
  assert (Hvs : (GridSpec.flatHex (0, 0)%Z).(HexGenerator.vertices) <> [])
    by discriminate.
  split; [exact Hin |]. split; [exact Hvs |].
  apply (open_edges_get_no_skirt RefMath.math 0.7 (GridSpec.flatHex (0, 0)%Z)
           [GridSpec.flatHex (0, 0)%Z] tt Hin Hvs).
  intros d n x Hd E [<- | []].
  simpl in Hd. destruct Hd as [<- | [<- | [<- | []]]];
    injection E as <-; discriminate.
Defined.

(** X23.  The renderer looks neighbours up through a [HexGenerator] it
    constructs without arguments, whose grid size is therefore 16, whatever
    the size of the grid being rendered.  A neighbour in column 16 or beyond,
    or in row 16 or beyond, is not looked for: the round of the skirt loop for
    that direction leaves the geometry as it is, even when the grid holds a
    hex at those coordinates. *)
Theorem renderer_stops_at_sixteen {S} (rnd : float) (h : HexGenerator.hex)
    (hexGrid : list HexGenerator.hex) (st : buffers * list string) (d : string)
    (n : Z * Z) (s : S) :
  In h hexGrid ->
  HexUtils.getNeighborCoords h.(HexGenerator.gridCoords) d = Some n ->
  (16 <= fst n \/ 16 <= snd n)%Z ->
  HexRenderer.skirtStep (HexGenerator.new_default rnd) h hexGrid st d s
  = Returned (st, s).
Proof.
  intros Hin E H.
  destruct (find_self h hexGrid Hin) as (thisHex & F & C).
  apply (skirtStep_skips _ h thisHex); [exact F |].
  unfold HexGenerator.getNeighbor, HexGenerator.getNeighborCoords.
  rewrite C. unfold HexUtils.getNeighborCoords in E. rewrite E.
  destruct n as [ncol nrow]. cbn [fst snd] in H.
  replace ((ncol <? 0) || (ncol >=? HexGenerator.gridSize (HexGenerator.new_default rnd))
           || (nrow <? 0)
           || (nrow >=? HexGenerator.gridSize (HexGenerator.new_default rnd)))%Z
    with true; [reflexivity |].
  symmetry. cbn [HexGenerator.gridSize HexGenerator.new_default HexGenerator.new].
  rewrite !orb_true_iff, !Z.geb_leb, !Z.leb_le. lia.
Qed.

Lemma renderer_stops_at_sixteen_witness :
  let hexGrid := [GridSpec.flatHex (15, 3)%Z; GridSpec.flatHex (16, 4)%Z] in
  In (GridSpec.flatHex (15, 3)%Z) hexGrid
  /\ HexUtils.getNeighborCoords (GridSpec.flatHex (15, 3)%Z).(HexGenerator.gridCoords) "SE"
     = Some (16, 4)%Z
  /\ (16 <= fst (16, 4) \/ 16 <= snd (16, 4))%Z
  /\ HexGenerator.getNeighbor (HexGenerator.new 32 1 0.1 0.7)
       (GridSpec.flatHex (15, 3)%Z) "SE" hexGrid
     = Some (GridSpec.flatHex (16, 4)%Z)
  /\ HexRenderer.skirtStep (HexGenerator.new_default 0.7) (GridSpec.flatHex (15, 3)%Z)
       hexGrid (mkBuffers [] [] [] [], []) "SE" tt
     = Returned ((mkBuffers [] [] [] [], []), tt).
Proof.
  intros hexGrid.
  assert (Hin : In (GridSpec.flatHex (15, 3)%Z) hexGrid) by (left; reflexivity).
  assert (H : (16 <= fst (16, 4) \/ 16 <= snd (16, 4))%Z) by (left; simpl; lia).
  split; [exact Hin |]. split; [reflexivity |]. split; [exact H |].
  split; [reflexivity |].
  exact (renderer_stops_at_sixteen 0.7 (GridSpec.flatHex (15, 3)%Z) hexGrid
           (mkBuffers [] [] [] [], []) "SE" (16, 4)%Z tt Hin eq_refl H).
Defined.

(** *** The name of a corner *)

Lemma ascii_compare_trans (x y z : ascii) (c : comparison) :
  Ascii.compare x y = c -> Ascii.compare y z = c -> Ascii.compare x z = c.
Proof.
  unfold Ascii.compare. intros <-.
  destruct (N.compare_spec (N_of_ascii x) (N_of_ascii y)) as [E | L | G];
    intros H.
  - rewrite E. exact H.
  - exact (N.lt_trans _ _ _ L H).
  - apply N.compare_gt_iff in H. apply N.compare_gt_iff.
    exact (N.lt_trans _ _ _ H G).
Qed.

Lemma string_compare_trans (c : comparison) :
  forall a b d : string,
    String.compare a b = c -> String.compare b d = c -> String.compare a d = c.
Proof.
  induction a as [| x a IH]; intros [| y b] [| z d]; simpl; try congruence.
  destruct (Ascii.compare x y) eqn:Exy, (Ascii.compare y z) eqn:Eyz.
  all: try (apply Ascii.compare_eq_iff in Exy; subst y; rewrite ?Eyz).
  all: try (apply Ascii.compare_eq_iff in Eyz; subst z; rewrite ?Exy).
  all: try (rewrite (ascii_compare_trans x y z _ Exy Eyz)).
  all: try congruence.
  - destruct (Ascii.compare x x) eqn:Exx; try congruence; apply IH.
Qed.

Lemma leb_trans (a b c : string) :
  String.leb a b = true -> String.leb b c = true -> String.leb a c = true.
Proof.
  unfold String.leb.
  destruct (String.compare a b) eqn:Eab; [| | discriminate];
    destruct (String.compare b c) eqn:Ebc; try discriminate; intros _ _.
  - rewrite (string_compare_trans Eq a b c Eab Ebc). reflexivity.
  - apply String.compare_eq_iff in Eab. subst b. rewrite Ebc. reflexivity.
  - apply String.compare_eq_iff in Ebc. subst c. rewrite Eab. reflexivity.
  - rewrite (string_compare_trans Lt a b c Eab Ebc). reflexivity.
Qed.

Lemma leb_false (a b : string) : String.leb a b = false -> String.leb b a = true.
Proof.
  intros H. destruct (String.leb_total a b) as [E | E]; [congruence | exact E].
Qed.

(** Sorting three strings gives the same list whatever their order. *)
Lemma sort_swap_12 (a b c : string) :
  HexRenderer.sort [a; b; c] = HexRenderer.sort [b; a; c].
Proof.
  unfold HexRenderer.sort. simpl.
  destruct (String.leb a c) eqn:Eac, (String.leb b c) eqn:Ebc; simpl;
    rewrite ?Eac, ?Ebc;
    destruct (String.leb a b) eqn:Eab, (String.leb b a) eqn:Eba; simpl;
    rewrite ?Eac, ?Ebc; try reflexivity.
  all: try (rewrite (String.leb_antisym a b Eab Eba); reflexivity).
  all: try (apply leb_false in Eab; congruence).
  all: try (rewrite (leb_trans a b c Eab Ebc) in Eac; discriminate).
  all: try (rewrite (leb_trans b a c Eba Eac) in Ebc; discriminate).
  all: try (apply leb_false in Eac; apply leb_false in Ebc).
  all: try (rewrite (leb_trans _ _ _ Ebc Eab) in *; try discriminate).
  all: try (pose proof (String.leb_antisym _ _ Eab (leb_trans _ _ _ Ebc Eac)) as ->;
            reflexivity).
  all: try (pose proof (String.leb_antisym _ _ Eba (leb_trans _ _ _ Eac Ebc)) as ->;
            reflexivity).
Qed.

Lemma sort_swap_23 (a b c : string) :
  HexRenderer.sort [a; b; c] = HexRenderer.sort [a; c; b].
Proof.
  unfold HexRenderer.sort. simpl.
  destruct (String.leb b c) eqn:Ebc, (String.leb c b) eqn:Ecb; try reflexivity.
  - rewrite (String.leb_antisym b c Ebc Ecb). reflexivity.
  - apply leb_false in Ebc. congruence.
Qed.

(** X24.  The name of a corner does not depend on the order in which its three
    cells are given: the three cells that meet at a corner all compute the
    same name for it. *)
Theorem corner_name_is_symmetric (a b c : Z * Z) :
  HexRenderer.cornerTriangleId a b c = HexRenderer.cornerTriangleId b a c
  /\ HexRenderer.cornerTriangleId a b c = HexRenderer.cornerTriangleId a c b
  /\ HexRenderer.cornerTriangleId a b c = HexRenderer.cornerTriangleId c a b
  /\ HexRenderer.cornerTriangleId a b c = HexRenderer.cornerTriangleId b c a
  /\ HexRenderer.cornerTriangleId a b c = HexRenderer.cornerTriangleId c b a.
Proof.
  unfold HexRenderer.cornerTriangleId.
  assert (S12 := sort_swap_12). assert (S23 := sort_swap_23).
  repeat split.
  - rewrite S12. reflexivity.
  - rewrite S23. reflexivity.
  - rewrite S23, S12. reflexivity.
  - rewrite S12, S23. reflexivity.
  - rewrite S12, S23, S12. reflexivity.
Qed.

End RendererFacts.

(* ------------------------------------------------------------------ *)
(** ** TextureManager: biomes, textures and places of the atlas *)

Module TextureFacts.
Open Scope float_scope.
Import TextureManager.

Lemma sameKey_refl (b : biome) : sameKey b b = true.
Proof. destruct b; simpl; [apply Leibniz.eqb_spec |]; reflexivity. Qed.

Lemma sameKey_lookup {V} (a b : biome) (obj : list (biome * V)) :
  sameKey a b = true -> lookup a obj = lookup b obj.
Proof.
  intros H. induction obj as [| [k v] obj IH]; simpl; [reflexivity |].
  rewrite IH. f_equal.
  destruct a as [x |], b as [y |], k as [z |]; simpl in *;
    try reflexivity; try discriminate H.
  apply Leibniz.eqb_spec in H. rewrite H. reflexivity.
Qed.

(** The map after the loop of [createBiomeToAtlasMap] over [bs], the
    elements being numbered from [start]. *)
Lemma places_fold (bs : list biome) :
  forall start acc,
    fold_left (fun map bi => (fst bi, snd bi) :: map)
              (combine bs (seq start (List.length bs))) acc
    = rev (combine bs (seq start (List.length bs))) ++ acc.
Proof.
  induction bs as [| b bs IH]; intros start acc; simpl; [reflexivity |].
  rewrite IH, <- app_assoc. reflexivity.
Qed.

Lemma lookup_app {V} (k : biome) (l1 l2 : list (biome * V)) :
  lookup k (l1 ++ l2)
  = match lookup k l1 with Some v => Some v | None => lookup k l2 end.
Proof.
  induction l1 as [| [k' v] l1 IH]; simpl; [reflexivity |].
  destruct (sameKey k k'); [reflexivity | exact IH].
Qed.

(** Looking a key up in the finished map: the last element of the array with
    that key decides. *)
Lemma lookup_places (k : biome) (bs : list biome) :
  forall start,
    lookup k (rev (combine bs (seq start (List.length bs))))
    = match bs with
      | [] => None
      | b :: rest =>
          match lookup k (rev (combine rest (seq (S start) (List.length rest)))) with
          | Some i => Some i
          | None => if sameKey k b then Some start else None
          end
      end.
Proof.
  destruct bs as [| b rest]; intros start; simpl; [reflexivity |].
  rewrite lookup_app. simpl. reflexivity.
Qed.

Lemma lookup_places_sound (k : biome) (bs : list biome) :
  forall start i,
    lookup k (rev (combine bs (seq start (List.length bs)))) = Some i ->
    (start <= i)%nat
    /\ exists b, nth_error bs (i - start) = Some b /\ sameKey k b = true.
Proof.
  induction bs as [| b rest IH]; intros start i; rewrite lookup_places;
    [discriminate |].
  destruct (lookup k (rev (combine rest (seq (S start) (List.length rest)))))
    as [j |] eqn:E.
  - intros H. injection H as ->.
    destruct (IH (S start) i E) as (L & b' & N & K).
    split; [lia |]. exists b'. split; [| exact K].
    replace (i - start)%nat with (S (i - S start)) by lia. exact N.
  - destruct (sameKey k b) eqn:K; [| discriminate].
    intros H. injection H as <-. split; [lia |].
    exists b. rewrite Nat.sub_diag. split; [reflexivity | exact K].
Qed.

Lemma lookup_places_none (k : biome) (bs : list biome) :
  forall start,
    (forall b, In b bs -> sameKey k b = false) ->
    lookup k (rev (combine bs (seq start (List.length bs)))) = None.
Proof.
  induction bs as [| b rest IH]; intros start H; rewrite lookup_places;
    [reflexivity |].
  rewrite IH by (intros b' Hb'; apply H; right; exact Hb').
  rewrite (H b) by (left; reflexivity). reflexivity.
Qed.

Lemma lookup_places_last (k : biome) (bs : list biome) :
  forall start i b,
    nth_error bs i = Some b ->
    sameKey k b = true ->
    (forall j b', (i < j)%nat -> nth_error bs j = Some b' -> sameKey k b' = false) ->
    lookup k (rev (combine bs (seq start (List.length bs)))) = Some (start + i)%nat.
Proof.
  induction bs as [| b0 rest IH]; intros start i b N K L; rewrite lookup_places.
  - destruct i; discriminate N.
  - destruct i as [| i].
    + injection N as ->.
      rewrite lookup_places_none.
      * rewrite K, Nat.add_0_r. reflexivity.
      * intros b' Hb'. apply In_nth_error in Hb'. destruct Hb' as [j Hj].
        apply (L (S j) b'); [lia | exact Hj].
    + rewrite (IH (S start) i b N K).
      * f_equal. lia.
      * intros j b' Hj Nj. apply (L (S j) b'); [lia | exact Nj].
Qed.

Lemma includesDefault_spec (bs : list biome) :
  includesDefault bs = true <-> In Default bs.
Proof.
  unfold includesDefault. rewrite existsb_exists. split.
  - intros ([n |] & Hin & H); [discriminate H | exact Hin].
  - intros H. exists Default. split; [exact H | reflexivity].
Qed.

(** X25.  [createBiomeToAtlasMap] returns.  It appends ['default'] to the
    array it is given unless the array holds it already.  The map sends every
    element of the resulting array to a place of that array which holds an
    element with the same key, the last such place; so with elements that are
    pairwise different, as the renderer passes them, each is sent to its own
    place.  ['default'] always gets a place, and that place is what
    [getDefaultTextureIndex] returns afterwards. *)
Theorem atlas_places (biomeIndices : list biome) (t : TextureManager.t) :
  exists bs m t',
    createBiomeToAtlasMap biomeIndices t = Returned ((bs, m), t')
    /\ bs = (if includesDefault biomeIndices then biomeIndices
             else biomeIndices ++ [Default])
    /\ (forall b i, lookup b m = Some i ->
                    exists b', nth_error bs i = Some b' /\ sameKey b b' = true)
    /\ (forall b i,
          nth_error bs i = Some b ->
          (forall j b', (i < j)%nat -> nth_error bs j = Some b' -> sameKey b b' = false) ->
          lookup b m = Some i)
    /\ exists i,
        lookup Default m = Some i
        /\ (i < List.length bs)%nat
        /\ getDefaultTextureIndex t' = Returned (i, t').
Proof.
  unfold createBiomeToAtlasMap, bind, putThis, ret.
  set (bs := if includesDefault biomeIndices then biomeIndices
             else biomeIndices ++ [Default]).
  eexists bs, _, _. split; [reflexivity |]. split; [reflexivity |].
  rewrite places_fold, app_nil_r.
  assert (Sound : forall b i,
             lookup b (rev (combine bs (seq 0 (List.length bs)))) = Some i ->
             exists b', nth_error bs i = Some b' /\ sameKey b b' = true).
  { intros b i H. destruct (lookup_places_sound b bs 0 i H) as (_ & b' & N & K).
    rewrite Nat.sub_0_r in N. exists b'. split; assumption. }
  split; [exact Sound |]. split.
  - intros b i N L.
    exact (lookup_places_last b bs 0 i b N (sameKey_refl b) L).
  - assert (D : In Default bs).
    { unfold bs. destruct (includesDefault biomeIndices) eqn:E.
      - apply includesDefault_spec, E.
      - apply in_or_app. right. left. reflexivity. }
    destruct (lookup Default (rev (combine bs (seq 0 (List.length bs)))))
      as [i |] eqn:E.
    + exists i. split; [reflexivity |]. split; [| reflexivity].
      destruct (Sound Default i E) as (b' & N & _).
      apply nth_error_Some. rewrite N. discriminate.
    + exfalso.
      assert (H : forall bs' start,
                 In Default bs' ->
                 lookup Default (rev (combine bs' (seq start (List.length bs')))) <> None).
      { induction bs' as [| b rest IH]; intros start Hin; [contradiction |].
        rewrite lookup_places.
        destruct (lookup Default
                    (rev (combine rest (seq (S start) (List.length rest))))) eqn:R;
          [discriminate |].
        destruct Hin as [-> | Hin]; [discriminate |].
        exfalso. exact (IH (S start) Hin R). }
      exact (H bs 0%nat D E).
Qed.

(** X26.  The atlas is laid out from the same array the map numbers, so map
    and atlas agree: the texture path at the place the map gives for a biome
    is the path [getTexturePaths] gives for that biome. *)
Theorem atlas_holds_the_texture_of_the_biome (biomeIndices : list biome)
    (t t' : TextureManager.t) (bs : list biome) (m : list (biome * nat))
    (b : biome) (i : nat) :
  createBiomeToAtlasMap biomeIndices t = Returned ((bs, m), t') ->
  lookup b m = Some i ->
  nth_error (getTexturePaths bs) i = nth_error (getTexturePaths [b]) 0.
Proof.
  intros E L.
  destruct (atlas_places biomeIndices t) as (bs0 & m0 & t0 & E0 & _ & Sound & _).
  rewrite E in E0. injection E0 as <- <- <-.
  destruct (Sound b i L) as (b' & N & K).
  unfold getTexturePaths. rewrite nth_error_map, N.
  cbn [option_map map nth_error].
  rewrite (sameKey_lookup b b' biomeTextureMap K). reflexivity.
Qed.

Lemma atlas_holds_the_texture_of_the_biome_witness :
  exists bs m t',
    createBiomeToAtlasMap [Index 2; Index 0; Index 7] TextureManager.new
    = Returned ((bs, m), t')
    /\ lookup (Index 7) m = Some 2%nat
    /\ nth_error (getTexturePaths bs) 2 = nth_error (getTexturePaths [Index 7]) 0.
Proof.
  eexists _, _, _. split; [reflexivity |]. split; [reflexivity |].
  exact (atlas_holds_the_texture_of_the_biome [Index 2; Index 0; Index 7]
           TextureManager.new _ _ _ (Index 7) 2 eq_refl eq_refl).
Defined.

(** X27.  [getTexturePaths] returns a path for every element, never
    [undefined].  A biome index that is no key of the texture map gets the
    texture of biome 0, the grass; the blue texture, which the map keeps under
    ['default'] as the fallback, is returned for the element ['default']
    alone. *)
Theorem unknown_biome_gets_grass (biomeIndices : list biome) :
  List.length (getTexturePaths biomeIndices) = List.length biomeIndices
  /\ Forall (fun p => exists path, p = Some path
                                   /\ In path (map snd biomeTextureMap))
            (getTexturePaths biomeIndices)
  /\ (forall n,
        Forall (fun k => sameKey (Index n) (Index k) = false) [0; 1; 2; 3; 4] ->
        getTexturePaths [Index n] = [Some "/assets/textures/grass.png"%string])
  /\ (forall n, getTexturePaths [Index n] <> getTexturePaths [Default]).
Proof.
  split; [apply length_map |]. split; [| split].
  - unfold getTexturePaths. apply Forall_map, Forall_forall. intros b _.
    destruct b as [n |]; simpl;
      repeat (match goal with
              | |- context [if ?c then _ else _] => destruct c
              end);
      eexists; (split; [reflexivity |]); simpl; tauto.
  - intros n H.
    repeat (match goal with
            | H : Forall _ (_ :: _) |- _ => inversion H; subst; clear H
            end).
    unfold getTexturePaths, biomeTextureMap. simpl in *.
    repeat (match goal with
            | H : Leibniz.eqb _ _ = false |- _ => rewrite H; clear H
            end).
    reflexivity.
  - intros n. unfold getTexturePaths, biomeTextureMap. simpl.
    repeat (match goal with
            | |- context [if ?c then _ else _] => destruct c
            end); discriminate.
Qed.

End TextureFacts.

(* ------------------------------------------------------------------ *)
(** ** HexRenderer: every geometry is well formed *)

Module RendererShape.
Open Scope float_scope.
Import JSMath Directions.

Lemma mod3_iff (n : nat) : Nat.eqb (n mod 3) 0 = true <-> exists m, (n = 3 * m)%nat.
Proof.
  rewrite Nat.eqb_eq. split.
  - intros H. exists (n / 3)%nat. apply Nat.Div0.div_exact. exact H.
  - intros [m ->]. rewrite Nat.mul_comm. apply Nat.Div0.mod_mul.
Qed.

Lemma WF_iff (b : buffers) : ShapeSpec.well_formed b = true <-> ShapeSpec.WF b.
Proof.
  unfold ShapeSpec.well_formed, ShapeSpec.WF.
  rewrite !andb_true_iff, !mod3_iff, !Nat.eqb_eq, forallb_forall, Forall_forall.
  split.
  - intros ((((A & B) & C) & D) & E). repeat split; try assumption.
    intros i Hi. apply Nat.ltb_lt, E, Hi.
  - intros (A & B & C & D & E). repeat split; try assumption.
    intros i Hi. apply Nat.ltb_lt, E, Hi.
Qed.

Lemma count_of (b : buffers) (t : nat) :
  List.length b.(indices) = (3 * t)%nat -> triangleCount b = t.
Proof.
  intros H. unfold triangleCount. rewrite H, Nat.mul_comm. apply Nat.div_mul. lia.
Qed.

(** Three more vertices and one more triangle keep a geometry well formed. *)
Lemma pushTriangle_WF (b : buffers) (p q r : vec3) (normal : list float) :
  ShapeSpec.WF b -> List.length normal = 3%nat ->
  ShapeSpec.WF (pushTriangle b p q r [0; 1; 2]%nat normal)
  /\ triangleCount (pushTriangle b p q r [0; 1; 2]%nat normal) = S (triangleCount b)
  /\ List.length (pushTriangle b p q r [0; 1; 2]%nat normal).(positions)
     = (List.length b.(positions) + 9)%nat.
Proof.
  intros ([m Hm] & Hn & Hu & [t Ht] & Hi) Hl.
  destruct p as [[px py] pz], q as [[qx qy] qz], r as [[rx ry] rz].
  assert (Base : (List.length (positions b) / 3 = m)%nat).
  { rewrite Hm, Nat.mul_comm. apply Nat.div_mul. lia. }
  assert (W : ShapeSpec.WF (pushTriangle b (px, py, pz) (qx, qy, qz) (rx, ry, rz)
                    [0; 1; 2]%nat normal)
              /\ List.length (pushTriangle b (px, py, pz) (qx, qy, qz) (rx, ry, rz)
                                [0; 1; 2]%nat normal).(indices)
                 = (3 * S t)%nat
              /\ List.length (pushTriangle b (px, py, pz) (qx, qy, qz) (rx, ry, rz)
                                [0; 1; 2]%nat normal).(positions)
                 = (List.length b.(positions) + 9)%nat).
  { unfold ShapeSpec.WF, pushTriangle, push3. cbn [positions normals uvs indices].
    rewrite Base. rewrite !length_app. cbn [List.length map center_uv].
    rewrite Hl, Hm in *.
    repeat split.
    - exists (m + 3)%nat. lia.
    - lia.
    - lia.
    - exists (S t). lia.
    - apply Forall_app. split.
      + eapply Forall_impl; [| exact Hi]. intros i H. cbv beta in *. lia.
      + repeat constructor; lia.
    - lia.
    - lia. }
  destruct W as (W & C & P). split; [exact W |]. split; [| exact P].
  rewrite (count_of _ _ C), (count_of _ _ Ht). reflexivity.
Qed.

Lemma pushTriangle_side (b : buffers) (p q r : vec3) :
  ShapeSpec.WF b ->
  ShapeSpec.WF (pushTriangle b p q r [0; 1; 2]%nat side_normal)
  /\ triangleCount (pushTriangle b p q r [0; 1; 2]%nat side_normal) = S (triangleCount b)
  /\ List.length (pushTriangle b p q r [0; 1; 2]%nat side_normal).(positions)
     = (List.length b.(positions) + 9)%nat.
Proof. intros H. apply pushTriangle_WF; [exact H | reflexivity]. Qed.

Lemma pushTriangle_top (b : buffers) (p q r : vec3) :
  ShapeSpec.WF b ->
  ShapeSpec.WF (pushTriangle b p q r [0; 1; 2]%nat top_normal)
  /\ triangleCount (pushTriangle b p q r [0; 1; 2]%nat top_normal) = S (triangleCount b)
  /\ List.length (pushTriangle b p q r [0; 1; 2]%nat top_normal).(positions)
     = (List.length b.(positions) + 9)%nat.
Proof. intros H. apply pushTriangle_WF; [exact H | reflexivity]. Qed.

(** One round of the skirt loop adds no triangle when the hex has no
    neighbour in the direction, else the two of the skirt, or these and the
    corner triangle; every triangle comes with three vertices of its own. *)
Lemma skirtStep_WF {S} (g : HexGenerator.t) (h : HexGenerator.hex)
    (hexGrid : list HexGenerator.hex) (b b' : buffers) (set set' : list string)
    (d : string) (s s' : S) :
  HexRenderer.skirtStep g h hexGrid (b, set) d s = Returned ((b', set'), s') ->
  ShapeSpec.WF b ->
  ShapeSpec.WF b'
  /\ exists k,
      ShapeSpec.skirtTriangles g h hexGrid d k
      /\ triangleCount b' = (triangleCount b + k)%nat
      /\ List.length b'.(positions) = (List.length b.(positions) + 9 * k)%nat.
Proof.
  intros E Hb.
  unfold ShapeSpec.skirtTriangles.
  unfold HexRenderer.skirtStep, bind, propM, index, ret, throw in E.
  repeat match type of E with
         | context [match ?x with _ => _ end] =>
             destruct x; try discriminate E
         end;
    injection E as <- <- <-;
    first
      [ match goal with
        | |- context [pushTriangle (pushTriangle (pushTriangle ?b0 ?p1 ?q1 ?r1 _ _)
                                                 ?p2 ?q2 ?r2 _ _) ?p3 ?q3 ?r3 _ _] =>
            destruct (pushTriangle_side b0 p1 q1 r1 Hb) as (W1 & C1 & P1);
            destruct (pushTriangle_side _ p2 q2 r2 W1) as (W2 & C2 & P2);
            destruct (pushTriangle_top _ p3 q3 r3 W2) as (W3 & C3 & P3);
            split; [exact W3 |]; exists 3%nat;
            split; [right; reflexivity |];
            split; [rewrite C3, C2, C1; lia | rewrite P3, P2, P1; lia]
        end
      | match goal with
        | |- context [pushTriangle (pushTriangle ?b0 ?p1 ?q1 ?r1 _ _) ?p2 ?q2 ?r2 _ _] =>
            destruct (pushTriangle_side b0 p1 q1 r1 Hb) as (W1 & C1 & P1);
            destruct (pushTriangle_side _ p2 q2 r2 W1) as (W2 & C2 & P2);
            split; [exact W2 |]; exists 2%nat;
            split; [left; reflexivity |];
            split; [rewrite C2, C1; lia | rewrite P2, P1; lia]
        end
      | split; [exact Hb |]; exists 0%nat;
        split; [reflexivity |]; split; lia ].
Qed.

Lemma skirt_loop_WF {S} (g : HexGenerator.t) (h : HexGenerator.hex)
    (hexGrid : list HexGenerator.hex) (l : list string) :
  forall (b b' : buffers) (set set' : list string) (s s' : S),
    foldM (HexRenderer.skirtStep g h hexGrid) l (b, set) s = Returned ((b', set'), s') ->
    ShapeSpec.WF b ->
    ShapeSpec.WF b'
    /\ exists ks,
        Forall2 (ShapeSpec.skirtTriangles g h hexGrid) l ks
        /\ triangleCount b' = (triangleCount b + list_sum ks)%nat
        /\ List.length b'.(positions)
           = (List.length b.(positions) + 9 * list_sum ks)%nat.
Proof.
  induction l as [| d l IH]; intros b b' set set' s s' E Hb; cbn [foldM] in E.
  - injection E as <- <- <-. split; [exact Hb |].
    exists []. split; [constructor |]. simpl. split; lia.
  - unfold bind in E.
    destruct (HexRenderer.skirtStep g h hexGrid (b, set) d s)
      as [[[b1 set1] s1] | e] eqn:E1; [| discriminate E].
    destruct (skirtStep_WF g h hexGrid b b1 set set1 d s s1 E1 Hb)
      as (W1 & k & K & C1 & P1).
    destruct (IH b1 b' set1 set' s1 s' E W1) as (W & ks & Ks & C & P).
    split; [exact W |].
    exists (k :: ks). split; [constructor; assumption |].
    change (list_sum (k :: ks)) with (k + list_sum ks)%nat. split; lia.
Qed.

(** The top face. *)
Lemma cap_fold_WF (Math : JSMath.lib) (k : nat) (l : list (nat * vec3)) :
  forall (b : buffers) (j : nat),
    Forall (fun iv => fst iv < k)%nat l ->
    (List.length b.(positions) = 3 * (1 + j)
     /\ List.length b.(normals) = 3 * (1 + j)
     /\ List.length b.(uvs) = 2 * (1 + j)
     /\ List.length b.(indices) = 3 * j
     /\ Forall (fun i => i <= k) b.(indices))%nat ->
    let b' := fold_left (HexRenderer.capStep Math k) l b in
    (List.length b'.(positions) = 3 * (1 + (j + List.length l))
     /\ List.length b'.(normals) = 3 * (1 + (j + List.length l))
     /\ List.length b'.(uvs) = 2 * (1 + (j + List.length l))
     /\ List.length b'.(indices) = 3 * (j + List.length l)
     /\ Forall (fun i => i <= k) b'.(indices))%nat.
Proof.
  induction l as [| [i [[x y] z]] l IH]; intros b j Hl (P & N & U & X & F).
  - simpl. rewrite Nat.add_0_r. repeat split; assumption.
  - inversion Hl as [| ? ? Hi Hl']; subst. cbn [fst] in Hi.
    cbn [fold_left List.length].
    replace (j + S (List.length l))%nat with (S j + List.length l)%nat by lia.
    apply IH; [exact Hl' |].
    unfold HexRenderer.capStep, push3. cbn [positions normals uvs indices].
    rewrite !length_app.
    destruct (Nat.ltb i (k - 1)) eqn:L; cbn [List.length top_normal];
      (repeat split; try lia);
      (apply Forall_app; split; [exact F |]).
    + apply Nat.ltb_lt in L. repeat constructor; lia.
    + repeat constructor; lia.
Qed.

Lemma cap_WF (Math : JSMath.lib) (cx cy cz : float) (vs : list vec3) :
  ShapeSpec.WF (HexRenderer.cap Math cx cy cz vs)
  /\ triangleCount (HexRenderer.cap Math cx cy cz vs) = List.length vs
  /\ List.length (HexRenderer.cap Math cx cy cz vs).(positions)
     = (3 * (1 + List.length vs))%nat.
Proof.
  unfold HexRenderer.cap.
  destruct (cap_fold_WF Math (List.length vs) (combine (seq 0 (List.length vs)) vs)
              (mkBuffers [cx; cy; cz] [] top_normal center_uv) 0)
    as (P & N & U & X & F).
  - apply Forall_forall. intros [i v] Hin. apply in_combine_l in Hin.
    apply in_seq in Hin. simpl. lia.
  - simpl. repeat split; constructor.
  - cbv zeta in *.
    rewrite length_combine, length_seq, Nat.min_id in *. cbn [Nat.add] in *.
    split; [| split].
    + unfold ShapeSpec.WF. rewrite P, N, U, X. repeat split.
      * eexists. reflexivity.
      * lia.
      * eexists. reflexivity.
      * eapply Forall_impl; [| exact F]. intros i H. cbv beta in *. lia.
    + apply count_of. exact X.
    + rewrite P. reflexivity.
Qed.

(** X29.  Whenever [createHexGeometry] of the renderer returns, for whatever
    hex and grid, the geometry is well formed: whole vertices, a normal and a
    pair of texture coordinates for each, whole triangles, every index
    pointing at a vertex.  It has one triangle for each rim vertex and, for
    each of the three skirt directions in turn, none when the hex has no
    neighbour there, else two or three more.  The top face has the centre and
    the rim as its vertices, and every further triangle three vertices of its
    own.  The renderer is left as it was. *)
Theorem renderer_geometry_is_well_formed {S} (Math : JSMath.lib) (rnd : float)
    (h : HexGenerator.hex) (hexGrid : list HexGenerator.hex) (s s' : S) (b : buffers) :
  HexRenderer.createHexGeometry Math rnd h hexGrid s = Returned (b, s') ->
  ShapeSpec.well_formed b = true
  /\ (exists ks,
        Forall2 (ShapeSpec.skirtTriangles (HexGenerator.new_default rnd) h hexGrid)
                skirtDirections ks
        /\ triangleCount b = (List.length h.(HexGenerator.vertices) + list_sum ks)%nat
        /\ List.length b.(positions)
           = (3 * (1 + List.length h.(HexGenerator.vertices) + 3 * list_sum ks))%nat)
  /\ s' = s.
Proof.
  intros E.
  destruct (stateless_returned _ _ _ _
              (RendererFacts.createHexGeometry_stateless Math rnd h hexGrid) E)
    as [-> _].
  unfold HexRenderer.createHexGeometry, bind, index, ret in E.
  destruct (nth_error (HexGenerator.vertices h) 0) as [v0 |]; [| discriminate E].
  match type of E with
  | context [foldM ?f ?l (?b0, ?set0) ?s0] =>
      destruct (foldM f l (b0, set0) s0) as [[[b1 set1] s1] | e] eqn:L;
      [| discriminate E];
      injection E as <- _;
      match type of L with
      | foldM _ _ (HexRenderer.cap ?M ?cx ?cy ?cz ?vs, _) _ = _ =>
          destruct (cap_WF M cx cy cz vs) as (W0 & C0 & P0)
      end;
      destruct (skirt_loop_WF _ _ _ _ _ _ _ _ _ _ L W0) as (W & ks & Ks & C & P)
  end.
  split; [apply WF_iff; exact W |]. split; [| reflexivity].
  exists ks. split; [exact Ks |]. rewrite C, C0, P, P0. split; lia.
Qed.

Lemma renderer_geometry_is_well_formed_witness :
  let hexGrid := [GridSpec.flatHex (0, 0)%Z; GridSpec.flatHex (1, 0)%Z;
                  GridSpec.flatHex (0, 1)%Z] in
  exists b,
    HexRenderer.createHexGeometry RefMath.math 0.7 (GridSpec.flatHex (0, 0)%Z) hexGrid tt
    = Returned (b, tt)
    /\ ShapeSpec.well_formed b = true
    /\ (exists ks,
          Forall2 (ShapeSpec.skirtTriangles (HexGenerator.new_default 0.7)
                     (GridSpec.flatHex (0, 0)%Z) hexGrid)
                  skirtDirections ks
          /\ triangleCount b = (6 + list_sum ks)%nat
          /\ List.length b.(positions) = (3 * (1 + 6 + 3 * list_sum ks))%nat)
    /\ triangleCount b = 11%nat.
Proof.
  intros hexGrid.
  destruct (HexRenderer.createHexGeometry RefMath.math 0.7 (GridSpec.flatHex (0, 0)%Z)
              hexGrid tt) as [[b []] | e] eqn:E; [| vm_compute in E; discriminate E].
  exists b. split; [reflexivity |].
  destruct (renderer_geometry_is_well_formed RefMath.math 0.7 (GridSpec.flatHex (0, 0)%Z)
              hexGrid tt tt b E) as (W & C & _).
  split; [exact W |]. split; [exact C |].
  vm_compute in E. injection E as <-. reflexivity.
Defined.

End RendererShape.
(* ------------------------------------------------------------------ *)
(** ** Construction with any parameters *)

Module ConstructionFacts.
Open Scope float_scope.
Import JSMath.


End ConstructionFacts.
